(** * Mobile sensor bridge: a shallow embedding of the translation,
      fan-out, reconnect and shutdown code, with the properties of the
      specification stated and settled against it.

    Conventions of the embedding.
    - A JavaScript number is an IEEE double in the program; here it is a real
      number ([R]), so rounding, infinities and the sign of zero are not
      represented.  [NaN], [null] and [undefined] are separate constructors of
      [jsval], because the code branches on them.
    - Byte buffers ([Buffer], [ArrayBuffer], [Uint8Array]) are [list byte].
    - An exception is the [Throw] constructor of [result]; [try]/[catch] is a
      match on it.
    - [Date.now()] readings, the outcome of [JSON.parse] and the base-64
      decoder of the runtime are inputs of the functions that use them.
    - Sockets of the page live in a heap and variables hold references
      into it, so that two variables can name the same socket.
    - [setTimeout] appends the delay and the callback to a list of pending
      timers; the shutdown sequence runs on a virtual clock in
      milliseconds. *)

From Stdlib Require Import Reals Lra ZArith Lia List String Ascii Bool.
From coqutil Require Import Byte Word.LittleEndianList.
Import ListNotations.

Set Implicit Arguments.

(* ================================================================== *)
(** ** JavaScript values and control effects                          *)
(* ================================================================== *)

Module Js.

(** The values a numeric JSON field can take once parsed, plus [NaN]
    (which [isNaN] tests for, although JSON text cannot carry it). *)
Inductive jsval : Type :=
| JUndefined
| JNull
| JNaN
| JNum (r : R).

(** [ToBoolean] on a numeric field: only a non-zero number is truthy. *)
Definition truthy_num (v : jsval) : option R :=
  match v with
  | JNum r => if Req_dec_T r 0 then None else Some r
  | _ => None
  end.

Definition truthy (v : jsval) : bool :=
  match truthy_num v with Some _ => true | None => false end.

(** [v || d] for a numeric default [d]. *)
Definition or_default (v : jsval) (d : R) : R :=
  match truthy_num v with Some r => r | None => d end.

(** [isNaN(v)]: [Number(undefined)] is NaN, [Number(null)] is 0. *)
Definition isNaN (v : jsval) : bool :=
  match v with
  | JUndefined | JNaN => true
  | JNull | JNum _ => false
  end.

(** [v !== null]. *)
Definition not_null (v : jsval) : bool :=
  match v with JNull => false | _ => true end.

(** [Math.floor]. *)
Definition floor (x : R) : R := IZR (Int_part x).

(** Truncation towards zero, and the [%] operator on numbers. *)
Definition trunc (x : R) : R :=
  if Rle_dec 0 x then floor x else (- floor (- x))%R.

Definition rem (x y : R) : R := (x - y * trunc (x / y))%R.

Inductive js_error : Type :=
| TypeError
| RangeError
| SyntaxError
| InvalidStateError.

Inductive result (A : Type) : Type :=
| Return (a : A)
| Throw (e : js_error).
Arguments Return {A} a.
Arguments Throw {A} e.

Definition bind {A B} (m : result A) (k : A -> result B) : result B :=
  match m with
  | Return a => k a
  | Throw e => Throw e
  end.

(** Reading a property of a value that may be [undefined]. *)
Definition prop_of {A} (o : option A) : result A :=
  match o with
  | Some a => Return a
  | None => Throw TypeError
  end.

(** [v.toFixed(n)]: a method call on [null] or [undefined] throws; the
    formatted text itself is not kept. *)
Definition toFixed (v : jsval) : result unit :=
  match v with
  | JUndefined | JNull => Throw TypeError
  | JNaN | JNum _ => Return tt
  end.

(** [s.split(sep)] for a one-character separator. *)
Fixpoint split (sep : ascii) (s : string) : list string :=
  match s with
  | EmptyString => [EmptyString]
  | String c rest =>
      if Ascii.eqb c sep then EmptyString :: split sep rest
      else match split sep rest with
           | [] => [String c EmptyString]
           | hd :: tl => String c hd :: tl
           end
  end.

(** [new Array(n).fill(v)]. *)
Definition Array_fill {A} (n : nat) (v : A) : list A := repeat v n.

(** [a[i] = v] for an index inside the array. *)
Fixpoint assign {A} (a : list A) (i : nat) (v : A) : list A :=
  match a, i with
  | [], _ => []
  | _ :: tl, O => v :: tl
  | hd :: tl, S j => hd :: assign tl j v
  end.

(** Code that updates a state [S] and may throw: the state reached when
    the exception is raised is the one the [catch] block starts from. *)
Definition eff (S A : Type) : Type := S -> result A * S.

Definition ret {S A} (a : A) : eff S A := fun s => (Return a, s).

Definition lift {S A} (r : result A) : eff S A := fun s => (r, s).

Definition modify {S} (f : S -> S) : eff S unit := fun s => (Return tt, f s).

Definition ebind {S A B} (m : eff S A) (k : A -> eff S B) : eff S B :=
  fun s =>
    match m s with
    | (Return a, s') => k a s'
    | (Throw e, s') => (Throw e, s')
    end.

(** [try { m } catch (e) { handler e }]. *)
Definition try_catch {S A} (m : eff S A) (handler : js_error -> eff S A)
  : eff S A :=
  fun s =>
    match m s with
    | (Return a, s') => (Return a, s')
    | (Throw e, s') => handler e s'
    end.

(** [JSON.parse(message)]; the parsed value is [None] when the text is
    not JSON. *)
Definition JSON_parse {A} (parsed : option A) : result A :=
  match parsed with
  | Some a => Return a
  | None => Throw SyntaxError
  end.

End Js.

Declare Scope js_scope.
Delimit Scope js_scope with js.
Notation "x <- m ;; k" := (Js.bind m (fun x => k))
  (at level 61, m at next level, right associativity) : js_scope.
Notation "m ;;; k" := (Js.bind m (fun _ => k))
  (at level 61, right associativity) : js_scope.

Declare Scope eff_scope.
Delimit Scope eff_scope with eff.
Notation "x <- m ;; k" := (Js.ebind m (fun x => k))
  (at level 61, m at next level, right associativity) : eff_scope.
Notation "m ;;; k" := (Js.ebind m (fun _ => k))
  (at level 61, right associativity) : eff_scope.

(* ================================================================== *)
(** ** The logger                                                      *)
(* ================================================================== *)

Module Logger.

Inductive level : Type := INFO | WARN | ERROR | SUCCESS | DEBUG | HEADER.

(** One call of the logger: level, component tag and the fixed part of
    the message.  A [DEBUG] call prints only when debug logging is
    enabled; the call is recorded either way. *)
Record entry : Type := Entry { lvl : level; tag : string; text : string }.

Definition info (t m : string) : entry := Entry INFO t m.
Definition warn (t m : string) : entry := Entry WARN t m.
Definition error (t m : string) : entry := Entry ERROR t m.
Definition success (t m : string) : entry := Entry SUCCESS t m.
Definition debug (t m : string) : entry := Entry DEBUG t m.

(** [Logger.drawHeader(title)]. *)
Definition drawHeader (title : string) : entry := Entry HEADER "" title.

End Logger.

(* ================================================================== *)
(** ** WebSocket objects                                               *)
(* ================================================================== *)

Module WebSocket.

Inductive readyState : Type := CONNECTING | OPEN | CLOSING | CLOSED.

Definition is_open (s : readyState) : bool :=
  match s with OPEN => true | _ => false end.

(** The outcome of [JSON.stringify] on an object literal, kept as a tree. *)
Unset Elimination Schemes.
Inductive json : Type :=
| JStr (s : string)
| JVal (v : Js.jsval)
| JBool (b : bool)
| JObj (fields : list (string * json)).
Set Elimination Schemes.

(** What travels in one message of a channel. *)
Inductive frame : Type :=
| Text (s : string)
| Binary (b : list byte)
| Stringified (j : json).

End WebSocket.

(** Server side: a member of [wss.clients] of the [ws] library.  Such a
    socket exists only once its handshake is done, so it is never
    [CONNECTING]; [delivered] lists what has been sent to that browser. *)
Module ws.
Import WebSocket.

Record client : Type := {
  readyState : WebSocket.readyState;
  delivered : list frame
}.

(** [client.send(data)]. *)
Definition send (c : client) (f : frame) : client :=
  if is_open (readyState c)
  then {| readyState := readyState c; delivered := delivered c ++ [f] |}
  else c.

(** [client.close()]: starts the closing handshake. *)
Definition close (c : client) : client :=
  match readyState c with
  | CLOSED => c
  | _ => {| readyState := CLOSING; delivered := delivered c |}
  end.

(** [wss.clients.forEach(f)], where [f] may update the client it is
    given and a local variable of the enclosing function. *)
Fixpoint forEach {S : Type} (clients : list client)
    (f : client -> S -> client * S) (s : S) : list client * S :=
  match clients with
  | [] => ([], s)
  | c :: rest =>
      let '(c', s') := f c s in
      let '(rest', s'') := forEach rest f s' in
      (c' :: rest', s'')
  end.

End ws.

(** Browser side: the standard [WebSocket] object.  [send] throws while
    the socket is connecting, transmits when it is open, and otherwise
    discards the data (only [bufferedAmount] grows); [discarded] lists
    the frames so dropped. *)
Module BrowserWebSocket.
Import WebSocket Js.

Record socket : Type := {
  readyState : WebSocket.readyState;
  sent : list frame;
  discarded : list frame
}.

Definition fresh : socket :=
  {| readyState := CONNECTING; sent := []; discarded := [] |}.

Definition send (w : socket) (f : frame) : result socket :=
  match readyState w with
  | CONNECTING => Throw InvalidStateError
  | OPEN => Return {| readyState := OPEN; sent := sent w ++ [f];
                      discarded := discarded w |}
  | st => Return {| readyState := st; sent := sent w;
                    discarded := discarded w ++ [f] |}
  end.

(** [ws.close()]: starts the closing handshake unless it is under way
    or over. *)
Definition close (w : socket) : socket :=
  match readyState w with
  | CLOSING | CLOSED => w
  | _ => {| readyState := CLOSING; sent := sent w; discarded := discarded w |}
  end.

(** The heap of socket objects of a page; a variable such as [imuWs]
    or [this.ws] holds an index into it (or [null]). *)
Definition heap : Type := list socket.
Definition ref : Type := option nat.

Definition deref (h : heap) (r : ref) : option socket :=
  match r with
  | Some i => nth_error h i
  | None => None
  end.

Definition store (h : heap) (i : nat) (w : socket) : heap := assign h i w.

(** [new WebSocket(url)]. *)
Definition new (h : heap) : heap * nat := (h ++ [fresh], List.length h).

(** [r.close()] on the socket a variable holds; nothing when it is
    [null]. *)
Definition close_ref (h : heap) (r : ref) : heap :=
  match r, deref h r with
  | Some i, Some w => store h i (close w)
  | _, _ => h
  end.

(** The guard every producer puts before [send]:
    [ws && ws.readyState === WebSocket.OPEN]. *)
Definition is_open_ref (h : heap) (r : ref) : bool :=
  match deref h r with
  | Some w => is_open (readyState w)
  | None => false
  end.

(** [r.send(f)] on the socket a variable holds. *)
Definition send_ref (h : heap) (r : ref) (f : frame) : result heap :=
  match r, deref h r with
  | Some i, Some w => (w' <- send w f ;; Return (store h i w'))%js
  | _, _ => Throw TypeError
  end.

End BrowserWebSocket.

(* ================================================================== *)
(** ** Promises and timers on a virtual clock                          *)
(* ================================================================== *)

(** Time is counted in milliseconds on the clock of the event loop;
    synchronous code takes no time.  No promise of the shutdown path is
    ever rejected, so a promise is the time at which it is resolved, or
    [None] when it stays pending for ever. *)
Module Promise.

Definition promise : Type := option Z.

(** [new Promise(resolve => setTimeout(resolve, delay))] created at
    [now]. *)
Definition after (now delay : Z) : promise := Some (now + delay)%Z.

(** [Promise.race([p, q])]. *)
Definition race (p q : promise) : promise :=
  match p, q with
  | Some a, Some b => Some (Z.min a b)
  | Some a, None => Some a
  | None, Some b => Some b
  | None, None => None
  end.

(** [await p] entered at [now]: the time at which the function goes on,
    if it ever does. *)
Definition await (p : promise) (now : Z) : option Z :=
  match p with
  | Some t => Some (Z.max now t)
  | None => None
  end.

(** Logger calls with the time at which they happen. *)
Definition timeline : Type := list (Z * Logger.entry).

End Promise.

(* ================================================================== *)
(** ** server/ros_interface.js: publishers and wire messages           *)
(* ================================================================== *)

Module ros_interface.
Import Js.
Local Open Scope R_scope.

Record Quaternion : Type := { qx : R; qy : R; qz : R; qw : R }.

(** [eulerToQuaternion(roll, pitch, yaw)], angles in degrees. *)
Definition eulerToQuaternion (roll pitch yaw : R) : Quaternion :=
  let roll := roll * PI / 180 in
  let pitch := pitch * PI / 180 in
  let yaw := yaw * PI / 180 in
  let cy := cos (yaw * 0.5) in
  let sy := sin (yaw * 0.5) in
  let cp := cos (pitch * 0.5) in
  let sp := sin (pitch * 0.5) in
  let cr := cos (roll * 0.5) in
  let sr := sin (roll * 0.5) in
  let w := cr * cp * cy + sr * sp * sy in
  let x := sr * cp * cy - cr * sp * sy in
  let y := cr * sp * cy + sr * cp * sy in
  let z := cr * cp * sy - sr * sp * cy in
  {| qx := x; qy := y; qz := z; qw := w |}.

(** The module-level [publishers] object: a field is [true] once
    [initRos] has created that publisher, [false] while it is [null]. *)
Record Publishers : Type := {
  compressed : bool;
  cameraInfo : bool;
  pose : bool;
  microphone : bool;
  imu : bool;
  gps : bool
}.

Definition no_publishers : Publishers :=
  {| compressed := false; cameraInfo := false; pose := false;
     microphone := false; imu := false; gps := false |}.

Definition all_publishers : Publishers :=
  {| compressed := true; cameraInfo := true; pose := true;
     microphone := true; imu := true; gps := true |}.

Record Time : Type := { sec : R; nanosec : R }.
Record Header : Type := { stamp : Time; frame_id : string }.
Record Vector3 : Type := { x : R; y : R; z : R }.

Record CompressedImage : Type := {
  img_header : Header;
  format : string;
  data : list Z
}.

Record RegionOfInterest : Type := {
  x_offset : R; y_offset : R; roi_height : R; roi_width : R;
  do_rectify : bool
}.

Record CameraInfo : Type := {
  info_header : Header;
  height : R;
  width : R;
  distortion_model : string;
  d : list R;
  k : list R;
  r : list R;
  p : list R;
  binning_x : R;
  binning_y : R;
  roi : RegionOfInterest
}.

Record Imu : Type := {
  imu_header : Header;
  linear_acceleration : Vector3;
  angular_velocity : Vector3;
  orientation : Quaternion;
  orientation_covariance : list R;
  angular_velocity_covariance : list R;
  linear_acceleration_covariance : list R
}.

Record NavSatStatus : Type := { status : Z; service : Z }.

Record NavSatFix : Type := {
  fix_header : Header;
  fix_status : NavSatStatus;
  latitude : R;
  longitude : R;
  altitude : R;
  position_covariance : list R;
  position_covariance_type : Z
}.

(** What a publisher hands to the bus; the constructor is the topic. *)
Inductive published : Type :=
| On_camera_image_raw_compressed (m : CompressedImage)
| On_camera_camera_info (m : CameraInfo)
| On_mobile_sensor_imu (m : Imu)
| On_mobile_sensor_gps (m : NavSatFix).

(** The ROS side of the process: the publishers and, in publication
    order, everything published so far. *)
Record node : Type := { publishers : Publishers; bus : list published }.

Definition publish (st : node) (m : published) : node :=
  {| publishers := publishers st; bus := bus st ++ [m] |}.

(** [timestamp || { sec: Math.floor(Date.now() / 1000),
                    nanosec: (Date.now() % 1000) * 1000000 }];
    [now] holds the two clock readings. *)
Definition stamp_or_now (timestamp : option Time) (now : R * R) : Time :=
  match timestamp with
  | Some t => t
  | None => {| sec := floor (fst now / 1000);
               nanosec := rem (snd now) 1000 * 1000000 |}
  end.

(** [Array.from(imageBuffer)]: the bytes as an array of numbers. *)
Definition Array_from (buffer : list byte) : list Z :=
  map byte.unsigned buffer.

Definition publishCameraData (st : node) (imageBuffer : list byte)
    (width height : R) (timestamp : option Time) (now : R * R)
  : bool * node :=
  if negb (compressed (publishers st)) || negb (cameraInfo (publishers st))
  then (false, st)
  else
    let header := {| stamp := stamp_or_now timestamp now;
                     frame_id := "camera_frame" |} in
    let compressedMsg :=
      {| img_header := header;
         format := "jpeg";
         data := Array_from imageBuffer |} in
    let st := publish st (On_camera_image_raw_compressed compressedMsg) in
    let cameraInfoMsg :=
      {| info_header := header;
         height := height;
         width := width;
         distortion_model := "plumb_bob";
         d := [0; 0; 0; 0; 0];
         k := [width; 0; width / 2;
               0; height; height / 2;
               0; 0; 1];
         r := [1; 0; 0;
               0; 1; 0;
               0; 0; 1];
         p := [width; 0; width / 2; 0;
               0; height; height / 2; 0;
               0; 0; 1; 0];
         binning_x := 0;
         binning_y := 0;
         roi := {| x_offset := 0; y_offset := 0;
                   roi_height := height; roi_width := width;
                   do_rectify := false |} |} in
    let st := publish st (On_camera_camera_info cameraInfoMsg) in
    (true, st).

(** The [imu] object of an IMU channel message. *)
Record Accelerometer : Type := { acc_x : jsval; acc_y : jsval; acc_z : jsval }.
Record Gyroscope : Type := { alpha : jsval; beta : jsval; gamma : jsval }.
Record Magnetometer : Type := {
  heading : jsval; mag_x : jsval; mag_y : jsval; mag_z : jsval
}.
Record ImuData : Type := {
  imu_timestamp : jsval;
  accelerometer : option Accelerometer;
  gyroscope : option Gyroscope;
  magnetometer : option Magnetometer
}.

Definition publishIMUData (st : node) (imuData : ImuData)
    (timestamp : option Time) (now : R * R) : result (bool * node) :=
  if negb (imu (publishers st)) then Return (false, st)
  else
    let header := {| stamp := stamp_or_now timestamp now;
                     frame_id := "imu_frame" |} in
    (mag <- prop_of (magnetometer imuData) ;;
     let q := eulerToQuaternion 0 0 (or_default (mag_z mag) 0) in
     acc <- prop_of (accelerometer imuData) ;;
     gyr <- prop_of (gyroscope imuData) ;;
     let imuMsg :=
       {| imu_header := header;
          linear_acceleration :=
            {| x := or_default (acc_x acc) 0;
               y := or_default (acc_y acc) 0;
               z := or_default (acc_z acc) 0 |};
          angular_velocity :=
            {| x := or_default (beta gyr) 0;
               y := or_default (alpha gyr) 0;
               z := or_default (gamma gyr) 0 |};
          orientation :=
            {| qx := qx q; qy := qy q; qz := qz q; qw := qw q |};
          orientation_covariance := Array_fill 9 (-1);
          angular_velocity_covariance := Array_fill 9 (-1);
          linear_acceleration_covariance := Array_fill 9 (-1) |} in
     Return (true, publish st (On_mobile_sensor_imu imuMsg)))%js.

(** The [gps] object of a GPS channel message. *)
Record GpsData : Type := {
  gps_latitude : jsval;
  gps_longitude : jsval;
  gps_altitude : jsval;
  gps_accuracy : jsval;
  gps_heading : jsval;
  gps_speed : jsval;
  gps_timestamp : jsval
}.

Definition publishGPSData (st : node) (gpsData : GpsData)
    (timestamp : option Time) (now : R * R) : bool * node :=
  if negb (gps (publishers st)) then (false, st)
  else
    let header := {| stamp := stamp_or_now timestamp now;
                     frame_id := "gps_frame" |} in
    let altitude :=
      if not_null (gps_altitude gpsData) && negb (isNaN (gps_altitude gpsData))
      then match gps_altitude gpsData with JNum a => a | _ => 0 end
      else 0 in
    let accuracy := or_default (gps_accuracy gpsData) 1 in
    let variance := accuracy * accuracy in
    let positionCovariance := Array_fill 9 0 in
    let positionCovariance := assign positionCovariance 0 variance in
    let positionCovariance := assign positionCovariance 4 variance in
    let positionCovariance := assign positionCovariance 8 variance in
    let navSatFixMsg :=
      {| fix_header := header;
         fix_status := {| status := 0; service := 1 |};
         latitude := or_default (gps_latitude gpsData) 0;
         longitude := or_default (gps_longitude gpsData) 0;
         altitude := altitude;
         position_covariance := positionCovariance;
         position_covariance_type := 2 |} in
    (true, publish st (On_mobile_sensor_gps navSatFixMsg)).

(** *** [initRos]: the bus-to-browser subscriptions.

    Each callback receives the message field [msg.data] and the client set
    of the channel it feeds ([wssTTS.clients], [wssWavAudio.clients]), and
    returns that set after the sends together with the logger calls. *)

(** The first loop of the text callback: the value of
    [activeClientCount] when it is logged. *)
Definition activeClientCount (wssTTS : list ws.client) : nat :=
  snd (ws.forEach wssTTS
         (fun client count =>
            if WebSocket.is_open (ws.readyState client)
            then (client, S count)
            else (client, count)) O).

(** Callback of the [mobile_sensor/tts] subscription. *)
Definition on_mobile_sensor_tts (msg_data : string) (wssTTS : list ws.client)
  : list ws.client * list Logger.entry :=
  let log1 := Logger.info "ROS" "Received TTS message" in
  let activeClientCount := activeClientCount wssTTS in
  let log2 := Logger.debug "ROS" "TTS clients connected" in
  let '(wssTTS, _) :=
    ws.forEach wssTTS
      (fun client (u : unit) =>
         if WebSocket.is_open (ws.readyState client)
         then (ws.send client (WebSocket.Text msg_data), u)
         else (client, u)) tt in
  (wssTTS, [log1; log2]).

(** [Buffer.from(msg.data)] on the [Uint8Array] of a [UInt8MultiArray]:
    a copy of the same bytes. *)
Definition Buffer_from (data : list byte) : list byte := data.

(** [buffer[i] === n]. *)
Definition byte_is (buffer : list byte) (i : nat) (n : Z) : bool :=
  match nth_error buffer i with
  | Some b => Z.eqb (byte.unsigned b) n
  | None => false
  end.

(** The [hasWavHeader] expression of both audio callbacks. *)
Definition hasWavHeader (buffer : list byte) : bool :=
  Nat.leb 12 (List.length buffer) &&
  byte_is buffer 0 82 && byte_is buffer 1 73 &&
  byte_is buffer 2 70 && byte_is buffer 3 70 &&
  byte_is buffer 8 87 && byte_is buffer 9 65 &&
  byte_is buffer 10 86 && byte_is buffer 11 69.

(** The loop shared by the two audio callbacks. *)
Definition send_to_open_clients (buffer : list byte)
    (wssWavAudio : list ws.client) : list ws.client * nat :=
  ws.forEach wssWavAudio
    (fun client clientCount =>
       if WebSocket.is_open (ws.readyState client)
       then (ws.send client (WebSocket.Binary buffer), S clientCount)
       else (client, clientCount)) O.

(** Callback of the [mobile_sensor/tts_wav] subscription. *)
Definition on_mobile_sensor_tts_wav (msg_data : list byte)
    (wssWavAudio : list ws.client) : list ws.client * list Logger.entry :=
  let buffer := Buffer_from msg_data in
  let hasWavHeader := hasWavHeader buffer in
  let '(wssWavAudio, clientCount) := send_to_open_clients buffer wssWavAudio in
  (wssWavAudio,
   if Nat.ltb 0 clientCount
   then [Logger.debug "ROS" "Forwarded WAV audio"]
   else []).

(** Callback of the [mobile_sensor/wav_bytes] subscription, kept for
    backward compatibility. *)
Definition on_mobile_sensor_wav_bytes (msg_data : list byte)
    (wssWavAudio : list ws.client) : list ws.client * list Logger.entry :=
  let buffer := Buffer_from msg_data in
  let hasWavHeader := hasWavHeader buffer in
  let '(wssWavAudio, clientCount) := send_to_open_clients buffer wssWavAudio in
  (wssWavAudio,
   if Nat.ltb 0 clientCount
   then [Logger.debug "ROS"
           (if hasWavHeader
            then "Forwarded WAV audio, WAV header: present"
            else "Forwarded WAV audio, WAV header: absent")]
   else []).

(** *** [shutdown]

    [rclnodejs_isShutdown] is what [rclnodejs.isShutdown()] answers,
    [rosNode] whether the node variable is set and [rcl_throws] whether
    [rclnodejs.shutdown()] throws.  The promise is resolved inside its
    own executor, at the time of the call. *)
Definition shutdown (now : Z)
    (rclnodejs_isShutdown rosNode rcl_throws : bool) (st : node)
  : Promise.promise * node * Promise.timeline :=
  let log0 := [(now, Logger.info "ROS" "Shutting down ROS2 node...")] in
  if negb rclnodejs_isShutdown
  then
    let st := if rosNode
              then {| publishers := no_publishers; bus := bus st |}
              else st in
    if rcl_throws
    then (Some now, st,
          log0 ++ [(now, Logger.error "ROS" "Error during ROS2 shutdown")])
    else (Some now, st,
          log0 ++ [(now, Logger.success "ROS"
                           "ROS2 node shut down successfully")])
  else (Some now, st,
        log0 ++ [(now, Logger.info "ROS" "ROS2 already shut down")]).

End ros_interface.

(* ================================================================== *)
(** ** server/websocket_handlers.js                                    *)
(* ================================================================== *)

Module websocket_handlers.
Import Js.
Local Open Scope R_scope.

(** The server process as the message handlers see it. *)
Record server : Type := {
  node : ros_interface.node;
  log : list Logger.entry
}.

(** A call of the logger. *)
Definition Logger_call (e : Logger.entry) : eff server unit :=
  modify (fun srv => {| node := node srv; log := log srv ++ [e] |}).

(** A call into [rosInterface]; its return value is dropped by every
    handler. *)
Definition rosInterface_call {A}
    (f : ros_interface.node -> result (A * ros_interface.node))
  : eff server unit :=
  fun srv =>
    match f (node srv) with
    | Return (_, st) => (Return tt, {| node := st; log := log srv |})
    | Throw e => (Throw e, srv)
    end.

(** The stamp every handler derives from the sample's own [timestamp]
    (milliseconds), or from the clock when that field is falsy:
    [{ sec: Math.floor(t ? t / 1000 : Date.now() / 1000),
       nanosec: (t ? t % 1000 : Date.now() % 1000) * 1000000 }]. *)
Definition stamp_of (timestamp : jsval) (now : R * R) : ros_interface.Time :=
  {| ros_interface.sec :=
       floor (match truthy_num timestamp with
              | Some t => t / 1000
              | None => fst now / 1000
              end);
     ros_interface.nanosec :=
       (match truthy_num timestamp with
        | Some t => rem t 1000
        | None => rem (snd now) 1000
        end) * 1000000 |}.

(** *** Camera channel *)

(** A parsed camera message: [{ timestamp, camera, width, height }]. *)
Record CameraMessage : Type := {
  camera : option string;
  cam_width : jsval;
  cam_height : jsval;
  cam_timestamp : jsval
}.

Section Camera.

(** [Buffer.from(s, 'base64')] on a string, provided by the runtime. *)
Variable base64 : string -> list byte.

(** [Buffer.from(base64Data, 'base64')], where [base64Data] may be
    [undefined]. *)
Definition Buffer_from_base64 (base64Data : option string)
  : result (list byte) :=
  match base64Data with
  | Some s => Return (base64 s)
  | None => Throw TypeError
  end.

(** The [message] handler installed by [setupCameraHandlers]; [parsed]
    is [None] when the message is not JSON. *)
Definition setupCameraHandlers_onmessage (parsed : option CameraMessage)
    (now : R * R) : eff server unit :=
  try_catch
    (data <- lift (JSON_parse parsed) ;;
     match camera data with
     | None | Some EmptyString => ret tt
     | Some payload =>
         try_catch
           (let base64Data := nth_error (split ","%char payload) 1 in
            imageBuffer <- lift (Buffer_from_base64 base64Data) ;;
            let width := or_default (cam_width data) 640 in
            let height := or_default (cam_height data) 480 in
            let stamp := stamp_of (cam_timestamp data) now in
            rosInterface_call
              (fun st => Return (ros_interface.publishCameraData
                                   st imageBuffer width height
                                   (Some stamp) now)))
           (fun error =>
              Logger_call
                (Logger.error "ROS" "Error publishing camera data to ROS2"))
     end)%eff
    (fun err =>
       Logger_call (Logger.error "ROS" "Error processing camera message")).

End Camera.

(** *** IMU channel *)

(** The [message] handler installed by [setupIMUHandlers]; [parsed] is
    the [imu] field of the parsed message ([Some None] when the field is
    missing), or [None] when the message is not JSON. *)
Definition setupIMUHandlers_onmessage
    (parsed : option (option ros_interface.ImuData)) (now : R * R)
  : eff server unit :=
  try_catch
    (data_imu <- lift (JSON_parse parsed) ;;
     match data_imu with
     | None => ret tt
     | Some imu =>
         acc <- lift (prop_of (ros_interface.accelerometer imu)) ;;
         lift (toFixed (ros_interface.acc_x acc)) ;;;
         lift (toFixed (ros_interface.acc_y acc)) ;;;
         lift (toFixed (ros_interface.acc_z acc)) ;;;
         Logger_call (Logger.debug "IMU" "Accelerometer") ;;;
         gyr <- lift (prop_of (ros_interface.gyroscope imu)) ;;
         lift (toFixed (ros_interface.alpha gyr)) ;;;
         lift (toFixed (ros_interface.beta gyr)) ;;;
         lift (toFixed (ros_interface.gamma gyr)) ;;;
         Logger_call (Logger.debug "IMU" "Gyroscope") ;;;
         let stamp := stamp_of (ros_interface.imu_timestamp imu) now in
         rosInterface_call
           (fun st => ros_interface.publishIMUData st imu (Some stamp) now)
     end)%eff
    (fun err =>
       Logger_call (Logger.error "ROS" "Error processing IMU message")).

(** *** GPS channel *)

(** [v?.toFixed(n)]: nothing is called on [null] or [undefined]. *)
Definition toFixed_optional (v : jsval) : result unit := Return tt.

(** The [message] handler installed by [setupGPSHandlers]; [parsed] is
    the [gps] field of the parsed message. *)
Definition setupGPSHandlers_onmessage
    (parsed : option (option ros_interface.GpsData)) (now : R * R)
  : eff server unit :=
  try_catch
    (data_gps <- lift (JSON_parse parsed) ;;
     match data_gps with
     | None => ret tt
     | Some gps =>
         lift (toFixed (ros_interface.gps_latitude gps)) ;;;
         lift (toFixed (ros_interface.gps_longitude gps)) ;;;
         lift (toFixed (ros_interface.gps_altitude gps)) ;;;
         Logger_call (Logger.debug "GPS" "Location") ;;;
         (if truthy (ros_interface.gps_accuracy gps)
          then
            lift (toFixed (ros_interface.gps_accuracy gps)) ;;;
            lift (toFixed_optional (ros_interface.gps_heading gps)) ;;;
            lift (toFixed_optional (ros_interface.gps_speed gps)) ;;;
            Logger_call (Logger.debug "GPS" "Accuracy")
          else ret tt) ;;;
         let stamp := stamp_of (ros_interface.gps_timestamp gps) now in
         rosInterface_call
           (fun st => Return (ros_interface.publishGPSData
                                st gps (Some stamp) now))
     end)%eff
    (fun err =>
       Logger_call (Logger.error "ROS" "Error processing GPS message")).

(** *** Channels fed from the bus *)

(** The seven socket servers of the [servers] object, each with its
    [clients] set. *)
Record servers : Type := {
  pose : list ws.client;
  camera_clients : list ws.client;
  tts : list ws.client;
  microphone : list ws.client;
  wavAudio : list ws.client;
  imu : list ws.client;
  gps : list ws.client
}.

(** The [connection] handler of the [/tts] channel: the new socket joins
    the client set and is greeted. *)
Definition setupTTSHandlers_onconnection (wssTTS : list ws.client)
  : list ws.client :=
  let ws := {| ws.readyState := WebSocket.OPEN; ws.delivered := [] |} in
  wssTTS ++ [ws.send ws (WebSocket.Text "TTS system ready")].

(** The [connection] handler of the [/wav_audio] channel. *)
Definition setupWavAudioHandlers_onconnection (wssWavAudio : list ws.client)
  : list ws.client :=
  let ws := {| ws.readyState := WebSocket.OPEN; ws.delivered := [] |} in
  wssWavAudio ++
  [ws.send ws
     (WebSocket.Stringified
        (WebSocket.JObj
           [("status"%string, WebSocket.JStr "connected");
            ("message"%string, WebSocket.JStr "Ready to receive audio data");
            ("sessionState"%string, WebSocket.JStr "active")]))].

(** [closeAllConnections]: [close()] on every open client of every
    server. *)
Definition close_open_clients (clients : list ws.client) : list ws.client :=
  fst (ws.forEach clients
         (fun client (u : unit) =>
            if WebSocket.is_open (ws.readyState client)
            then (ws.close client, u)
            else (client, u)) tt).

Definition closeAllConnections (s : servers)
  : servers * list Logger.entry :=
  ({| pose := close_open_clients (pose s);
      camera_clients := close_open_clients (camera_clients s);
      tts := close_open_clients (tts s);
      microphone := close_open_clients (microphone s);
      wavAudio := close_open_clients (wavAudio s);
      imu := close_open_clients (imu s);
      gps := close_open_clients (gps s) |},
   [Logger.info "APP" "All ROS sensor nodes deactivated"]).

End websocket_handlers.

(* ================================================================== *)
(** ** DataView over an ArrayBuffer                                    *)
(* ================================================================== *)

Module DataView.
Import Js.

(** [new ArrayBuffer(n)]: [n] zero bytes. *)
Definition ArrayBuffer (n : nat) : list byte := repeat Byte.x00 n.

(** Storing [bytes] from [byteOffset] on; outside the buffer the
    setters throw a [RangeError]. *)
Definition write (buffer : list byte) (byteOffset : nat) (bytes : list byte)
  : result (list byte) :=
  if Nat.leb (byteOffset + List.length bytes) (List.length buffer)
  then Return (firstn byteOffset buffer ++ bytes ++
               skipn (byteOffset + List.length bytes) buffer)
  else Throw RangeError.

(** [view.setUint8(byteOffset, value)]. *)
Definition setUint8 (buffer : list byte) (byteOffset : nat) (value : Z)
  : result (list byte) :=
  write buffer byteOffset (le_split 1 value).

(** [view.setUint16(byteOffset, value, true)]: little-endian. *)
Definition setUint16 (buffer : list byte) (byteOffset : nat) (value : Z)
  : result (list byte) :=
  write buffer byteOffset (le_split 2 value).

(** [view.setUint32(byteOffset, value, true)]: little-endian. *)
Definition setUint32 (buffer : list byte) (byteOffset : nat) (value : Z)
  : result (list byte) :=
  write buffer byteOffset (le_split 4 value).

(** [view.getUint16(byteOffset, true)] and [view.getUint32(byteOffset,
    true)]. *)
Definition getUint (width : nat) (buffer : list byte) (byteOffset : nat)
  : result Z :=
  if Nat.leb (byteOffset + width) (List.length buffer)
  then Return (le_combine (firstn width (skipn byteOffset buffer)))
  else Throw RangeError.

Definition getUint16 := getUint 2.
Definition getUint32 := getUint 4.

(** ['c'.charCodeAt(0)]. *)
Definition charCodeAt0 (c : ascii) : Z := Z.of_N (N_of_ascii c).

End DataView.

(* ================================================================== *)
(** ** client/audioPlayer.js                                           *)
(* ================================================================== *)

Module audioPlayer.
Import Js WebSocket DataView.
Local Open Scope Z_scope.

(** [addWavHeader(audioData)]: 16-bit PCM, 48000 Hz, mono. *)
Definition addWavHeader (audioData : list byte) : result (list byte) :=
  let numChannels := 1 in
  let sampleRate := 48000 in
  let bitsPerSample := 16 in
  let dataSize := Z.of_nat (List.length audioData) in
  let blockAlign := numChannels * (bitsPerSample / 8) in
  let byteRate := sampleRate * blockAlign in
  let headerSize := 44%nat in
  let header := ArrayBuffer headerSize in
  (view <- setUint8 header 0 (charCodeAt0 "R") ;;
   view <- setUint8 view 1 (charCodeAt0 "I") ;;
   view <- setUint8 view 2 (charCodeAt0 "F") ;;
   view <- setUint8 view 3 (charCodeAt0 "F") ;;
   view <- setUint32 view 4 (36 + dataSize) ;;
   view <- setUint8 view 8 (charCodeAt0 "W") ;;
   view <- setUint8 view 9 (charCodeAt0 "A") ;;
   view <- setUint8 view 10 (charCodeAt0 "V") ;;
   view <- setUint8 view 11 (charCodeAt0 "E") ;;
   view <- setUint8 view 12 (charCodeAt0 "f") ;;
   view <- setUint8 view 13 (charCodeAt0 "m") ;;
   view <- setUint8 view 14 (charCodeAt0 "t") ;;
   view <- setUint8 view 15 (charCodeAt0 " ") ;;
   view <- setUint32 view 16 16 ;;
   view <- setUint16 view 20 1 ;;
   view <- setUint16 view 22 numChannels ;;
   view <- setUint32 view 24 sampleRate ;;
   view <- setUint32 view 28 byteRate ;;
   view <- setUint16 view 32 blockAlign ;;
   view <- setUint16 view 34 bitsPerSample ;;
   view <- setUint8 view 36 (charCodeAt0 "d") ;;
   view <- setUint8 view 37 (charCodeAt0 "a") ;;
   view <- setUint8 view 38 (charCodeAt0 "t") ;;
   view <- setUint8 view 39 (charCodeAt0 "a") ;;
   view <- setUint32 view 40 dataSize ;;
   let wavBuffer := view ++ audioData in
   Return wavBuffer)%js.

(** [headerView[i] === n] on the 12-byte view of the start of the data. *)
Definition headerView_is (headerView : list byte) (i : nat) (n : Z) : bool :=
  match nth_error headerView i with
  | Some b => Z.eqb (byte.unsigned b) n
  | None => false
  end.

(** The first part of [processAudioData]: the value of [processedData]
    when the platform branch is reached. *)
Definition processedData (audioData : list byte) : result (list byte) :=
  if Nat.leb 12 (List.length audioData)
  then
    let headerView := firstn 12 audioData in
    let isRiff := headerView_is headerView 0 82 && headerView_is headerView 1 73 &&
                  headerView_is headerView 2 70 && headerView_is headerView 3 70 in
    let isWave := headerView_is headerView 8 87 && headerView_is headerView 9 65 &&
                  headerView_is headerView 10 86 && headerView_is headerView 11 69 in
    if negb (isRiff && isWave)
    then addWavHeader audioData
    else Return audioData
  else addWavHeader audioData.

(** An [<audio>] element as far as [processAudioData] reads it. *)
Record audio_element : Type := {
  dataset_available : bool;
  currentTime_positive : bool;
  paused : bool;
  ended : bool
}.

(** A buffer handed to one of the two playback routines. *)
Inductive playback_call : Type :=
| playAudioWithWebAudio (audioData : list byte)
| playAudioData (audioData : list byte).

(** The only function this module passes to [setTimeout]. *)
Inductive callback : Type := Callback_connectWebSocket.

(** The variables of the module closure, the sockets of the page and
    the pending timers (delay in milliseconds and callback). *)
Record state : Type := {
  audioConfig_mode : string;
  audioConfig_enabled : bool;
  ws : BrowserWebSocket.ref;
  autoReconnect : bool;
  audioElements : list audio_element;
  audioQueue : list (list byte);
  isPlaying : bool;
  isSessionActive : bool;
  isIOS : bool;
  ui_status : string;
  heap : BrowserWebSocket.heap;
  timers : list (Z * callback);
  playback : list playback_call;
  console_error : list string
}.

Definition with_ws (st : state) (r : BrowserWebSocket.ref)
    (h : BrowserWebSocket.heap) : state :=
  {| audioConfig_mode := audioConfig_mode st;
     audioConfig_enabled := audioConfig_enabled st;
     ws := r; autoReconnect := autoReconnect st;
     audioElements := audioElements st; audioQueue := audioQueue st;
     isPlaying := isPlaying st; isSessionActive := isSessionActive st;
     isIOS := isIOS st; ui_status := ui_status st; heap := h;
     timers := timers st; playback := playback st;
     console_error := console_error st |}.

Definition with_autoReconnect (st : state) (b : bool) : state :=
  {| audioConfig_mode := audioConfig_mode st;
     audioConfig_enabled := audioConfig_enabled st;
     ws := ws st; autoReconnect := b;
     audioElements := audioElements st; audioQueue := audioQueue st;
     isPlaying := isPlaying st; isSessionActive := isSessionActive st;
     isIOS := isIOS st; ui_status := ui_status st; heap := heap st;
     timers := timers st; playback := playback st;
     console_error := console_error st |}.

Definition with_audioQueue (st : state) (q : list (list byte)) : state :=
  {| audioConfig_mode := audioConfig_mode st;
     audioConfig_enabled := audioConfig_enabled st;
     ws := ws st; autoReconnect := autoReconnect st;
     audioElements := audioElements st; audioQueue := q;
     isPlaying := isPlaying st; isSessionActive := isSessionActive st;
     isIOS := isIOS st; ui_status := ui_status st; heap := heap st;
     timers := timers st; playback := playback st;
     console_error := console_error st |}.

Definition with_isSessionActive (st : state) (b : bool) : state :=
  {| audioConfig_mode := audioConfig_mode st;
     audioConfig_enabled := audioConfig_enabled st;
     ws := ws st; autoReconnect := autoReconnect st;
     audioElements := audioElements st; audioQueue := audioQueue st;
     isPlaying := isPlaying st; isSessionActive := b;
     isIOS := isIOS st; ui_status := ui_status st; heap := heap st;
     timers := timers st; playback := playback st;
     console_error := console_error st |}.

Definition with_ui_status (st : state) (s : string) : state :=
  {| audioConfig_mode := audioConfig_mode st;
     audioConfig_enabled := audioConfig_enabled st;
     ws := ws st; autoReconnect := autoReconnect st;
     audioElements := audioElements st; audioQueue := audioQueue st;
     isPlaying := isPlaying st; isSessionActive := isSessionActive st;
     isIOS := isIOS st; ui_status := s; heap := heap st;
     timers := timers st; playback := playback st;
     console_error := console_error st |}.

Definition with_timers (st : state) (t : list (Z * callback)) : state :=
  {| audioConfig_mode := audioConfig_mode st;
     audioConfig_enabled := audioConfig_enabled st;
     ws := ws st; autoReconnect := autoReconnect st;
     audioElements := audioElements st; audioQueue := audioQueue st;
     isPlaying := isPlaying st; isSessionActive := isSessionActive st;
     isIOS := isIOS st; ui_status := ui_status st; heap := heap st;
     timers := t; playback := playback st;
     console_error := console_error st |}.

Definition with_playback (st : state) (p : list playback_call) : state :=
  {| audioConfig_mode := audioConfig_mode st;
     audioConfig_enabled := audioConfig_enabled st;
     ws := ws st; autoReconnect := autoReconnect st;
     audioElements := audioElements st; audioQueue := audioQueue st;
     isPlaying := isPlaying st; isSessionActive := isSessionActive st;
     isIOS := isIOS st; ui_status := ui_status st; heap := heap st;
     timers := timers st; playback := p;
     console_error := console_error st |}.

Definition with_console_error (st : state) (e : list string) : state :=
  {| audioConfig_mode := audioConfig_mode st;
     audioConfig_enabled := audioConfig_enabled st;
     ws := ws st; autoReconnect := autoReconnect st;
     audioElements := audioElements st; audioQueue := audioQueue st;
     isPlaying := isPlaying st; isSessionActive := isSessionActive st;
     isIOS := isIOS st; ui_status := ui_status st; heap := heap st;
     timers := timers st; playback := playback st;
     console_error := e |}.

(** [processAudioData(audioData)]: frame the data, then queue it or
    hand it to the playback routine of the platform. *)
Definition processAudioData (audioData : list byte) : eff state unit :=
  (processedData <- lift (processedData audioData) ;;
   modify (fun st =>
     if isIOS st
     then
       let currentlyPlaying := isPlaying st in
       if currentlyPlaying
       then with_audioQueue st (audioQueue st ++ [processedData])
       else with_playback st
              (playback st ++ [playAudioWithWebAudio processedData])
     else
       if Nat.eqb (List.length (audioElements st)) 0
       then with_console_error st
              (console_error st ++
               ["No audio elements created for playback"%string])
       else
         let currentlyPlaying :=
           existsb (fun audio =>
                      negb (dataset_available audio) &&
                      currentTime_positive audio &&
                      negb (paused audio) && negb (ended audio))
                   (audioElements st) in
         if currentlyPlaying
         then with_audioQueue st (audioQueue st ++ [processedData])
         else with_playback st (playback st ++ [playAudioData processedData])))%eff.

(** [jsonData.sessionState] of a parsed text message. *)
Definition sessionState_of (j : json) : option json :=
  match j with
  | JObj fields =>
      match find (fun kv => String.eqb (fst kv) "sessionState") fields with
      | Some kv => Some (snd kv)
      | None => None
      end
  | _ => None
  end.

(** The [onmessage] handler of the audio socket. *)
Definition ws_onmessage (event_data : frame) : eff state unit :=
  match event_data with
  | Text _ => ret tt
  | Stringified jsonData =>
      match sessionState_of jsonData with
      | Some v =>
          modify (fun st =>
            with_isSessionActive st
              (match v with
               | JStr s => String.eqb s "active"
               | _ => false
               end))
      | None => ret tt
      end
  | Binary audioData =>
      fun st =>
        if negb (isSessionActive st) then (Return tt, st)
        else processAudioData audioData st
  end.

(** [connectWebSocket()]. *)
Definition connectWebSocket (st : state) : state :=
  if negb (String.eqb (audioConfig_mode st) "wav") ||
     negb (audioConfig_enabled st)
  then st
  else
    match BrowserWebSocket.deref (heap st) (ws st) with
    | Some {| BrowserWebSocket.readyState := CONNECTING |}
    | Some {| BrowserWebSocket.readyState := OPEN |} => st
    | _ =>
        let st := with_ui_status st "connecting" in
        let '(h, i) := BrowserWebSocket.new (heap st) in
        with_ws st (Some i) h
    end.

(** The [onclose] handler of the audio socket. *)
Definition ws_onclose (st : state) : state :=
  let st := with_ui_status st "disconnected" in
  if autoReconnect st
  then with_timers st (timers st ++ [(3000%Z, Callback_connectWebSocket)])
  else st.

(** A timer of this module firing. *)
Definition run (cb : callback) (st : state) : state :=
  match cb with
  | Callback_connectWebSocket => connectWebSocket st
  end.

(** [disconnectWebSocket()]. *)
Definition disconnectWebSocket (st : state) : state :=
  let st := with_autoReconnect st false in
  match ws st with
  | Some _ => with_ws st None (BrowserWebSocket.close_ref (heap st) (ws st))
  | None => st
  end.

End audioPlayer.

(* ================================================================== *)
(** ** client: the sensor managers that send samples                   *)
(* ================================================================== *)

(** The IMU sensor manager. *)
Module IMUSensorManager.
Import Js WebSocket.

Record t : Type := {
  isActive : bool;
  ws : BrowserWebSocket.ref;
  websocket : BrowserWebSocket.ref;
  sampleRate : R;
  intervalId : option nat;
  accelerometerData : R * R * R;
  gyroscopeData : R * R * R;
  magnetometerData : R * R * R * R
}.

(** [new IMUSensorManager()]. *)
Definition constructor : t :=
  {| isActive := false; ws := None; websocket := None;
     sampleRate := 30%R; intervalId := None;
     accelerometerData := (0, 0, 0)%R;
     gyroscopeData := (0, 0, 0)%R;
     magnetometerData := (0, 0, 0, 0)%R |}.

Definition num (r : R) : json := JVal (JNum r).

(** The [payload] object of [sendSensorData]. *)
Definition payload (m : t) (timestamp : R) : json :=
  let '(ax, ay, az) := accelerometerData m in
  let '(alpha, beta, gamma) := gyroscopeData m in
  let '(mx, my, mz, heading) := magnetometerData m in
  JObj [("imu"%string,
         JObj [("timestamp"%string, num timestamp);
               ("accelerometer"%string,
                JObj [("x"%string, num ax); ("y"%string, num ay);
                      ("z"%string, num az)]);
               ("gyroscope"%string,
                JObj [("alpha"%string, num alpha); ("beta"%string, num beta);
                      ("gamma"%string, num gamma)]);
               ("magnetometer"%string,
                JObj [("heading"%string, num heading); ("x"%string, num mx);
                      ("y"%string, num my); ("z"%string, num mz)])])].

(** [this.ws || this.websocket]. *)
Definition ws_or_websocket (m : t) : BrowserWebSocket.ref :=
  match ws m with
  | Some i => Some i
  | None => websocket m
  end.

(** [sendSensorData()], run by the sampling interval; the state is the
    socket heap and the console. *)
Definition sendSensorData (m : t) (timestamp : R)
  : eff (BrowserWebSocket.heap * list string) unit :=
  fun st =>
    let '(h, console) := st in
    let socket := ws_or_websocket m in
    if negb (isActive m) || negb (BrowserWebSocket.is_open_ref h socket)
    then (Return tt, st)
    else
      match BrowserWebSocket.send_ref h socket
              (Stringified (payload m timestamp)) with
      | Return h' => (Return tt, (h', console))
      | Throw _ =>
          (Return tt, (h, console ++ ["Error sending IMU data"%string]))
      end.

(** [stopIMUSensor()]. *)
Definition stopIMUSensor (m : t) : t :=
  {| isActive := false; ws := ws m; websocket := websocket m;
     sampleRate := sampleRate m; intervalId := None;
     accelerometerData := accelerometerData m;
     gyroscopeData := gyroscopeData m;
     magnetometerData := magnetometerData m |}.

End IMUSensorManager.

(** The GPS sensor manager. *)
Module GPSSensorManager.
Import Js WebSocket.

Record gpsData_t : Type := {
  latitude : R; longitude : R; altitude : R; accuracy : R;
  heading : R; speed : R; timestamp : R
}.

Record t : Type := {
  isActive : bool;
  ws : BrowserWebSocket.ref;
  watchId : option nat;
  gpsData : gpsData_t
}.

(** [new GPSSensorManager()]. *)
Definition constructor : t :=
  {| isActive := false; ws := None; watchId := None;
     gpsData := {| latitude := 0; longitude := 0; altitude := 0;
                   accuracy := 0; heading := 0; speed := 0;
                   timestamp := 0 |} |}.

Definition num (r : R) : json := JVal (JNum r).

Definition payload (m : t) : json :=
  let g := gpsData m in
  JObj [("gps"%string,
         JObj [("latitude"%string, num (latitude g));
               ("longitude"%string, num (longitude g));
               ("altitude"%string, num (altitude g));
               ("accuracy"%string, num (accuracy g));
               ("heading"%string, num (heading g));
               ("speed"%string, num (speed g));
               ("timestamp"%string, num (timestamp g))])].

(** [sendGPSData()]. *)
Definition sendGPSData (m : t)
  : eff (BrowserWebSocket.heap * list string) unit :=
  fun st =>
    let '(h, console) := st in
    if negb (isActive m) || negb (BrowserWebSocket.is_open_ref h (ws m))
    then (Return tt, st)
    else
      match BrowserWebSocket.send_ref h (ws m) (Stringified (payload m)) with
      | Return h' => (Return tt, (h', console))
      | Throw _ =>
          (Return tt, (h, console ++ ["Error sending GPS data"%string]))
      end.

(** [stopGPSSensor()]. *)
Definition stopGPSSensor (m : t) : t :=
  {| isActive := false; ws := ws m; watchId := None; gpsData := gpsData m |}.

End GPSSensorManager.

(** The two camera managers: what one captured frame does to the socket
    it was started with. *)
Module CameraManager.
Import Js WebSocket.

Definition num (r : R) : json := JVal (JNum r).

(** The message both managers send for a frame. *)
Definition payload (timestamp : R) (dataUrl : string) (width height : R)
  : json :=
  JObj [("timestamp"%string, num timestamp);
        ("camera"%string, JStr dataUrl);
        ("width"%string, num width);
        ("height"%string, num height)].

(** camera.js, one turn of the [processFrames] loop for a frame that is
    due.  The socket is tested in the heap [h]; [processFrame] is
    awaited before [ws.send], and [after_await] is the heap when it
    resolves. *)
Definition processFrames_step (ws : BrowserWebSocket.ref)
    (timestamp : R) (lastCameraFrame : string) (width height : R)
    (after_await : BrowserWebSocket.heap -> BrowserWebSocket.heap)
  : eff (BrowserWebSocket.heap * list string) unit :=
  fun st =>
    let '(h, console) := st in
    if BrowserWebSocket.is_open_ref h ws
    then
      let h := after_await h in
      match BrowserWebSocket.send_ref h ws
              (Stringified (payload timestamp lastCameraFrame width height))
      with
      | Return h' => (Return tt, (h', console))
      | Throw _ =>
          (Return tt, (h, console ++ ["Frame processing error"%string]))
      end
    else (Return tt, st).

(** iosCameraManager.js, one tick of the capture interval for a frame
    that is due; [video_ready] is the test on the video element and
    [has_size] the test [videoWidth && videoHeight]. *)
Definition captureInterval_tick (ws : BrowserWebSocket.ref)
    (video_ready has_size : bool)
    (timestamp : R) (dataUrl : string) (fixedWidth fixedHeight : R)
  : eff (BrowserWebSocket.heap * list string) unit :=
  fun st =>
    let '(h, console) := st in
    if BrowserWebSocket.is_open_ref h ws && video_ready
    then
      if has_size
      then
        match BrowserWebSocket.send_ref h ws
                (Stringified (payload timestamp dataUrl fixedWidth fixedHeight))
        with
        | Return h' => (Return tt, (h', console))
        | Throw _ =>
            (Return tt, (h, console ++ ["Canvas to dataURL error"%string]))
        end
      else (Return tt, st)
    else (Return tt, st).

End CameraManager.

(* ================================================================== *)
(** ** client/textToSpeech.js: the socket of the speech channel        *)
(* ================================================================== *)

Module TextToSpeech.
Import Js WebSocket.

(** The functions this class passes to [setTimeout] around its socket:
    the reconnect of [onclose] and the flag reset of
    [disconnectWebSocket]. *)
Inductive callback : Type :=
| Callback_connectWebSocket
| Callback_reset_hasSpokenDisconnect.

Record t : Type := {
  ws : BrowserWebSocket.ref;
  isReady : bool;
  autoReconnect : bool;
  audioConfig_mode : string;
  audioConfig_enabled : bool;
  hasSpokenDisconnect : bool;
  ui_status : string;
  heap : BrowserWebSocket.heap;
  timers : list (Z * callback)
}.

(** [fetchConfig()]: [fetched] is the [audio] section the server
    answers with, [None] when the request fails or has no such section. *)
Definition fetchConfig (fetched : option (string * bool)) (st : t) : t :=
  match fetched with
  | Some (mode, enabled) =>
      {| ws := ws st; isReady := isReady st;
         autoReconnect := autoReconnect st;
         audioConfig_mode := mode; audioConfig_enabled := enabled;
         hasSpokenDisconnect := hasSpokenDisconnect st;
         ui_status := ui_status st; heap := heap st; timers := timers st |}
  | None => st
  end.

(** [connectWebSocket()]; [voices_loaded] is the value of [isReady]
    once the awaited [init()] is over. *)
Definition connectWebSocket (fetched : option (string * bool))
    (voices_loaded : bool) (st : t) : t :=
  let st := fetchConfig fetched st in
  if negb (String.eqb (audioConfig_mode st) "tts") ||
     negb (audioConfig_enabled st)
  then st
  else
    let ready := if isReady st then true else voices_loaded in
    let '(h, i) := BrowserWebSocket.new (heap st) in
    {| ws := Some i; isReady := ready; autoReconnect := true;
       audioConfig_mode := audioConfig_mode st;
       audioConfig_enabled := audioConfig_enabled st;
       hasSpokenDisconnect := hasSpokenDisconnect st;
       ui_status := ui_status st; heap := h; timers := timers st |}.

(** The [onclose] handler of the speech socket. *)
Definition ws_onclose (st : t) : t :=
  {| ws := ws st; isReady := isReady st; autoReconnect := autoReconnect st;
     audioConfig_mode := audioConfig_mode st;
     audioConfig_enabled := audioConfig_enabled st;
     hasSpokenDisconnect := hasSpokenDisconnect st;
     ui_status := "disconnected"; heap := heap st;
     timers := if autoReconnect st
               then timers st ++ [(1000%Z, Callback_connectWebSocket)]
               else timers st |}.

(** A timer of this class firing. *)
Definition run (cb : callback) (fetched : option (string * bool))
    (voices_loaded : bool) (st : t) : t :=
  match cb with
  | Callback_connectWebSocket => connectWebSocket fetched voices_loaded st
  | Callback_reset_hasSpokenDisconnect =>
      {| ws := ws st; isReady := isReady st;
         autoReconnect := autoReconnect st;
         audioConfig_mode := audioConfig_mode st;
         audioConfig_enabled := audioConfig_enabled st;
         hasSpokenDisconnect := false;
         ui_status := ui_status st; heap := heap st; timers := timers st |}
  end.

(** [disconnectWebSocket()] as far as the socket, the flags and the
    timers go; [synth_speaking] is [this.synth.speaking] at that time. *)
Definition disconnectWebSocket (synth_speaking : bool) (st : t) : t :=
  match ws st with
  | Some _ =>
      let speaks :=
        String.eqb (audioConfig_mode st) "tts" && audioConfig_enabled st &&
        isReady st && negb (hasSpokenDisconnect st) && negb synth_speaking in
      {| ws := None; isReady := isReady st; autoReconnect := false;
         audioConfig_mode := audioConfig_mode st;
         audioConfig_enabled := audioConfig_enabled st;
         hasSpokenDisconnect :=
           if speaks then true else hasSpokenDisconnect st;
         ui_status := ui_status st;
         heap := BrowserWebSocket.close_ref (heap st) (ws st);
         timers := timers st ++
                   [(1000%Z, Callback_reset_hasSpokenDisconnect)] |}
  | None =>
      {| ws := None; isReady := isReady st; autoReconnect := false;
         audioConfig_mode := audioConfig_mode st;
         audioConfig_enabled := audioConfig_enabled st;
         hasSpokenDisconnect := hasSpokenDisconnect st;
         ui_status := ui_status st; heap := heap st; timers := timers st |}
  end.

End TextToSpeech.

(* ================================================================== *)
(** ** client main script: session state and the sensor sockets        *)
(* ================================================================== *)

Module main.
Import Js WebSocket.

(** The five sockets this script owns. *)
Inductive channel : Type := pose | camera | microphone | imu | gps.

Definition channel_eqb (a b : channel) : bool :=
  match a, b with
  | pose, pose | camera, camera | microphone, microphone
  | imu, imu | gps, gps => true
  | _, _ => false
  end.

(** The [enabledSensors] object. *)
Record Sensors : Type := {
  enabled_camera : bool;
  enabled_pose : bool;
  enabled_microphone : bool;
  enabled_audio : bool;
  enabled_imu : bool;
  enabled_gps : bool
}.

Definition enabled (s : Sensors) (c : channel) : bool :=
  match c with
  | pose => enabled_pose s
  | camera => enabled_camera s
  | microphone => enabled_microphone s
  | imu => enabled_imu s
  | gps => enabled_gps s
  end.

(** The arrow function the [onclose] handler of a channel passes to
    [setTimeout]. *)
Inductive callback : Type := reconnect (c : channel).

Record state : Type := {
  isSessionActive : bool;
  enabledSensors : Sensors;
  poseWs : BrowserWebSocket.ref;
  cameraWs : BrowserWebSocket.ref;
  microphoneWs : BrowserWebSocket.ref;
  imuWs : BrowserWebSocket.ref;
  gpsWs : BrowserWebSocket.ref;
  window_cameraWs : BrowserWebSocket.ref;
  window_imuSensorManager : option IMUSensorManager.t;
  window_gpsSensorManager : option GPSSensorManager.t;
  connection_status : channel -> string;
  heap : BrowserWebSocket.heap;
  timers : list (Z * callback)
}.

(** [updateConnectionStatus(type, status)]. *)
Definition updateConnectionStatus (c : channel) (status : string)
    (st : state) : state :=
  {| isSessionActive := isSessionActive st;
     enabledSensors := enabledSensors st;
     poseWs := poseWs st; cameraWs := cameraWs st;
     microphoneWs := microphoneWs st; imuWs := imuWs st; gpsWs := gpsWs st;
     window_cameraWs := window_cameraWs st;
     window_imuSensorManager := window_imuSensorManager st;
     window_gpsSensorManager := window_gpsSensorManager st;
     connection_status :=
       (fun c' => if channel_eqb c' c then status else connection_status st c');
     heap := heap st; timers := timers st |}.

(** [setTimeout(cb, delay)]. *)
Definition setTimeout (cb : callback) (delay : Z) (st : state) : state :=
  {| isSessionActive := isSessionActive st;
     enabledSensors := enabledSensors st;
     poseWs := poseWs st; cameraWs := cameraWs st;
     microphoneWs := microphoneWs st; imuWs := imuWs st; gpsWs := gpsWs st;
     window_cameraWs := window_cameraWs st;
     window_imuSensorManager := window_imuSensorManager st;
     window_gpsSensorManager := window_gpsSensorManager st;
     connection_status := connection_status st;
     heap := heap st; timers := timers st ++ [(delay, cb)] |}.

(** [xWs = new WebSocket(...)] for the socket variable of a channel. *)
Definition new_WebSocket (c : channel) (st : state) : state :=
  let '(h, i) := BrowserWebSocket.new (heap st) in
  let pick c' old := if channel_eqb c' c then Some i else old in
  {| isSessionActive := isSessionActive st;
     enabledSensors := enabledSensors st;
     poseWs := pick pose (poseWs st); cameraWs := pick camera (cameraWs st);
     microphoneWs := pick microphone (microphoneWs st);
     imuWs := pick imu (imuWs st); gpsWs := pick gps (gpsWs st);
     window_cameraWs := window_cameraWs st;
     window_imuSensorManager := window_imuSensorManager st;
     window_gpsSensorManager := window_gpsSensorManager st;
     connection_status := connection_status st;
     heap := h; timers := timers st |}.

Definition set_window_cameraWs (r : BrowserWebSocket.ref) (st : state)
  : state :=
  {| isSessionActive := isSessionActive st;
     enabledSensors := enabledSensors st;
     poseWs := poseWs st; cameraWs := cameraWs st;
     microphoneWs := microphoneWs st; imuWs := imuWs st; gpsWs := gpsWs st;
     window_cameraWs := r;
     window_imuSensorManager := window_imuSensorManager st;
     window_gpsSensorManager := window_gpsSensorManager st;
     connection_status := connection_status st;
     heap := heap st; timers := timers st |}.

Definition set_managers (i : option IMUSensorManager.t)
    (g : option GPSSensorManager.t) (st : state) : state :=
  {| isSessionActive := isSessionActive st;
     enabledSensors := enabledSensors st;
     poseWs := poseWs st; cameraWs := cameraWs st;
     microphoneWs := microphoneWs st; imuWs := imuWs st; gpsWs := gpsWs st;
     window_cameraWs := window_cameraWs st;
     window_imuSensorManager := i;
     window_gpsSensorManager := g;
     connection_status := connection_status st;
     heap := heap st; timers := timers st |}.

Definition connectPoseWebSocket (st : state) : state :=
  let st := updateConnectionStatus pose "connecting" st in
  new_WebSocket pose st.

Definition connectCameraWebSocket (st : state) : state :=
  let st := updateConnectionStatus camera "connecting" st in
  let st := new_WebSocket camera st in
  set_window_cameraWs (cameraWs st) st.

Definition connectMicrophoneWebSocket (st : state) : state :=
  let st := updateConnectionStatus microphone "connecting" st in
  new_WebSocket microphone st.

Definition connectIMUWebSocket (st : state) : state :=
  let st := updateConnectionStatus imu "connecting" st in
  let st :=
    match window_imuSensorManager st with
    | None => set_managers (Some IMUSensorManager.constructor)
                (window_gpsSensorManager st) st
    | Some _ => st
    end in
  new_WebSocket imu st.

Definition connectGPSWebSocket (st : state) : state :=
  let st := updateConnectionStatus gps "connecting" st in
  let st :=
    match window_gpsSensorManager st with
    | None => set_managers (window_imuSensorManager st)
                (Some GPSSensorManager.constructor) st
    | Some _ => st
    end in
  new_WebSocket gps st.

Definition connect (c : channel) : state -> state :=
  match c with
  | pose => connectPoseWebSocket
  | camera => connectCameraWebSocket
  | microphone => connectMicrophoneWebSocket
  | imu => connectIMUWebSocket
  | gps => connectGPSWebSocket
  end.

(** The tail shared by the five [onclose] handlers:
    [if (isSessionActive) { setTimeout(() => {...}, 1000); }]. *)
Definition schedule_reconnect (c : channel) (st : state) : state :=
  if isSessionActive st then setTimeout (reconnect c) 1000 st else st.

Definition poseWs_onclose (st : state) : state :=
  let st := updateConnectionStatus pose "disconnected" st in
  schedule_reconnect pose st.

Definition cameraWs_onclose (st : state) : state :=
  let st := updateConnectionStatus camera "disconnected" st in
  let st := set_window_cameraWs None st in
  schedule_reconnect camera st.

Definition microphoneWs_onclose (st : state) : state :=
  let st := updateConnectionStatus microphone "disconnected" st in
  schedule_reconnect microphone st.

Definition imuWs_onclose (st : state) : state :=
  let st := updateConnectionStatus imu "disconnected" st in
  let st :=
    match window_imuSensorManager st with
    | Some m => set_managers (Some (IMUSensorManager.stopIMUSensor m))
                  (window_gpsSensorManager st) st
    | None => st
    end in
  schedule_reconnect imu st.

Definition gpsWs_onclose (st : state) : state :=
  let st := updateConnectionStatus gps "disconnected" st in
  let st :=
    match window_gpsSensorManager st with
    | Some m => set_managers (window_imuSensorManager st)
                  (Some (GPSSensorManager.stopGPSSensor m)) st
    | None => st
    end in
  schedule_reconnect gps st.

Definition onclose (c : channel) : state -> state :=
  match c with
  | pose => poseWs_onclose
  | camera => cameraWs_onclose
  | microphone => microphoneWs_onclose
  | imu => imuWs_onclose
  | gps => gpsWs_onclose
  end.

(** A timer of this script firing:
    [if (enabledSensors.x && isSessionActive) { connectXWebSocket(baseUrl); }]. *)
Definition run (cb : callback) (st : state) : state :=
  match cb with
  | reconnect c =>
      if enabled (enabledSensors st) c && isSessionActive st
      then connect c st
      else st
  end.

Definition num (r : R) : json := JVal (JNum r).

(** The send of [onXRFrame] for a pose that is available. *)
Definition onXRFrame_send (timestamp : R) (position : R * R * R)
    (orientation : R * R * R * R) (st : state) : result state :=
  if BrowserWebSocket.is_open_ref (heap st) (poseWs st)
  then
    let '(px, py, pz) := position in
    let '(ox, oy, oz, ow) := orientation in
    let poseData :=
      JObj [("timestamp"%string, num timestamp);
            ("pose"%string,
             JObj [("position"%string,
                    JObj [("x"%string, num px); ("y"%string, num py);
                          ("z"%string, num pz)]);
                   ("orientation"%string,
                    JObj [("x"%string, num ox); ("y"%string, num oy);
                          ("z"%string, num oz); ("w"%string, num ow)])])] in
    (h <- BrowserWebSocket.send_ref (heap st) (poseWs st)
            (Stringified poseData) ;;
     Return
       {| isSessionActive := isSessionActive st;
          enabledSensors := enabledSensors st;
          poseWs := poseWs st; cameraWs := cameraWs st;
          microphoneWs := microphoneWs st; imuWs := imuWs st;
          gpsWs := gpsWs st;
          window_cameraWs := window_cameraWs st;
          window_imuSensorManager := window_imuSensorManager st;
          window_gpsSensorManager := window_gpsSensorManager st;
          connection_status := connection_status st;
          heap := h; timers := timers st |})%js
  else Return st.

End main.

(** client/speechRecognition.js: the send of a recognised prompt. *)
Module SpeechRecognitionManager.
Import Js WebSocket.

Definition num (r : R) : json := JVal (JNum r).

(** The socket part of the transcription timer:
    [if (ws && ws.readyState === WebSocket.OPEN) { ws.send(...) }]. *)
Definition send_prompt (ws : BrowserWebSocket.ref) (now : R)
    (prompt : string) (h : BrowserWebSocket.heap)
  : result BrowserWebSocket.heap :=
  if BrowserWebSocket.is_open_ref h ws
  then
    BrowserWebSocket.send_ref h ws
      (Stringified
         (JObj [("header"%string,
                 JObj [("stamp"%string,
                        JObj [("sec"%string, num (floor (now / 1000)));
                              ("nanosec"%string,
                               num (rem now 1000 * 1000000))]);
                       ("frame_id"%string, JStr "microphone_frame")]);
                ("transcription"%string, JStr prompt)]))
  else Return h.

End SpeechRecognitionManager.

(* ================================================================== *)
(** ** server/express_server.js: stopping the HTTPS server             *)
(* ================================================================== *)

Module express_server.

(** How the HTTPS server answers [server.close(cb)]: it may throw at
    the call; otherwise its callback fires after [callback_after]
    milliseconds, with an error when the flag is set, or never. *)
Record https_server : Type := {
  close_throws : bool;
  callback_after : option (Z * bool)
}.

(** [stopServer(server)] called at [now]: the promise it returns and
    the logger calls it leads to.  The 2000 ms timer resolves the
    promise when the callback of [close] has not fired by then (a
    callback in the very millisecond of the timer is taken to come
    after it); nothing cancels that callback, so when it fires later it
    still logs its line, and its [resolve()] has no effect any more. *)
Definition stopServer (now : Z) (server : option https_server)
  : Promise.promise * Promise.timeline :=
  match server with
  | None => (Some now, [(now, Logger.info "SERVER" "No server to stop")])
  | Some srv =>
      let timeout := (now + 2000)%Z in
      if close_throws srv
      then (Some now,
            [(now, Logger.error "SERVER" "Exception stopping server")])
      else
        match callback_after srv with
        | Some (d, err) =>
            let callback_line :=
              if err
              then Logger.error "SERVER" "Error stopping server"
              else Logger.success "SERVER"
                     "HTTPS server closed successfully" in
            if Z.ltb (now + d) timeout
            then (Some (now + d)%Z, [((now + d)%Z, callback_line)])
            else (Some timeout,
                  [(timeout,
                    Logger.warn "SERVER"
                      "Server close operation timed out, forcing resolution");
                   ((now + d)%Z, callback_line)])
        | None =>
            (Some timeout,
             [(timeout,
               Logger.warn "SERVER"
                 "Server close operation timed out, forcing resolution")])
        end
  end.

End express_server.

(* ================================================================== *)
(** ** server main script: shutdown                                    *)
(* ================================================================== *)

Module app.

(** What the process holds when [shutdown] starts, and how its
    collaborators will behave. *)
Record process : Type := {
  wsServers : websocket_handlers.servers;
  rosNode_state : ros_interface.node;
  rosNode : bool;
  rclnodejs_isShutdown : bool;
  rclnodejs_shutdown_throws : bool;
  server : option express_server.https_server
}.

(** [process.exit(code)] at a time, after the output written so far. *)
Record exited : Type := {
  exit_code : Z;
  exit_time : Z;
  output : Promise.timeline;
  closed : websocket_handlers.servers;
  publishers_left : ros_interface.Publishers
}.

(** The body of [shutdown], for any pair of teardown steps: each step
    gets the time of its call and answers with a promise and the logger
    calls it causes.  [None] means that [process.exit] is never
    reached.  Nothing in the [try] block throws and no promise is
    rejected, so the [catch] block has no counterpart here; the exit is
    the [finally] block.  A logger call of a step that would happen
    after the exit is not part of the output. *)
Definition shutdown_with
    (ros_step server_step : Z -> Promise.promise * Promise.timeline)
    (publishers_left : ros_interface.Publishers)
    (p : process) (now : Z) : option exited :=
  let header := [(now, Logger.drawHeader "SHUTTING DOWN")] in
  let '(servers, closing_log) :=
    websocket_handlers.closeAllConnections (wsServers p) in
  let timeoutPromise := Promise.after now 3000 in
  let '(ros_promise, ros_log) := ros_step now in
  match Promise.await (Promise.race ros_promise timeoutPromise) now with
  | None => None
  | Some t1 =>
      let '(server_promise, server_log) := server_step t1 in
      match Promise.await (Promise.race server_promise timeoutPromise) t1 with
      | None => None
      | Some t2 =>
          let before_exit :=
            filter (fun e => Z.leb (fst e) t2) (ros_log ++ server_log) in
          let forced :=
            if Z.leb (now + 3000) t2
            then [((now + 3000)%Z,
                   Logger.warn "SHUTDOWN"
                     "Shutdown taking too long, forcing exit")]
            else [] in
          Some {| exit_code := 0;
                  exit_time := t2;
                  output :=
                    header ++ map (fun e => (now, e)) closing_log ++
                    before_exit ++ forced ++
                    [(t2, Logger.success "SHUTDOWN"
                            "Application shutdown complete")];
                  closed := servers;
                  publishers_left := publishers_left |}
      end
  end.

(** [rosInterface.shutdown()] called at time [t]. *)
Definition rosInterface_shutdown (p : process) (t : Z)
  : Promise.promise * ros_interface.node * Promise.timeline :=
  ros_interface.shutdown t (rclnodejs_isShutdown p) (rosNode p)
    (rclnodejs_shutdown_throws p) (rosNode_state p).

(** [shutdown()] with the two steps of the program. *)
Definition shutdown (p : process) (now : Z) : option exited :=
  shutdown_with
    (fun t => (fst (fst (rosInterface_shutdown p t)),
               snd (rosInterface_shutdown p t)))
    (fun t => express_server.stopServer t (server p))
    (ros_interface.publishers (snd (fst (rosInterface_shutdown p now))))
    p now.

End app.

(* ================================================================== *)
(** ** Reference notions taken from the specification's words         *)
(* ================================================================== *)

Module Spec.

(** A valid container header: the first 4 bytes are ASCII [RIFF] and
    bytes 8 to 11 are ASCII [WAVE]. *)
Definition valid_wav_header (buffer : list byte) : Prop :=
  firstn 4 buffer = [Byte.x52; Byte.x49; Byte.x46; Byte.x46] /\
  firstn 4 (skipn 8 buffer) = [Byte.x57; Byte.x41; Byte.x56; Byte.x45].

(** Sending a message to one peer of a channel: a peer in open state
    receives it, any other peer is skipped and left as it is. *)
Definition sent_to (f : WebSocket.frame) (peer : ws.client) : ws.client :=
  match ws.readyState peer with
  | WebSocket.OPEN =>
      {| ws.readyState := WebSocket.OPEN;
         ws.delivered := ws.delivered peer ++ [f] |}
  | _ => peer
  end.

(** Fan-out: the message goes to every peer of the channel. *)
Definition fan_out (f : WebSocket.frame) (peers : list ws.client)
  : list ws.client :=
  map (sent_to f) peers.

(** No peer of the channel is in open state. *)
Definition none_open (peers : list ws.client) : Prop :=
  Forall (fun peer => ws.readyState peer <> WebSocket.OPEN) peers.

End Spec.

(* ================================================================== *)
(** ** Concrete inputs used in the examples                            *)
(* ================================================================== *)

Module Samples.
Import Js.
Local Open Scope R_scope.

(** A server with every publisher created and nothing published yet. *)
Definition ready_node : ros_interface.node :=
  {| ros_interface.publishers := ros_interface.all_publishers;
     ros_interface.bus := [] |}.

(** An inertial sample with gyroscope 4, 5, 6 (alpha, beta, gamma) and
    heading 90 degrees. *)
Definition imu_sample : ros_interface.ImuData :=
  {| ros_interface.imu_timestamp := JNum 1000;
     ros_interface.accelerometer :=
       Some {| ros_interface.acc_x := JNum 1; ros_interface.acc_y := JNum 2;
               ros_interface.acc_z := JNum 3 |};
     ros_interface.gyroscope :=
       Some {| ros_interface.alpha := JNum 4; ros_interface.beta := JNum 5;
               ros_interface.gamma := JNum 6 |};
     ros_interface.magnetometer :=
       Some {| ros_interface.heading := JNum 90;
               ros_interface.mag_x := JNum 0; ros_interface.mag_y := JNum 0;
               ros_interface.mag_z := JNum 90 |} |}.

(** The sample an iPhone sends when it points west: the client puts
    [webkitCompassHeading] (270) into [heading] and the angle [alpha]
    of the orientation event (90 here) into [z]. *)
Definition imu_sample_ios : ros_interface.ImuData :=
  {| ros_interface.imu_timestamp := JNum 1000;
     ros_interface.accelerometer :=
       Some {| ros_interface.acc_x := JNum 1; ros_interface.acc_y := JNum 2;
               ros_interface.acc_z := JNum 3 |};
     ros_interface.gyroscope :=
       Some {| ros_interface.alpha := JNum 4; ros_interface.beta := JNum 5;
               ros_interface.gamma := JNum 6 |};
     ros_interface.magnetometer :=
       Some {| ros_interface.heading := JNum 270;
               ros_interface.mag_x := JNum 0; ros_interface.mag_y := JNum 0;
               ros_interface.mag_z := JNum 90 |} |}.

(** A geo-fix whose accuracy is reported as 0, which is what the GPS
    manager of the client sends when the platform gives no accuracy. *)
Definition gps_sample_accuracy_0 : ros_interface.GpsData :=
  {| ros_interface.gps_latitude := JNum 48;
     ros_interface.gps_longitude := JNum 2;
     ros_interface.gps_altitude := JNum 35;
     ros_interface.gps_accuracy := JNum 0;
     ros_interface.gps_heading := JNum 0;
     ros_interface.gps_speed := JNum 0;
     ros_interface.gps_timestamp := JNum 1000 |}.

(** A geo-fix with accuracy 5 metres and altitude 35 metres. *)
Definition gps_sample : ros_interface.GpsData :=
  {| ros_interface.gps_latitude := JNum 48;
     ros_interface.gps_longitude := JNum 2;
     ros_interface.gps_altitude := JNum 35;
     ros_interface.gps_accuracy := JNum 5;
     ros_interface.gps_heading := JNum 0;
     ros_interface.gps_speed := JNum 0;
     ros_interface.gps_timestamp := JNum 1000 |}.

(** A page whose only socket has been closed, and an IMU manager that
    is active and still holds that socket. *)
Definition closed_heap : BrowserWebSocket.heap :=
  [{| BrowserWebSocket.readyState := WebSocket.CLOSED;
      BrowserWebSocket.sent := [];
      BrowserWebSocket.discarded := [] |}].

Definition imu_manager : IMUSensorManager.t :=
  {| IMUSensorManager.isActive := true;
     IMUSensorManager.ws := Some 0%nat;
     IMUSensorManager.websocket := None;
     IMUSensorManager.sampleRate := 30;
     IMUSensorManager.intervalId := Some 1%nat;
     IMUSensorManager.accelerometerData := (1, 2, 3);
     IMUSensorManager.gyroscopeData := (4, 5, 6);
     IMUSensorManager.magnetometerData := (0, 0, 90, 90) |}.

(** Two peers of a channel: one open, one closing. *)
Definition open_peer : ws.client :=
  {| ws.readyState := WebSocket.OPEN; ws.delivered := [] |}.

Definition closing_peer : ws.client :=
  {| ws.readyState := WebSocket.CLOSING; ws.delivered := [] |}.

(** The main script during a session with every sensor enabled, and
    after the session has ended. *)
Definition all_enabled : main.Sensors :=
  {| main.enabled_camera := true; main.enabled_pose := true;
     main.enabled_microphone := true; main.enabled_audio := true;
     main.enabled_imu := true; main.enabled_gps := true |}.

Definition main_state (active : bool) : main.state :=
  {| main.isSessionActive := active;
     main.enabledSensors := all_enabled;
     main.poseWs := None; main.cameraWs := None; main.microphoneWs := None;
     main.imuWs := None; main.gpsWs := None;
     main.window_cameraWs := None;
     main.window_imuSensorManager := None;
     main.window_gpsSensorManager := None;
     main.connection_status := fun _ => EmptyString;
     main.heap := []; main.timers := [] |}.

(** The audio player in wav mode, enabled, in an active session, with
    its socket just closed by the network. *)
Definition audio_player : audioPlayer.state :=
  {| audioPlayer.audioConfig_mode := "wav";
     audioPlayer.audioConfig_enabled := true;
     audioPlayer.ws := Some 0%nat;
     audioPlayer.autoReconnect := true;
     audioPlayer.audioElements := [];
     audioPlayer.audioQueue := [];
     audioPlayer.isPlaying := false;
     audioPlayer.isSessionActive := true;
     audioPlayer.isIOS := false;
     audioPlayer.ui_status := "connected";
     audioPlayer.heap := closed_heap;
     audioPlayer.timers := [];
     audioPlayer.playback := [];
     audioPlayer.console_error := [] |}.

(** The speech object in the same situation. *)
Definition text_to_speech : TextToSpeech.t :=
  {| TextToSpeech.ws := Some 0%nat;
     TextToSpeech.isReady := true;
     TextToSpeech.autoReconnect := true;
     TextToSpeech.audioConfig_mode := "tts";
     TextToSpeech.audioConfig_enabled := true;
     TextToSpeech.hasSpokenDisconnect := false;
     TextToSpeech.ui_status := "connected";
     TextToSpeech.heap := closed_heap;
     TextToSpeech.timers := [] |}.

(** A server process whose HTTPS server never calls back from
    [close], and whose ROS shutdown throws. *)
Definition stuck_process : app.process :=
  {| app.wsServers :=
       {| websocket_handlers.pose := [open_peer];
          websocket_handlers.camera_clients := [open_peer];
          websocket_handlers.tts := [open_peer];
          websocket_handlers.microphone := [open_peer];
          websocket_handlers.wavAudio := [open_peer];
          websocket_handlers.imu := [];
          websocket_handlers.gps := [] |};
     app.rosNode_state := ready_node;
     app.rosNode := true;
     app.rclnodejs_isShutdown := false;
     app.rclnodejs_shutdown_throws := true;
     app.server := Some {| express_server.close_throws := false;
                           express_server.callback_after := None |} |}.

End Samples.

(* ================================================================== *)
(** ** Relations between the states before and after a piece of code   *)
(* ================================================================== *)

Module Invariants.

(** Every run of [m] takes a state to one that is [R]-related to it,
    whether [m] returns or throws. *)
Definition relates {S A : Type} (R : S -> S -> Prop) (m : Js.eff S A)
  : Prop :=
  forall s : S, R s (snd (m s)).

(** Every run of [m] returns. *)
Definition returns {S A : Type} (m : Js.eff S A) : Prop :=
  forall s : S, exists a : A, fst (m s) = Js.Return a.

(** The server [srv'] is [srv] with at most [n] more messages on the
    bus and possibly more lines in the log; the publishers are the
    same. *)
Definition grown (n : nat) (srv srv' : websocket_handlers.server) : Prop :=
  ros_interface.publishers (websocket_handlers.node srv') =
    ros_interface.publishers (websocket_handlers.node srv) /\
  (exists added : list ros_interface.published,
     ros_interface.bus (websocket_handlers.node srv') =
       ros_interface.bus (websocket_handlers.node srv) ++ added /\
     List.length added <= n) /\
  (exists logged : list Logger.entry,
     websocket_handlers.log srv' = websocket_handlers.log srv ++ logged).

(** With every publisher gone, the ROS side of [srv'] is that of
    [srv]. *)
Definition idle (srv srv' : websocket_handlers.server) : Prop :=
  ros_interface.publishers (websocket_handlers.node srv) =
    ros_interface.no_publishers ->
  websocket_handlers.node srv' = websocket_handlers.node srv.

End Invariants.

(* ================================================================== *)
(** ** client/audioPlayer.js: the queue and the public interface       *)
(* ================================================================== *)

Module audioPlayer_api.
Import Js WebSocket audioPlayer.

Definition with_isPlaying (st : state) (b : bool) : state :=
  {| audioConfig_mode := audioConfig_mode st;
     audioConfig_enabled := audioConfig_enabled st;
     ws := ws st; autoReconnect := autoReconnect st;
     audioElements := audioElements st; audioQueue := audioQueue st;
     isPlaying := b; isSessionActive := isSessionActive st;
     isIOS := isIOS st; ui_status := ui_status st; heap := heap st;
     timers := timers st; playback := playback st;
     console_error := console_error st |}.

Definition with_audioElements (st : state) (l : list audio_element) : state :=
  {| audioConfig_mode := audioConfig_mode st;
     audioConfig_enabled := audioConfig_enabled st;
     ws := ws st; autoReconnect := autoReconnect st;
     audioElements := l; audioQueue := audioQueue st;
     isPlaying := isPlaying st; isSessionActive := isSessionActive st;
     isIOS := isIOS st; ui_status := ui_status st; heap := heap st;
     timers := timers st; playback := playback st;
     console_error := console_error st |}.

Definition with_audioConfig (st : state) (mode : string) (enabled : bool)
  : state :=
  {| audioConfig_mode := mode;
     audioConfig_enabled := enabled;
     ws := ws st; autoReconnect := autoReconnect st;
     audioElements := audioElements st; audioQueue := audioQueue st;
     isPlaying := isPlaying st; isSessionActive := isSessionActive st;
     isIOS := isIOS st; ui_status := ui_status st; heap := heap st;
     timers := timers st; playback := playback st;
     console_error := console_error st |}.

(** The test [currentlyPlaying] of [processAudioData], on either
    platform: when it holds, arriving audio is queued. *)
Definition currentlyPlaying (st : state) : bool :=
  if isIOS st then isPlaying st
  else
    negb (Nat.eqb (List.length (audioElements st)) 0) &&
    existsb (fun audio =>
               negb (dataset_available audio) &&
               currentTime_positive audio &&
               negb (paused audio) && negb (ended audio))
            (audioElements st).

(** [playNextInQueue()], run when an element or a source has ended. *)
Definition playNextInQueue (st : state) : state :=
  match audioQueue st with
  | nextAudio :: rest =>
      let st := with_audioQueue st rest in
      with_playback st (playback st ++ [playAudioData nextAudio])
  | [] => with_isPlaying st false
  end.

(** The [onended] and [onerror] handlers of the audio element at index
    [i]: the element is marked available, then the queue goes on. *)
Definition audioElement_onended (i : nat) (st : state) : state :=
  let st :=
    match nth_error (audioElements st) i with
    | Some audio =>
        with_audioElements st
          (assign (audioElements st) i
             {| dataset_available := true;
                currentTime_positive := currentTime_positive audio;
                paused := paused audio; ended := ended audio |})
    | None => st
    end in
  playNextInQueue st.

(** [createAudioElements()]: up to [MAX_AUDIO_ELEMENTS] hidden elements,
    each marked available. *)
Definition new_audio_element : audio_element :=
  {| dataset_available := true; currentTime_positive := false;
     paused := true; ended := false |}.

Definition createAudioElements (st : state) : state :=
  with_audioElements st
    (audioElements st ++
     repeat new_audio_element (3 - List.length (audioElements st))).

(** What [fetch('/api/config')] brings: the request fails, the answer
    has no [audio] section, or the section gives a mode and possibly an
    [enabled] flag. *)
Inductive fetched : Type :=
| Fetch_failed
| No_audio_section
| Audio_section (mode : string) (enabled : option bool).

(** [fetchConfig()]. *)
Definition fetchConfig (f : fetched) (st : state) : state :=
  match f with
  | Fetch_failed => st
  | _ =>
      let st :=
        match f with
        | Audio_section mode enabled =>
            with_audioConfig st mode
              (match enabled with
               | Some b => b
               | None => String.eqb mode "wav"
               end)
        | _ => st
        end in
      if audioConfig_enabled st && String.eqb (audioConfig_mode st) "wav"
      then
        let st := if negb (isIOS st) then createAudioElements st else st in
        connectWebSocket st
      else st
  end.

(** The [change] listener this file puts on the audio checkbox;
    [mode_is_wav] is the test on the configuration fetched first
    ([None] when that request fails). *)
Definition audio_select_onchange (checked : bool) (mode_is_wav : option bool)
    (st : state) : state :=
  match mode_is_wav with
  | Some true =>
      if checked
      then
        let st :=
          with_audioConfig st (audioConfig_mode st) true in
        if negb (BrowserWebSocket.is_open_ref (heap st) (ws st))
        then connectWebSocket st
        else st
      else
        let st := disconnectWebSocket st in
        with_audioConfig st (audioConfig_mode st) false
  | _ => st
  end.

(** [window.audioPlayer.playAudio(arrayBuffer)]. *)
Definition playAudio (arrayBuffer : list byte) : eff state bool :=
  fun st =>
    if String.eqb (audioConfig_mode st) "wav" && audioConfig_enabled st &&
       isSessionActive st
    then
      match processAudioData arrayBuffer st with
      | (Return _, st') => (Return true, st')
      | (Throw e, st') => (Throw e, st')
      end
    else (Return false, st).

(** [window.audioPlayer.clearQueue()]. *)
Definition clearQueue (st : state) : state := with_audioQueue st [].

(** [audio.pause()] and the marking that follows it, on an element that
    is not paused. *)
Definition pause_and_release (audio : audio_element) : audio_element :=
  if negb (paused audio)
  then {| dataset_available := true;
          currentTime_positive := currentTime_positive audio;
          paused := true; ended := ended audio |}
  else audio.

(** [window.audioPlayer.setSessionActive(active)]. *)
Definition setSessionActive (active : bool) (st : state) : state :=
  let st := with_isSessionActive st active in
  if negb active
  then
    let st := with_audioQueue st [] in
    if isIOS st
    then with_isPlaying st false
    else
      let st :=
        with_audioElements st (map pause_and_release (audioElements st)) in
      with_isPlaying st false
  else st.

(** The reset of one element in [stopAllAudio]. *)
Definition stop_element (audio : audio_element) : audio_element :=
  {| dataset_available := true; currentTime_positive := false;
     paused := true; ended := ended audio |}.

(** [stopAllAudio()]; [audioContext] tells whether the WebAudio context
    exists.  The WebAudio sources themselves are not part of the
    state. *)
Definition stopAllAudio (audioContext : bool) (st : state) : state :=
  let st := with_audioQueue st [] in
  let st := with_isPlaying st false in
  if isIOS st && audioContext
  then st
  else with_audioElements st (map stop_element (audioElements st)).

(** Everything that can happen to the player. *)
Inductive event : Type :=
| Message (data : frame)
| Close
| Timer (cb : callback)
| Started
| Element_ended (i : nat)
| Source_ended
| Config (f : fetched)
| Checkbox (checked : bool) (mode_is_wav : option bool)
| Api_connectWebSocket
| Api_disconnectWebSocket
| Api_playAudio (arrayBuffer : list byte)
| Api_clearQueue
| Api_setSessionActive (active : bool)
| Api_stopAllAudio (audioContext : bool).

Definition step (st : state) (e : event) : state :=
  match e with
  | Message data => snd (ws_onmessage data st)
  | Close => ws_onclose st
  | Timer cb => run cb st
  | Started => with_isPlaying st true
  | Element_ended i => audioElement_onended i st
  | Source_ended => playNextInQueue st
  | Config f => fetchConfig f st
  | Checkbox checked mode_is_wav => audio_select_onchange checked mode_is_wav st
  | Api_connectWebSocket => connectWebSocket st
  | Api_disconnectWebSocket => disconnectWebSocket st
  | Api_playAudio arrayBuffer => snd (playAudio arrayBuffer st)
  | Api_clearQueue => clearQueue st
  | Api_setSessionActive active => setSessionActive active st
  | Api_stopAllAudio audioContext => stopAllAudio audioContext st
  end.

Definition steps (es : list event) (st : state) : state :=
  fold_left step es st.

End audioPlayer_api.

(* ================================================================== *)
(** ** client main script: starting, ending and toggling               *)
(* ================================================================== *)

Module main_session.
Import Js WebSocket main.

(** The socket variable of a channel. *)
Definition socket_var (c : channel) (st : state) : BrowserWebSocket.ref :=
  match c with
  | pose => poseWs st
  | camera => cameraWs st
  | microphone => microphoneWs st
  | imu => imuWs st
  | gps => gpsWs st
  end.

(** [isSessionActive = b]. *)
Definition set_isSessionActive (b : bool) (st : state) : state :=
  {| isSessionActive := b;
     enabledSensors := enabledSensors st;
     poseWs := poseWs st; cameraWs := cameraWs st;
     microphoneWs := microphoneWs st; imuWs := imuWs st; gpsWs := gpsWs st;
     window_cameraWs := window_cameraWs st;
     window_imuSensorManager := window_imuSensorManager st;
     window_gpsSensorManager := window_gpsSensorManager st;
     connection_status := connection_status st;
     heap := heap st; timers := timers st |}.

Definition set_enabledSensors (s : Sensors) (st : state) : state :=
  {| isSessionActive := isSessionActive st;
     enabledSensors := s;
     poseWs := poseWs st; cameraWs := cameraWs st;
     microphoneWs := microphoneWs st; imuWs := imuWs st; gpsWs := gpsWs st;
     window_cameraWs := window_cameraWs st;
     window_imuSensorManager := window_imuSensorManager st;
     window_gpsSensorManager := window_gpsSensorManager st;
     connection_status := connection_status st;
     heap := heap st; timers := timers st |}.

Definition set_heap (h : BrowserWebSocket.heap) (st : state) : state :=
  {| isSessionActive := isSessionActive st;
     enabledSensors := enabledSensors st;
     poseWs := poseWs st; cameraWs := cameraWs st;
     microphoneWs := microphoneWs st; imuWs := imuWs st; gpsWs := gpsWs st;
     window_cameraWs := window_cameraWs st;
     window_imuSensorManager := window_imuSensorManager st;
     window_gpsSensorManager := window_gpsSensorManager st;
     connection_status := connection_status st;
     heap := h; timers := timers st |}.

(** [poseWs = cameraWs = microphoneWs = imuWs = gpsWs = null]. *)
Definition clear_sockets (st : state) : state :=
  {| isSessionActive := isSessionActive st;
     enabledSensors := enabledSensors st;
     poseWs := None; cameraWs := None;
     microphoneWs := None; imuWs := None; gpsWs := None;
     window_cameraWs := window_cameraWs st;
     window_imuSensorManager := window_imuSensorManager st;
     window_gpsSensorManager := window_gpsSensorManager st;
     connection_status := connection_status st;
     heap := heap st; timers := timers st |}.

(** [enabledSensors.camera = b], and the same for [imu] and [gps]. *)
Definition set_camera (b : bool) (s : Sensors) : Sensors :=
  {| enabled_camera := b; enabled_pose := enabled_pose s;
     enabled_microphone := enabled_microphone s;
     enabled_audio := enabled_audio s;
     enabled_imu := enabled_imu s; enabled_gps := enabled_gps s |}.

Definition set_imu (b : bool) (s : Sensors) : Sensors :=
  {| enabled_camera := enabled_camera s; enabled_pose := enabled_pose s;
     enabled_microphone := enabled_microphone s;
     enabled_audio := enabled_audio s;
     enabled_imu := b; enabled_gps := enabled_gps s |}.

Definition set_gps (b : bool) (s : Sensors) : Sensors :=
  {| enabled_camera := enabled_camera s; enabled_pose := enabled_pose s;
     enabled_microphone := enabled_microphone s;
     enabled_audio := enabled_audio s;
     enabled_imu := enabled_imu s; enabled_gps := b |}.

(** [window.imuSensorManager.stopIMUSensor()] when there is a manager,
    and the same for GPS. *)
Definition stop_imu_manager (st : state) : state :=
  match window_imuSensorManager st with
  | Some m => set_managers (Some (IMUSensorManager.stopIMUSensor m))
                (window_gpsSensorManager st) st
  | None => st
  end.

Definition stop_gps_manager (st : state) : state :=
  match window_gpsSensorManager st with
  | Some m => set_managers (window_imuSensorManager st)
                (Some (GPSSensorManager.stopGPSSensor m)) st
  | None => st
  end.

(** The page as [onSessionEnded] meets it: the variables of this
    script with the sockets and timers it made, and the two audio
    objects, each with the sockets and timers of its own; an object is
    [None] when its script has not been loaded. *)
Record page : Type := {
  script : state;
  window_tts : option TextToSpeech.t;
  window_audioPlayer : option audioPlayer.state
}.

(** [onSessionEnded()]: the statuses, the session flag, the five
    sockets and the IMU manager of this script, then
    [window.tts.disconnectWebSocket()] (the class has no [stop]
    method, so that call is skipped) and
    [window.audioPlayer.disconnectWebSocket()] followed by
    [window.audioPlayer.stopAllAudio()] (the object always has both
    functions, so the fallback branch is never taken).
    [synth_speaking] and [audioContext] are what the two audio
    functions read from the browser.  The XR session, the camera and
    speech recognition managers (whose stop methods touch neither a
    socket nor a timer of the three objects here), the status line of
    the audio output and the texts of the page are not part of the
    state. *)
Definition onSessionEnded (synth_speaking audioContext : bool) (p : page)
  : page :=
  if negb (isSessionActive (script p)) then p
  else
    let st := script p in
    let st :=
      fold_left (fun st type => updateConnectionStatus type "" st)
        [pose; camera; microphone; imu; gps] st in
    let st := set_isSessionActive false st in
    let st :=
      set_heap
        (fold_left BrowserWebSocket.close_ref
           [poseWs st; cameraWs st; microphoneWs st; imuWs st; gpsWs st]
           (heap st)) st in
    let st := clear_sockets st in
    let st := stop_imu_manager st in
    let tts :=
      match window_tts p with
      | Some tts => Some (TextToSpeech.disconnectWebSocket synth_speaking tts)
      | None => None
      end in
    let player :=
      match window_audioPlayer p with
      | Some player =>
          let player := audioPlayer.disconnectWebSocket player in
          Some (audioPlayer_api.stopAllAudio audioContext player)
      | None => None
      end in
    {| script := st; window_tts := tts; window_audioPlayer := player |}.

(** The [change] listener of the IMU checkbox; [isIOS] and [isAndroid]
    are the two tests on the user agent. *)
Definition imu_select_onchange (checked isIOS isAndroid : bool)
    (st : state) : state :=
  if negb isIOS && negb isAndroid
  then
    if checked
    then set_enabledSensors (set_imu false (enabledSensors st)) st
    else st
  else
    let st := set_enabledSensors (set_imu checked (enabledSensors st)) st in
    if checked && isSessionActive st
    then
      if BrowserWebSocket.is_open_ref (heap st) (imuWs st)
      then st
      else connectIMUWebSocket st
    else
      if negb checked && match imuWs st with Some _ => true | None => false end
      then
        let st :=
          set_heap (BrowserWebSocket.close_ref (heap st) (imuWs st)) st in
        let st := updateConnectionStatus imu "disconnected" st in
        stop_imu_manager st
      else st.

(** The [change] listener of the GPS checkbox. *)
Definition gps_select_onchange (checked : bool) (st : state) : state :=
  let st := set_enabledSensors (set_gps checked (enabledSensors st)) st in
  if checked && isSessionActive st
  then
    if BrowserWebSocket.is_open_ref (heap st) (gpsWs st)
    then st
    else connectGPSWebSocket st
  else
    if negb checked && match gpsWs st with Some _ => true | None => false end
    then
      let st :=
        set_heap (BrowserWebSocket.close_ref (heap st) (gpsWs st)) st in
      let st := updateConnectionStatus gps "disconnected" st in
      stop_gps_manager st
    else st.

(** [connectWebSockets()] as far as the five sensor sockets go (the
    audio output is connected through the two audio objects).
    [constructor_throws] tells that the camera manager is missing and
    that creating one throws, which disables the camera. *)
Definition connectWebSockets (constructor_throws isIOS isAndroid : bool)
    (st : state) : state :=
  if negb (isSessionActive st) then st
  else
    let st :=
      if enabled_camera (enabledSensors st) && constructor_throws
      then set_enabledSensors (set_camera false (enabledSensors st)) st
      else st in
    let st := if enabled_pose (enabledSensors st)
              then connectPoseWebSocket st else st in
    let st := if enabled_camera (enabledSensors st)
              then connectCameraWebSocket st else st in
    let st := if enabled_microphone (enabledSensors st)
              then connectMicrophoneWebSocket st else st in
    let st := if enabled_imu (enabledSensors st) && (isIOS || isAndroid)
              then connectIMUWebSocket st else st in
    let st := if enabled_gps (enabledSensors st)
              then connectGPSWebSocket st else st in
    st.

(** What can happen to the page between two user actions: a socket of
    a channel is closed, or a timer fires. *)
Inductive event : Type :=
| Closed (c : channel)
| Fired (cb : callback).

Definition step (st : state) (e : event) : state :=
  match e with
  | Closed c => onclose c st
  | Fired cb => run cb st
  end.

Definition steps (es : list event) (st : state) : state :=
  fold_left step es st.

(** [n] rounds of a channel closing and its reconnect timer firing. *)
Fixpoint close_and_retry (c : channel) (n : nat) (st : state) : state :=
  match n with
  | O => st
  | S k => close_and_retry c k (run (reconnect c) (onclose c st))
  end.

End main_session.

(* ================================================================== *)
(** ** Reading a parsed message by property access                     *)
(* ================================================================== *)

(** The server reads a parsed message with expressions such as
    [data.imu.gyroscope.alpha].  Here the message is the tree that the
    sender stringified; the keys of an object literal are distinct.  A
    finite number survives [JSON.stringify] and [JSON.parse]
    unchanged. *)
Module JSON.
Import Js WebSocket.

(** [j.key]: [None] stands for [undefined]. *)
Definition get (key : string) (j : json) : option json :=
  match j with
  | JObj fields =>
      match find (fun kv => String.eqb (fst kv) key) fields with
      | Some kv => Some (snd kv)
      | None => None
      end
  | _ => None
  end.

(** A property that the handlers use as a number.  The records of the
    handlers hold numbers, [null] and [undefined] only, so a string, a
    boolean or an object in such a place has no counterpart ([None]). *)
Definition number (o : option json) : option jsval :=
  match o with
  | None => Some JUndefined
  | Some (JVal v) => Some v
  | Some _ => None
  end.

(** [imu.accelerometer], [imu.gyroscope] and [imu.magnetometer]. *)
Definition accelerometer (o : option json)
  : option (option ros_interface.Accelerometer) :=
  match o with
  | None => Some None
  | Some (JObj _ as a) =>
      match number (get "x" a), number (get "y" a), number (get "z" a) with
      | Some x, Some y, Some z =>
          Some (Some {| ros_interface.acc_x := x; ros_interface.acc_y := y;
                        ros_interface.acc_z := z |})
      | _, _, _ => None
      end
  | Some _ => None
  end.

Definition gyroscope (o : option json)
  : option (option ros_interface.Gyroscope) :=
  match o with
  | None => Some None
  | Some (JObj _ as g) =>
      match number (get "alpha" g), number (get "beta" g),
            number (get "gamma" g) with
      | Some a, Some b, Some c =>
          Some (Some {| ros_interface.alpha := a; ros_interface.beta := b;
                        ros_interface.gamma := c |})
      | _, _, _ => None
      end
  | Some _ => None
  end.

Definition magnetometer (o : option json)
  : option (option ros_interface.Magnetometer) :=
  match o with
  | None => Some None
  | Some (JObj _ as m) =>
      match number (get "heading" m), number (get "x" m),
            number (get "y" m), number (get "z" m) with
      | Some h, Some x, Some y, Some z =>
          Some (Some {| ros_interface.heading := h; ros_interface.mag_x := x;
                        ros_interface.mag_y := y; ros_interface.mag_z := z |})
      | _, _, _, _ => None
      end
  | Some _ => None
  end.

(** [data.imu] of a message whose [imu] property is an object. *)
Definition imu (data : json) : option ros_interface.ImuData :=
  match get "imu" data with
  | Some (JObj _ as i) =>
      match number (get "timestamp" i), accelerometer (get "accelerometer" i),
            gyroscope (get "gyroscope" i),
            magnetometer (get "magnetometer" i) with
      | Some t, Some a, Some g, Some m =>
          Some {| ros_interface.imu_timestamp := t;
                  ros_interface.accelerometer := a;
                  ros_interface.gyroscope := g;
                  ros_interface.magnetometer := m |}
      | _, _, _, _ => None
      end
  | _ => None
  end.

(** [data.gps] of a message whose [gps] property is an object. *)
Definition gps (data : json) : option ros_interface.GpsData :=
  match get "gps" data with
  | Some (JObj _ as g) =>
      match number (get "latitude" g), number (get "longitude" g),
            number (get "altitude" g), number (get "accuracy" g),
            number (get "heading" g), number (get "speed" g),
            number (get "timestamp" g) with
      | Some la, Some lo, Some al, Some ac, Some he, Some sp, Some t =>
          Some {| ros_interface.gps_latitude := la;
                  ros_interface.gps_longitude := lo;
                  ros_interface.gps_altitude := al;
                  ros_interface.gps_accuracy := ac;
                  ros_interface.gps_heading := he;
                  ros_interface.gps_speed := sp;
                  ros_interface.gps_timestamp := t |}
      | _, _, _, _, _, _, _ => None
      end
  | _ => None
  end.

(** A camera message: [data.camera] is a string or absent. *)
Definition camera (data : json) : option websocket_handlers.CameraMessage :=
  match get "camera" data with
  | Some (JStr _) | None =>
      match number (get "width" data), number (get "height" data),
            number (get "timestamp" data) with
      | Some w, Some h, Some t =>
          Some {| websocket_handlers.camera :=
                    match get "camera" data with
                    | Some (JStr s) => Some s
                    | _ => None
                    end;
                  websocket_handlers.cam_width := w;
                  websocket_handlers.cam_height := h;
                  websocket_handlers.cam_timestamp := t |}
      | _, _, _ => None
      end
  | _ => None
  end.

End JSON.

(* ================================================================== *)
(** ** client: the listeners that fill the sensor managers            *)
(* ================================================================== *)

(** The listeners of the IMU manager (setupAccelerometerAndGyroscope,
    setupMagnetometer). *)
Module IMUSensorListeners.
Import Js IMUSensorManager.
Local Open Scope R_scope.

(** A [devicemotion] event: each part is an object with three
    readings, or [null]. *)
Record DeviceMotionEvent : Type := {
  acceleration : option (jsval * jsval * jsval);
  accelerationIncludingGravity : option (jsval * jsval * jsval);
  rotationRate : option (jsval * jsval * jsval)
}.

(** A [deviceorientation] event. *)
Record DeviceOrientationEvent : Type := {
  absolute : bool;
  webkitCompassHeading : jsval;
  alpha : jsval;
  beta : jsval;
  gamma : jsval
}.

Definition with_accelerometerData (m : t) (d : R * R * R) : t :=
  {| isActive := isActive m; ws := ws m; websocket := websocket m;
     sampleRate := sampleRate m; intervalId := intervalId m;
     accelerometerData := d;
     gyroscopeData := gyroscopeData m;
     magnetometerData := magnetometerData m |}.

Definition with_gyroscopeData (m : t) (d : R * R * R) : t :=
  {| isActive := isActive m; ws := ws m; websocket := websocket m;
     sampleRate := sampleRate m; intervalId := intervalId m;
     accelerometerData := accelerometerData m;
     gyroscopeData := d;
     magnetometerData := magnetometerData m |}.

Definition with_magnetometerData (m : t) (d : R * R * R * R) : t :=
  {| isActive := isActive m; ws := ws m; websocket := websocket m;
     sampleRate := sampleRate m; intervalId := intervalId m;
     accelerometerData := accelerometerData m;
     gyroscopeData := gyroscopeData m;
     magnetometerData := d |}.

(** [{ x: v.x || 0, y: v.y || 0, z: v.z || 0 }]. *)
Definition or_0 (v : jsval * jsval * jsval) : R * R * R :=
  let '(a, b, c) := v in (or_default a 0, or_default b 0, or_default c 0).

(** The [devicemotion] listener; [isAndroid] is the test on the user
    agent. *)
Definition devicemotion_listener (isAndroid : bool)
    (event : DeviceMotionEvent) (m : t) : t :=
  if negb (isActive m) then m
  else
    let m :=
      match acceleration event with
      | Some a => with_accelerometerData m (or_0 a)
      | None =>
          match accelerationIncludingGravity event with
          | Some a =>
              if isAndroid then with_accelerometerData m (or_0 a) else m
          | None => m
          end
      end in
    match rotationRate event with
    | Some r => with_gyroscopeData m (or_0 r)
    | None => m
    end.

(** The [deviceorientation] listener.  The stored tuple is (x, y, z,
    heading). *)
Definition deviceorientation_listener (event : DeviceOrientationEvent)
    (m : t) : t :=
  if negb (isActive m) then m
  else
    let defined := match webkitCompassHeading event with
                   | JUndefined => false
                   | _ => true
                   end in
    if absolute event || defined
    then
      let heading := if defined then webkitCompassHeading event
                     else alpha event in
      with_magnetometerData m
        (or_default (beta event) 0, or_default (gamma event) 0,
         or_default (alpha event) 0, or_default heading 0)
    else
      with_magnetometerData m
        (or_default (beta event) 0, or_default (gamma event) 0,
         or_default (alpha event) 0, or_default (alpha event) 0).

End IMUSensorListeners.

(** The position callback of the GPS manager. *)
Module GPSTracking.
Import Js WebSocket GPSSensorManager.
Local Open Scope R_scope.

(** [position.coords] and [position.timestamp] of a
    [GeolocationPosition]. *)
Record Coordinates : Type := {
  coords_latitude : jsval;
  coords_longitude : jsval;
  coords_altitude : jsval;
  coords_accuracy : jsval;
  coords_heading : jsval;
  coords_speed : jsval
}.

Record Position : Type := {
  coords : Coordinates;
  position_timestamp : jsval
}.

(** [new Date(t).toISOString()] throws outside the range of dates. *)
Definition Date_toISOString (t : R) : result unit :=
  if Rle_dec (Rabs t) 8640000000000000 then Return tt else Throw RangeError.

(** [handlePositionUpdate(position)]; [now] is the clock reading used
    when the position carries no timestamp.  The result is the manager
    after the call. *)
Definition handlePositionUpdate (isIOS : bool) (position : Position)
    (now : R) (m : t) : eff (BrowserWebSocket.heap * list string) t :=
  fun st =>
    if negb (isActive m) ||
       negb (BrowserWebSocket.is_open_ref (fst st) (ws m))
    then (Return m, st)
    else
      let coords := coords position in
      let timestamp := or_default (position_timestamp position) now in
      match (if isIOS then Date_toISOString timestamp else Return tt) with
      | Throw e => (Throw e, st)
      | Return _ =>
          let m :=
            {| isActive := isActive m; ws := ws m; watchId := watchId m;
               gpsData :=
                 {| latitude := or_default (coords_latitude coords) 0;
                    longitude := or_default (coords_longitude coords) 0;
                    altitude := or_default (coords_altitude coords) 0;
                    accuracy := or_default (coords_accuracy coords) 0;
                    heading := or_default (coords_heading coords) 0;
                    speed := or_default (coords_speed coords) 0;
                    timestamp := timestamp |} |} in
          match sendGPSData m st with
          | (Return _, st') => (Return m, st')
          | (Throw e, st') => (Throw e, st')
          end
      end.

End GPSTracking.

(* ================================================================== *)
(** ** client/camera.js and iosCameraManager.js: drawing and pacing    *)
(* ================================================================== *)

Module CameraFrames.
Local Open Scope R_scope.

(** Where [processFrame] (and the capture interval of the iOS manager)
    draws the picture: the arguments [x], [y], width and height of
    [ctx.drawImage], with [scale = Math.min(canvas.width / bitmap.width,
    canvas.height / bitmap.height)]. *)
Definition drawImage_arguments (canvas_width canvas_height
    bitmap_width bitmap_height : R) : R * R * R * R :=
  let scale := Rmin (canvas_width / bitmap_width)
                    (canvas_height / bitmap_height) in
  let x := (canvas_width - bitmap_width * scale) / 2 in
  let y := (canvas_height - bitmap_height * scale) / 2 in
  (x, y, bitmap_width * scale, bitmap_height * scale).

(** The pacing of both managers.  Each frame that comes in is given by
    the reading [currentTime] of [performance.now()] taken when it
    comes in and by whether it can be sent (socket open, picture
    available, no error while encoding); the result lists the readings
    of the frames that are sent, which are the values [lastSentTime]
    takes.  [lastSentTime] starts at 0.  The send itself comes after
    the encoding, which [CameraManager] awaits: the list holds the
    readings, not the moments of sending. *)
Fixpoint sent_frames (frameInterval lastSentTime : R)
    (frames : list (R * bool)) : list R :=
  match frames with
  | [] => []
  | (currentTime, can_send) :: rest =>
      if Rlt_dec (currentTime - lastSentTime) frameInterval
      then sent_frames frameInterval lastSentTime rest
      else
        if can_send
        then currentTime :: sent_frames frameInterval currentTime rest
        else sent_frames frameInterval lastSentTime rest
  end.

End CameraFrames.

(* ================================================================== *)
(** ** client/speechRecognition.js: the prompt after the keyword       *)
(* ================================================================== *)

Module SpeechPrompt.

(** [l.join(sep)]. *)
Fixpoint join (sep : string) (l : list string) : string :=
  match l with
  | [] => EmptyString
  | [s] => s
  | s :: rest => (s ++ sep ++ join sep rest)%string
  end.

(** [l.findIndex(p)]: [None] stands for -1. *)
Fixpoint findIndex {A : Type} (p : A -> bool) (l : list A) : option nat :=
  match l with
  | [] => None
  | a :: rest =>
      if p a then Some O
      else match findIndex p rest with
           | Some i => Some (S i)
           | None => None
           end
  end.

(** [l.splice(start)] for [start >= 0]: the elements from [start] on,
    which are the ones it returns. *)
Definition splice {A : Type} (l : list A) (start : nat) : list A :=
  skipn start l.

Section Prompt.

(** [String.prototype.toLowerCase], provided by the runtime. *)
Variable toLowerCase : string -> string.

(** The prompt the transcription timer sends:
    [split_arr.splice(key_idx + 1).join(" ")]. *)
Definition prompt (keyword finalTranscripts : string) : string :=
  let split_arr := Js.split " "%char finalTranscripts in
  let key_idx :=
    findIndex (fun word => String.eqb (toLowerCase word) keyword) split_arr in
  let prompt_arr :=
    splice split_arr (match key_idx with Some i => i + 1 | None => 0 end) in
  join " " prompt_arr.

End Prompt.

End SpeechPrompt.

(* ================================================================== *)
(** ** server: the microphone channel                                  *)
(* ================================================================== *)

(** [setupMicrophoneHandlers] and [publishMicrophoneTranscription].
    What is published on the speech topic is kept in a list of its own,
    next to the server. *)
Module MicrophoneChannel.
Import Js WebSocket.
Local Open Scope R_scope.

(** The object handed to the publisher of the speech topic. *)
Record Transcription : Type := {
  header : ros_interface.Header;
  data : string
}.

Record state : Type := {
  server : websocket_handlers.server;
  speech : list Transcription
}.

(** A parsed message of the channel: [data.transcription] when it is a
    string, and [data.header.stamp] when both exist. *)
Record MicrophoneMessage : Type := {
  transcription : option string;
  header_stamp : option ros_interface.Time
}.

(** [publishMicrophoneTranscription(transcription, timestamp)]. *)
Definition publishMicrophoneTranscription (st : state)
    (transcription : string) (timestamp : option ros_interface.Time)
    (now : R * R) : bool * state :=
  if negb (ros_interface.microphone
             (ros_interface.publishers
                (websocket_handlers.node (server st))))
  then (false, st)
  else
    let msg :=
      {| header :=
           {| ros_interface.stamp :=
                ros_interface.stamp_or_now timestamp now;
              ros_interface.frame_id := "microphone_frame" |};
         data := transcription |} in
    (true, {| server := server st; speech := speech st ++ [msg] |}).

Definition Logger_call (e : Logger.entry) (st : state) : state :=
  {| server :=
       {| websocket_handlers.node := websocket_handlers.node (server st);
          websocket_handlers.log :=
            websocket_handlers.log (server st) ++ [e] |};
     speech := speech st |}.

(** The [message] handler installed by [setupMicrophoneHandlers];
    [parsed] is [None] when the message is not JSON.  An empty string
    is falsy. *)
Definition setupMicrophoneHandlers_onmessage
    (parsed : option MicrophoneMessage) (now : R * R) (st : state)
  : result unit * state :=
  match JSON_parse parsed with
  | Return data =>
      match transcription data with
      | None | Some EmptyString => (Return tt, st)
      | Some text =>
          let st := Logger_call (Logger.info "ROS" "Transcription received")
                      st in
          (Return tt,
           snd (publishMicrophoneTranscription st text (header_stamp data)
                  now))
      end
  | Throw _ =>
      (Return tt,
       Logger_call (Logger.error "ROS" "Error processing microphone message")
         st)
  end.

(** The message as the handler reads it, for a message whose
    [transcription] is a string and whose stamp holds two numbers. *)
Definition read (message : json) : option MicrophoneMessage :=
  match JSON.get "transcription" message with
  | Some (JStr text) =>
      match JSON.get "header" message with
      | Some (JObj _ as h) =>
          match JSON.get "stamp" h with
          | Some (JObj _ as s) =>
              match JSON.get "sec" s, JSON.get "nanosec" s with
              | Some (JVal (JNum sec)), Some (JVal (JNum nanosec)) =>
                  Some {| transcription := Some text;
                          header_stamp :=
                            Some {| ros_interface.sec := sec;
                                    ros_interface.nanosec := nanosec |} |}
              | _, _ => None
              end
          | _ => None
          end
      | _ => None
      end
  | _ => None
  end.

End MicrophoneChannel.

(* ================================================================== *)
(** ** More concrete inputs                                            *)
(* ================================================================== *)

Module Scenarios.
Import Js.
Local Open Scope R_scope.

(** An open socket that has sent nothing. *)
Definition open_socket : BrowserWebSocket.socket :=
  {| BrowserWebSocket.readyState := WebSocket.OPEN;
     BrowserWebSocket.sent := [];
     BrowserWebSocket.discarded := [] |}.

(** The main script in a session with the camera, IMU and GPS sockets
    open and an active IMU manager. *)
Definition session : main.state :=
  {| main.isSessionActive := true;
     main.enabledSensors := Samples.all_enabled;
     main.poseWs := None; main.cameraWs := Some 0%nat;
     main.microphoneWs := None;
     main.imuWs := Some 1%nat; main.gpsWs := Some 2%nat;
     main.window_cameraWs := Some 0%nat;
     main.window_imuSensorManager := Some Samples.imu_manager;
     main.window_gpsSensorManager := None;
     main.connection_status := fun _ => "connected"%string;
     main.heap := [open_socket; open_socket; open_socket];
     main.timers := [] |}.

(** A page whose only socket is open. *)
Definition open_heap : BrowserWebSocket.heap := [open_socket].


(** A server with every publisher created and an empty log. *)
Definition ready_server : websocket_handlers.server :=
  {| websocket_handlers.node := Samples.ready_node;
     websocket_handlers.log := [] |}.

(** A motion event with rotation rates 4, 5, 6 and an orientation
    event of an iPhone: compass heading 270, relative angle 90. *)
Definition motion_event : IMUSensorListeners.DeviceMotionEvent :=
  {| IMUSensorListeners.acceleration := Some (JNum 1, JNum 2, JNull);
     IMUSensorListeners.accelerationIncludingGravity := None;
     IMUSensorListeners.rotationRate := Some (JNum 4, JNum 5, JNum 6) |}.

Definition orientation_event : IMUSensorListeners.DeviceOrientationEvent :=
  {| IMUSensorListeners.absolute := false;
     IMUSensorListeners.webkitCompassHeading := JNum 270;
     IMUSensorListeners.alpha := JNum 90;
     IMUSensorListeners.beta := JNum 10;
     IMUSensorListeners.gamma := JNum 20 |}.

(** An active GPS manager on the open socket, and a fix without
    altitude. *)
Definition gps_manager : GPSSensorManager.t :=
  {| GPSSensorManager.isActive := true;
     GPSSensorManager.ws := Some 0%nat;
     GPSSensorManager.watchId := Some 1%nat;
     GPSSensorManager.gpsData := GPSSensorManager.gpsData
                                   GPSSensorManager.constructor |}.

Definition position : GPSTracking.Position :=
  {| GPSTracking.coords :=
       {| GPSTracking.coords_latitude := JNum 48;
          GPSTracking.coords_longitude := JNum 2;
          GPSTracking.coords_altitude := JNull;
          GPSTracking.coords_accuracy := JNum 5;
          GPSTracking.coords_heading := JNull;
          GPSTracking.coords_speed := JNull |};
     GPSTracking.position_timestamp := JNum 1000 |}.

(** The audio player on an iPhone, in a session, playing a buffer,
    with one buffer already waiting. *)
Definition busy_player : audioPlayer.state :=
  {| audioPlayer.audioConfig_mode := "wav";
     audioPlayer.audioConfig_enabled := true;
     audioPlayer.ws := Some 0%nat;
     audioPlayer.autoReconnect := true;
     audioPlayer.audioElements := [];
     audioPlayer.audioQueue := [[Byte.x0a]];
     audioPlayer.isPlaying := true;
     audioPlayer.isSessionActive := true;
     audioPlayer.isIOS := true;
     audioPlayer.ui_status := "connected";
     audioPlayer.heap := [open_socket];
     audioPlayer.timers := [];
     audioPlayer.playback := [];
     audioPlayer.console_error := [] |}.


(** The same player while nothing is playing and nothing waits. *)
Definition idle_player : audioPlayer.state :=
  {| audioPlayer.audioConfig_mode := "wav";
     audioPlayer.audioConfig_enabled := true;
     audioPlayer.ws := Some 0%nat;
     audioPlayer.autoReconnect := true;
     audioPlayer.audioElements := [];
     audioPlayer.audioQueue := [];
     audioPlayer.isPlaying := false;
     audioPlayer.isSessionActive := true;
     audioPlayer.isIOS := true;
     audioPlayer.ui_status := "connected";
     audioPlayer.heap := [open_socket];
     audioPlayer.timers := [];
     audioPlayer.playback := [];
     audioPlayer.console_error := [] |}.

End Scenarios.

(* ================================================================== *)
(** * Properties                                                       *)
(* ================================================================== *)

(** ** Facts about the value model *)

Section JsFacts.
Import Js.
Local Open Scope R_scope.

Lemma truthy_num_nonzero (r : R) : r <> 0 -> truthy_num (JNum r) = Some r.
Proof.
  intros Hr. unfold truthy_num.
  destruct (Req_dec_T r 0) as [E | _]; [contradiction | reflexivity].
Qed.

Lemma truthy_num_zero : truthy_num (JNum 0) = None.
Proof.
  unfold truthy_num.
  destruct (Req_dec_T 0 0) as [_ | N]; [reflexivity | now elim N].
Qed.

(** [x || 0.0] gives back every number [x]. *)
Lemma or_default_zero (r : R) : or_default (JNum r) 0 = r.
Proof.
  unfold or_default, truthy_num.
  destruct (Req_dec_T r 0) as [E | _]; [now rewrite E | reflexivity].
Qed.

Lemma or_default_nonzero (r d : R) : r <> 0 -> or_default (JNum r) d = r.
Proof. intros Hr. unfold or_default. now rewrite truthy_num_nonzero. Qed.

(** Anything but a non-zero number gives the default. *)
Lemma or_default_falsy (v : jsval) (d : R) :
  truthy_num v = None -> or_default v d = d.
Proof. intros H. unfold or_default. now rewrite H. Qed.

Lemma split_no_separator (sep : ascii) (s : string) :
  (forall c, In c (list_ascii_of_string s) -> c <> sep) ->
  split sep s = [s].
Proof.
  induction s as [| c rest IH]; intros H; simpl; [reflexivity |].
  destruct (Ascii.eqb_spec c sep) as [E | _].
  - exfalso. apply (H c); [now left | exact E].
  - rewrite IH; [reflexivity |].
    intros c' Hc'. apply H. now right.
Qed.

Example split_data_url :
  split ","%char "data:image/jpeg;base64,/9j/4AAQ" =
  ["data:image/jpeg;base64"%string; "/9j/4AAQ"%string].
Proof. reflexivity. Qed.

Example split_bare_base64 :
  nth_error (split ","%char "/9j/4AAQ") 1 = None.
Proof. reflexivity. Qed.

Example split_empty_segments :
  split ","%char "a,,b" = ["a"%string; ""%string; "b"%string].
Proof. reflexivity. Qed.

End JsFacts.

(** ** Camera: translation and publication *)

Section CameraFacts.
Import Js ros_interface.
Local Open Scope R_scope.

(** C8.  A camera sample of 640 by 480: when both camera publishers
    exist, the call returns [true] and adds to the bus exactly one
    compressed-image message tagged [jpeg] followed by exactly one
    camera-info message with width 640, height 480 and [k[2]] = 320,
    both carrying the one header whose frame id is [camera_frame]; when
    either publisher is missing, the call returns [false] and the bus
    is left as it was. *)
Theorem publishCameraData_640_480 :
  forall (st : node) (imageBuffer : list byte) (timestamp : option Time)
         (now : R * R),
  exists (header : Header) (img : CompressedImage) (info : CameraInfo),
    frame_id header = "camera_frame"%string /\
    stamp header = stamp_or_now timestamp now /\
    img_header img = header /\ info_header info = header /\
    format img = "jpeg"%string /\
    data img = Array_from imageBuffer /\
    width info = 640 /\ height info = 480 /\
    nth_error (k info) 2 = Some 320 /\
    publishCameraData st imageBuffer 640 480 timestamp now =
      if compressed (publishers st) && cameraInfo (publishers st)
      then (true,
            {| publishers := publishers st;
               bus := bus st ++ [On_camera_image_raw_compressed img;
                                 On_camera_camera_info info] |})
      else (false, st).
Proof.
  intros st imageBuffer timestamp now.
  set (header := {| stamp := stamp_or_now timestamp now;
                    frame_id := "camera_frame" |}).
  exists header.
  exists {| img_header := header; format := "jpeg";
            data := Array_from imageBuffer |}.
  exists {| info_header := header; height := 480; width := 640;
            distortion_model := "plumb_bob";
            d := [0; 0; 0; 0; 0];
            k := [640; 0; 640 / 2; 0; 480; 480 / 2; 0; 0; 1];
            r := [1; 0; 0; 0; 1; 0; 0; 0; 1];
            p := [640; 0; 640 / 2; 0; 0; 480; 480 / 2; 0; 0; 0; 1; 0];
            binning_x := 0; binning_y := 0;
            roi := {| x_offset := 0; y_offset := 0; roi_height := 480;
                      roi_width := 640; do_rectify := false |} |}.
  repeat split; try reflexivity.
  - simpl. f_equal. lra.
  - unfold publishCameraData.
    destruct (compressed (publishers st)), (cameraInfo (publishers st));
      simpl; try reflexivity.
    unfold publish; simpl. rewrite <- app_assoc. reflexivity.
Qed.

(** The text before the first comma is dropped by [split(',')[1]]. *)
Lemma split_prefix (prefix rest : string) :
  (forall c, In c (list_ascii_of_string prefix) -> c <> ","%char) ->
  split ","%char (prefix ++ String ","%char rest) =
  prefix :: split ","%char rest.
Proof.
  induction prefix as [| c p' IH]; intros H; simpl.
  - reflexivity.
  - destruct (Ascii.eqb_spec c ","%char) as [E | _].
    + exfalso. apply (H c); [now left | exact E].
    + rewrite IH; [reflexivity |].
      intros c' Hc'. apply H. now right.
Qed.

(** A payload that is a data URL: the header up to the comma is
    stripped, the rest is decoded, and the compressed-image message
    carries exactly the decoded bytes. *)
Lemma camera_frame_with_data_url_prefix
    (base64 : string -> list byte) (prefix b64 : string)
    (w h ts : jsval) (now : R * R) (srv : websocket_handlers.server) :
  (forall c, In c (list_ascii_of_string prefix) -> c <> ","%char) ->
  (forall c, In c (list_ascii_of_string b64) -> c <> ","%char) ->
  compressed (publishers (websocket_handlers.node srv)) = true ->
  cameraInfo (publishers (websocket_handlers.node srv)) = true ->
  exists (img : CompressedImage) (info : CameraInfo),
    snd (websocket_handlers.setupCameraHandlers_onmessage base64
           (Some {| websocket_handlers.camera :=
                      Some (prefix ++ String ","%char b64)%string;
                    websocket_handlers.cam_width := w;
                    websocket_handlers.cam_height := h;
                    websocket_handlers.cam_timestamp := ts |})
           now srv) =
      {| websocket_handlers.node :=
           {| publishers := publishers (websocket_handlers.node srv);
              bus := bus (websocket_handlers.node srv) ++
                     [On_camera_image_raw_compressed img;
                      On_camera_camera_info info] |};
         websocket_handlers.log := websocket_handlers.log srv |} /\
    data img = Array_from (base64 b64) /\
    List.length (data img) = List.length (base64 b64).
Proof.
  intros Hp Hb Hc Hi.
  unfold websocket_handlers.setupCameraHandlers_onmessage.
  unfold try_catch, ebind, lift, JSON_parse. cbn [websocket_handlers.camera].
  assert (Hne : exists c s', (prefix ++ String ","%char b64)%string = String c s').
  { destruct prefix; simpl; eauto. }
  destruct Hne as (c & s' & Hs). rewrite Hs, <- Hs.
  rewrite (split_prefix prefix b64 Hp), (split_no_separator b64 Hb).
  cbn [nth_error websocket_handlers.Buffer_from_base64].
  unfold websocket_handlers.rosInterface_call, publishCameraData.
  rewrite Hc, Hi. cbn [negb orb snd fst websocket_handlers.node].
  do 2 eexists. split; [| split].
  - unfold publish. cbn [publishers bus]. rewrite <- app_assoc. reflexivity.
  - reflexivity.
  - cbn [data]. unfold Array_from. apply length_map.
Qed.

(** C1, at an input without the data-URL header.  The payload is bare
    base-64 text, so [split(',')] has a single element, [base64Data] is
    [undefined] and [Buffer.from] throws: the frame is not published and
    only the error is logged, whatever the decoder, the clock and the
    rest of the server state are. *)
Theorem camera_frame_without_data_url_prefix_dropped :
  forall (base64 : string -> list byte) (now : R * R)
         (srv : websocket_handlers.server),
    snd (websocket_handlers.setupCameraHandlers_onmessage base64
           (Some {| websocket_handlers.camera := Some "/9j/4AAQSkZJRg=="%string;
                    websocket_handlers.cam_width := JNum 640;
                    websocket_handlers.cam_height := JNum 480;
                    websocket_handlers.cam_timestamp := JNum 1000 |})
           now srv) =
      {| websocket_handlers.node := websocket_handlers.node srv;
         websocket_handlers.log :=
           websocket_handlers.log srv ++
           [Logger.error "ROS" "Error publishing camera data to ROS2"] |}.
Proof. intros base64 now srv. reflexivity. Qed.

(** The same for every payload that holds no comma. *)
Lemma camera_frame_without_comma_dropped
    (base64 : string -> list byte) (c0 : ascii) (payload : string)
    (w h ts : jsval) (now : R * R) (srv : websocket_handlers.server) :
  (forall c, In c (list_ascii_of_string (String c0 payload)) -> c <> ","%char) ->
  bus (websocket_handlers.node
         (snd (websocket_handlers.setupCameraHandlers_onmessage base64
                 (Some {| websocket_handlers.camera := Some (String c0 payload);
                          websocket_handlers.cam_width := w;
                          websocket_handlers.cam_height := h;
                          websocket_handlers.cam_timestamp := ts |})
                 now srv))) =
  bus (websocket_handlers.node srv).
Proof.
  intros H.
  unfold websocket_handlers.setupCameraHandlers_onmessage.
  unfold try_catch, ebind, lift, JSON_parse. cbn [websocket_handlers.camera].
  rewrite (split_no_separator (String c0 payload) H).
  reflexivity.
Qed.

End CameraFacts.

(** ** Inertial samples *)

Section ImuFacts.
Import Js ros_interface.
Local Open Scope R_scope.

(** With roll and pitch at zero the formula leaves a rotation about the
    vertical axis by the yaw angle, given in degrees. *)
Lemma eulerToQuaternion_yaw_only (yaw : R) :
  eulerToQuaternion 0 0 yaw =
  {| qx := 0; qy := 0;
     qz := sin (yaw * PI / 180 * 0.5);
     qw := cos (yaw * PI / 180 * 0.5) |}.
Proof.
  unfold eulerToQuaternion.
  replace (0 * PI / 180 * 0.5) with 0 by lra.
  rewrite cos_0, sin_0.
  f_equal; ring.
Qed.

(** The yaw of the published orientation is read from the field [z]
    of the magnetometer object, 0 standing in for a missing or zero
    value; no other field of that object is read. *)
Lemma publishIMUData_yaw_from_z
    (st : node) (imuData : ImuData) (acc : Accelerometer)
    (gyr : Gyroscope) (mag : Magnetometer)
    (timestamp : option Time) (now : R * R) :
  imu (publishers st) = true ->
  accelerometer imuData = Some acc ->
  gyroscope imuData = Some gyr ->
  magnetometer imuData = Some mag ->
  exists m : Imu,
    publishIMUData st imuData timestamp now =
      Return (true, publish st (On_mobile_sensor_imu m)) /\
    orientation m = eulerToQuaternion 0 0 (or_default (mag_z mag) 0).
Proof.
  intros Hpub Hacc Hgyr Hmag.
  unfold publishIMUData.
  rewrite Hpub, Hacc, Hgyr, Hmag. cbn [negb prop_of bind].
  eexists. split; [reflexivity |].
  cbn [orientation].
  now destruct (eulerToQuaternion 0 0 (or_default (mag_z mag) 0)).
Qed.

(** A quarter turn and three quarters of a turn are different
    rotations: the scalar parts have opposite signs. *)
Lemma eulerToQuaternion_90_270 :
  eulerToQuaternion 0 0 90 <> eulerToQuaternion 0 0 270.
Proof.
  rewrite !eulerToQuaternion_yaw_only. intros E.
  injection E as _ Hw.
  pose proof PI_RGT_0 as Hpi.
  assert (H90 : 0 < cos (90 * PI / 180 * 0.5)).
  { apply cos_gt_0; lra. }
  assert (H270 : cos (270 * PI / 180 * 0.5) < 0).
  { apply cos_lt_0; lra. }
  lra.
Qed.

(** C2 as stated fails: the orientation is not computed from the field
    [heading] of the magnetometer object.  The sample of an iPhone that
    points west carries the heading 270 and [z] = 90, and is published
    with the rotation of 90 degrees, not the one of 270. *)
Lemma publishIMUData_heading_counterexample :
  ~ (forall (st : node) (imuData : ImuData) (mag : Magnetometer) (h : R)
            (timestamp : option Time) (now : R * R) (m : Imu),
       magnetometer imuData = Some mag ->
       heading mag = JNum h ->
       publishIMUData st imuData timestamp now =
         Return (true, publish st (On_mobile_sensor_imu m)) ->
       orientation m = eulerToQuaternion 0 0 h).
Proof.
  intros claim.
  destruct (publishIMUData_yaw_from_z Samples.ready_node
              Samples.imu_sample_ios None (0, 0)
              eq_refl eq_refl eq_refl eq_refl) as (m & Hm & Ho).
  specialize (claim Samples.ready_node Samples.imu_sample_ios _ 270 None
                (0, 0) m eq_refl eq_refl Hm).
  rewrite Ho in claim. cbn [mag_z] in claim.
  rewrite or_default_zero in claim.
  exact (eulerToQuaternion_90_270 claim).
Qed.

(** C2, amended.  An inertial sample whose gyroscope readings are the
    numbers [a] (alpha), [b] (beta), [c] (gamma) and whose magnetometer
    object holds [h] degrees in its field [z] (the angle [alpha] of the
    orientation event, which the client sends as the compass
    direction), published while the IMU publisher exists: the call
    returns [true] and adds exactly one IMU message, whose angular
    velocity is x = [b], y = [a], z = [c], whose orientation is the
    yaw-only quaternion of [h] (degrees turned into radians, roll =
    pitch = 0) whatever the field [heading] holds, and whose three
    covariance arrays have nine entries, all equal to -1. *)
Theorem publishIMUData_remap_orientation_covariance :
  forall (st : node) (imuData : ImuData) (acc : Accelerometer)
         (gyr : Gyroscope) (mag : Magnetometer) (a b c h : R)
         (timestamp : option Time) (now : R * R),
    imu (publishers st) = true ->
    accelerometer imuData = Some acc ->
    gyroscope imuData = Some gyr ->
    magnetometer imuData = Some mag ->
    alpha gyr = JNum a -> beta gyr = JNum b -> gamma gyr = JNum c ->
    mag_z mag = JNum h ->
    exists m : Imu,
      publishIMUData st imuData timestamp now =
        Return (true, {| publishers := publishers st;
                         bus := bus st ++ [On_mobile_sensor_imu m] |}) /\
      x (angular_velocity m) = b /\
      y (angular_velocity m) = a /\
      z (angular_velocity m) = c /\
      orientation m = eulerToQuaternion 0 0 h /\
      orientation m = {| qx := 0; qy := 0;
                         qz := sin (h * PI / 180 * 0.5);
                         qw := cos (h * PI / 180 * 0.5) |} /\
      orientation_covariance m = [-1; -1; -1; -1; -1; -1; -1; -1; -1] /\
      angular_velocity_covariance m = [-1; -1; -1; -1; -1; -1; -1; -1; -1] /\
      linear_acceleration_covariance m = [-1; -1; -1; -1; -1; -1; -1; -1; -1].
Proof.
  intros st imuData acc gyr mag a b c h timestamp now
         Hpub Hacc Hgyr Hmag Ha Hb Hc Hh.
  unfold publishIMUData.
  rewrite Hpub, Hacc, Hgyr, Hmag. cbn [negb prop_of bind].
  rewrite Ha, Hb, Hc, Hh, !or_default_zero.
  eexists. split; [reflexivity |].
  cbn [angular_velocity x y z orientation orientation_covariance
       angular_velocity_covariance linear_acceleration_covariance].
  assert (Heta : forall q : Quaternion,
             {| qx := qx q; qy := qy q; qz := qz q; qw := qw q |} = q)
    by (intros []; reflexivity).
  rewrite Heta.
  repeat split; try reflexivity.
  apply eulerToQuaternion_yaw_only.
Qed.

(** The theorem at the sample of the iPhone that points west:
    gyroscope (4, 5, 6), heading 270 and [z] = 90. *)
Lemma publishIMUData_remap_witness :
  exists m : Imu,
    publishIMUData Samples.ready_node Samples.imu_sample_ios None (0, 0) =
      Return (true, {| publishers := all_publishers;
                       bus := [On_mobile_sensor_imu m] |}) /\
    x (angular_velocity m) = 5 /\
    y (angular_velocity m) = 4 /\
    z (angular_velocity m) = 6 /\
    orientation m = eulerToQuaternion 0 0 90.
Proof.
  destruct (publishIMUData_remap_orientation_covariance
              Samples.ready_node Samples.imu_sample_ios
              (acc := {| acc_x := JNum 1; acc_y := JNum 2; acc_z := JNum 3 |})
              (gyr := {| alpha := JNum 4; beta := JNum 5; gamma := JNum 6 |})
              (mag := {| heading := JNum 270; mag_x := JNum 0;
                         mag_y := JNum 0; mag_z := JNum 90 |})
              (a := 4) (b := 5) (c := 6) (h := 90) None (0, 0)
              eq_refl eq_refl eq_refl eq_refl eq_refl eq_refl eq_refl eq_refl)
    as (m & Hm & Hx & Hy & Hz & Ho & _).
  exists m. repeat split; assumption.
Defined.

(** When the field [z] is missing, [null] or 0 the orientation is the
    identity rotation. *)
Lemma publishIMUData_heading_default
    (st : node) (imuData : ImuData) (acc : Accelerometer)
    (gyr : Gyroscope) (mag : Magnetometer)
    (timestamp : option Time) (now : R * R) :
  imu (publishers st) = true ->
  accelerometer imuData = Some acc ->
  gyroscope imuData = Some gyr ->
  magnetometer imuData = Some mag ->
  truthy_num (mag_z mag) = None ->
  exists m : Imu,
    publishIMUData st imuData timestamp now =
      Return (true, publish st (On_mobile_sensor_imu m)) /\
    orientation m = {| qx := 0; qy := 0; qz := 0; qw := 1 |}.
Proof.
  intros Hpub Hacc Hgyr Hmag Hz.
  unfold publishIMUData.
  rewrite Hpub, Hacc, Hgyr, Hmag. cbn [negb prop_of bind].
  rewrite (or_default_falsy _ 0 Hz).
  eexists. split; [reflexivity |].
  cbn [orientation]. rewrite eulerToQuaternion_yaw_only.
  cbn [qx qy qz qw].
  replace (0 * PI / 180 * 0.5) with 0 by lra.
  now rewrite sin_0, cos_0.
Qed.

(** Through the [message] handler of the IMU channel a message reaches
    the bus only when the three accelerometer and the three gyroscope
    fields are present and are not [null]: [toFixed] is called on each
    of them first. *)
Lemma setupIMUHandlers_publishes_only_numeric
    (imuData : ImuData) (now : R * R) (srv : websocket_handlers.server) :
  bus (websocket_handlers.node
         (snd (websocket_handlers.setupIMUHandlers_onmessage
                 (Some (Some imuData)) now srv))) <>
  bus (websocket_handlers.node srv) ->
  exists gyr,
    gyroscope imuData = Some gyr /\
    toFixed (alpha gyr) = Return tt /\
    toFixed (beta gyr) = Return tt /\
    toFixed (gamma gyr) = Return tt.
Proof.
  unfold websocket_handlers.setupIMUHandlers_onmessage.
  unfold try_catch, ebind, lift, JSON_parse, websocket_handlers.Logger_call,
    modify.
  destruct (accelerometer imuData) as [acc |]; cbn [prop_of];
    [| intros H; now elim H].
  destruct (toFixed (acc_x acc)) as [[] |]; [| intros H; now elim H].
  destruct (toFixed (acc_y acc)) as [[] |]; [| intros H; now elim H].
  destruct (toFixed (acc_z acc)) as [[] |]; [| intros H; now elim H].
  destruct (gyroscope imuData) as [gyr |]; cbn [prop_of];
    [| intros H; now elim H].
  destruct (toFixed (alpha gyr)) as [[] |] eqn:Ea; [| intros H; now elim H].
  destruct (toFixed (beta gyr)) as [[] |] eqn:Eb; [| intros H; now elim H].
  destruct (toFixed (gamma gyr)) as [[] |] eqn:Ec; [| intros H; now elim H].
  intros _. exists gyr. repeat split; assumption.
Qed.

End ImuFacts.

(** ** Geo-fix samples *)

Section GpsFacts.
Import Js ros_interface.
Local Open Scope R_scope.

(** The accuracy the variance is computed from: the reported one when
    it is a non-zero number, 1 otherwise. *)
Lemma publishGPSData_published
    (st : node) (gpsData : GpsData) (timestamp : option Time) (now : R * R) :
  exists m : NavSatFix,
    publishGPSData st gpsData timestamp now =
      (if gps (publishers st)
       then (true, {| publishers := publishers st;
                      bus := bus st ++ [On_mobile_sensor_gps m] |})
       else (false, st)) /\
    position_covariance m =
      (let v := or_default (gps_accuracy gpsData) 1 *
                or_default (gps_accuracy gpsData) 1 in
       [v; 0; 0; 0; v; 0; 0; 0; v]) /\
    altitude m = match gps_altitude gpsData with JNum a => a | _ => 0 end /\
    fix_status m = {| status := 0; service := 1 |}.
Proof.
  unfold publishGPSData.
  eexists. split; [| split; [| split]].
  - destruct (gps (publishers st)); cbn [negb]; reflexivity.
  - reflexivity.
  - cbn [altitude]. destruct (gps_altitude gpsData); reflexivity.
  - reflexivity.
Qed.

(** C3 as stated fails: a geo-fix that reports the accuracy 0 is
    published with the variance 1 on the diagonal, not 0 squared. *)
Lemma publishGPSData_accuracy_zero_counterexample :
  ~ (forall (st : node) (gpsData : GpsData) (timestamp : option Time)
            (now : R * R) (m : NavSatFix) (a : R),
       publishGPSData st gpsData timestamp now =
         (true, publish st (On_mobile_sensor_gps m)) ->
       gps_accuracy gpsData = JNum a ->
       nth_error (position_covariance m) 0 = Some (a * a)).
Proof.
  intros claim.
  destruct (publishGPSData_published Samples.ready_node
              Samples.gps_sample_accuracy_0 None (0, 0))
    as (m & Hm & Hcov & _).
  specialize (claim Samples.ready_node Samples.gps_sample_accuracy_0 None
                (0, 0) m 0 Hm eq_refl).
  rewrite Hcov in claim.
  cbn [Samples.gps_sample_accuracy_0 gps_accuracy nth_error] in claim.
  rewrite (or_default_falsy (JNum 0) 1 truthy_num_zero) in claim.
  injection claim as claim. lra.
Qed.

(** C3, amended.  Every geo-fix passed to [publishGPSData] while the
    GPS publisher exists is published as one NavSatFix message whose
    position covariance is [v,0,0, 0,v,0, 0,0,v]; [v] is the square of
    the accuracy when that is a non-zero number, and 1 when the accuracy
    is zero, [null], [undefined] or NaN.  The altitude is the one of the
    input when that is a number and 0 when it is [null], [undefined] or
    NaN; the status is 0 and the service 1.  Without the publisher the
    call returns [false] and publishes nothing. *)
Theorem publishGPSData_covariance_altitude_status :
  forall (st : node) (gpsData : GpsData) (timestamp : option Time)
         (now : R * R),
  exists (m : NavSatFix) (v : R),
    publishGPSData st gpsData timestamp now =
      (if gps (publishers st)
       then (true, {| publishers := publishers st;
                      bus := bus st ++ [On_mobile_sensor_gps m] |})
       else (false, st)) /\
    position_covariance m = [v; 0; 0; 0; v; 0; 0; 0; v] /\
    (forall a, gps_accuracy gpsData = JNum a -> a <> 0 -> v = a * a) /\
    (gps_accuracy gpsData = JNum 0 \/ gps_accuracy gpsData = JNull \/
     gps_accuracy gpsData = JUndefined \/ gps_accuracy gpsData = JNaN ->
     v = 1) /\
    (forall x, gps_altitude gpsData = JNum x -> altitude m = x) /\
    (gps_altitude gpsData = JNull \/ gps_altitude gpsData = JUndefined \/
     gps_altitude gpsData = JNaN -> altitude m = 0) /\
    status (fix_status m) = 0%Z /\ service (fix_status m) = 1%Z.
Proof.
  intros st gpsData timestamp now.
  destruct (publishGPSData_published st gpsData timestamp now)
    as (m & Hm & Hcov & Halt & Hst).
  exists m, (or_default (gps_accuracy gpsData) 1 *
             or_default (gps_accuracy gpsData) 1).
  split; [exact Hm |]. split; [exact Hcov |].
  split; [| split; [| split; [| split; [| split]]]].
  - intros a Ha Hnz. rewrite Ha, (or_default_nonzero 1 Hnz). reflexivity.
  - intros [H | [H | [H | H]]]; rewrite H.
    + rewrite (or_default_falsy (JNum 0) 1 truthy_num_zero). lra.
    + unfold or_default; simpl. lra.
    + unfold or_default; simpl. lra.
    + unfold or_default; simpl. lra.
  - intros x Hx. rewrite Halt, Hx. reflexivity.
  - intros [H | [H | H]]; rewrite Halt, H; reflexivity.
  - rewrite Hst. reflexivity.
  - rewrite Hst. reflexivity.
Qed.

(** The theorem at a geo-fix with accuracy 5 and altitude 35. *)
Lemma publishGPSData_covariance_witness :
  exists (m : NavSatFix),
    publishGPSData Samples.ready_node Samples.gps_sample None (0, 0) =
      (true, {| publishers := all_publishers;
                bus := [On_mobile_sensor_gps m] |}) /\
    position_covariance m = [5 * 5; 0; 0; 0; 5 * 5; 0; 0; 0; 5 * 5] /\
    altitude m = 35.
Proof.
  destruct (publishGPSData_covariance_altitude_status
              Samples.ready_node Samples.gps_sample None (0, 0))
    as (m & v & Hm & Hcov & Hv & _ & Halt & _).
  exists m. split; [exact Hm |]. split.
  - rewrite Hcov. rewrite (Hv 5 eq_refl); [reflexivity | lra].
  - apply (Halt 35). reflexivity.
Defined.

(** The same sample through the [message] handler of the GPS channel:
    what reaches the bus has the variance 1, although the accuracy sent
    is 0. *)
Lemma setupGPSHandlers_accuracy_zero (now : R * R) :
  exists m : NavSatFix,
    snd (websocket_handlers.setupGPSHandlers_onmessage
           (Some (Some Samples.gps_sample_accuracy_0)) now
           {| websocket_handlers.node := Samples.ready_node;
              websocket_handlers.log := [] |}) =
      {| websocket_handlers.node :=
           {| publishers := all_publishers;
              bus := [On_mobile_sensor_gps m] |};
         websocket_handlers.log := [Logger.debug "GPS" "Location"] |} /\
    position_covariance m = [1; 0; 0; 0; 1; 0; 0; 0; 1].
Proof.
  unfold websocket_handlers.setupGPSHandlers_onmessage.
  unfold try_catch, ebind, lift, JSON_parse, websocket_handlers.Logger_call,
    modify, websocket_handlers.rosInterface_call.
  cbn [Samples.gps_sample_accuracy_0 gps_latitude gps_longitude gps_altitude
       gps_accuracy toFixed websocket_handlers.node websocket_handlers.log
       app].
  unfold truthy. rewrite truthy_num_zero. unfold ret.
  cbn [websocket_handlers.node websocket_handlers.log].
  destruct (publishGPSData_published Samples.ready_node
              Samples.gps_sample_accuracy_0
              (Some (websocket_handlers.stamp_of (JNum 1000) now)) now)
    as (m & Hm & Hcov & _).
  exists m. cbn [Samples.gps_sample_accuracy_0 gps_timestamp].
  change (ros_interface.gps (publishers Samples.ready_node)) with true in Hm.
  change {| gps_latitude := JNum 48; gps_longitude := JNum 2;
            gps_altitude := JNum 35; gps_accuracy := JNum 0;
            gps_heading := JNum 0; gps_speed := JNum 0;
            gps_timestamp := JNum 1000 |}
    with Samples.gps_sample_accuracy_0.
  rewrite Hm. cbn [snd]. split; [reflexivity |].
  rewrite Hcov. cbn [Samples.gps_sample_accuracy_0 gps_accuracy].
  rewrite (or_default_falsy (JNum 0) 1 truthy_num_zero).
  cbv zeta. repeat f_equal; lra.
Qed.

End GpsFacts.

(** ** Audio buffers and the WAV header *)

Section WavFacts.
Import Js DataView audioPlayer.
Local Open Scope Z_scope.

Lemma byte_unsigned_eqb (b c : byte) :
  Z.eqb (byte.unsigned b) (byte.unsigned c) = true <-> b = c.
Proof.
  rewrite Z.eqb_eq. split.
  - apply byte.unsigned_inj.
  - now intros ->.
Qed.

(** The 44 bytes [addWavHeader] puts in front of the data. *)
Lemma addWavHeader_bytes (audioData : list byte) :
  addWavHeader audioData =
  Return
    (([Byte.x52; Byte.x49; Byte.x46; Byte.x46] ++
      le_split 4 (36 + Z.of_nat (List.length audioData)) ++
      [Byte.x57; Byte.x41; Byte.x56; Byte.x45;
       Byte.x66; Byte.x6d; Byte.x74; Byte.x20] ++
      le_split 4 16 ++ le_split 2 1 ++ le_split 2 1 ++
      le_split 4 48000 ++ le_split 4 96000 ++
      le_split 2 2 ++ le_split 2 16 ++
      [Byte.x64; Byte.x61; Byte.x74; Byte.x61] ++
      le_split 4 (Z.of_nat (List.length audioData))) ++ audioData).
Proof.
  unfold addWavHeader.
  generalize (Z.of_nat (List.length audioData)) as dataSize. intros dataSize.
  cbv [setUint8 setUint16 setUint32 write ArrayBuffer repeat le_split
       List.length Nat.add Nat.leb firstn skipn app bind].
  reflexivity.
Qed.

(** The test of [processAudioData] agrees with the header notion of
    the specification. *)
Lemma processedData_cases (audioData : list byte) :
  (Spec.valid_wav_header audioData /\
   processedData audioData = Return audioData) \/
  (~ Spec.valid_wav_header audioData /\
   processedData audioData = addWavHeader audioData).
Proof.
  unfold Spec.valid_wav_header.
  destruct audioData as [| b0 [| b1 [| b2 [| b3 [| b4 [| b5 [| b6 [| b7
    [| b8 [| b9 [| b10 [| b11 rest]]]]]]]]]]]];
    try (right; split; [intros [H1 H2]; simpl in H1, H2; discriminate
                       | reflexivity]).
  unfold processedData.
  cbn [List.length Nat.leb firstn headerView_is nth_error].
  destruct (Z.eqb_spec (byte.unsigned b0) 82) as [E0 | N0];
  destruct (Z.eqb_spec (byte.unsigned b1) 73) as [E1 | N1];
  destruct (Z.eqb_spec (byte.unsigned b2) 70) as [E2 | N2];
  destruct (Z.eqb_spec (byte.unsigned b3) 70) as [E3 | N3];
  destruct (Z.eqb_spec (byte.unsigned b8) 87) as [E8 | N8];
  destruct (Z.eqb_spec (byte.unsigned b9) 65) as [E9 | N9];
  destruct (Z.eqb_spec (byte.unsigned b10) 86) as [E10 | N10];
  destruct (Z.eqb_spec (byte.unsigned b11) 69) as [E11 | N11];
  cbn [andb negb];
  try (right; split; [| reflexivity];
       intros [H1 H2]; cbn [firstn skipn] in H1, H2;
       injection H1 as -> -> -> ->; injection H2 as -> -> -> ->;
       first [now apply N0 | now apply N1 | now apply N2 | now apply N3
             | now apply N8 | now apply N9 | now apply N10 | now apply N11]).
  left. split; [| reflexivity].
  apply (byte.unsigned_inj b0 Byte.x52) in E0.
  apply (byte.unsigned_inj b1 Byte.x49) in E1.
  apply (byte.unsigned_inj b2 Byte.x46) in E2.
  apply (byte.unsigned_inj b3 Byte.x46) in E3.
  apply (byte.unsigned_inj b8 Byte.x57) in E8.
  apply (byte.unsigned_inj b9 Byte.x41) in E9.
  apply (byte.unsigned_inj b10 Byte.x56) in E10.
  apply (byte.unsigned_inj b11 Byte.x45) in E11.
  subst. split; reflexivity.
Qed.

(** Reading back a little-endian field that [le_split] wrote. *)
Lemma getUint_le_split (width : nat) (value : Z)
    (before after : list byte) :
  getUint width (before ++ le_split width value ++ after)
    (List.length before) =
  Return (value mod 2 ^ (Z.of_nat width * 8)).
Proof.
  unfold getUint.
  rewrite !length_app, length_le_split.
  replace (Nat.leb (List.length before + width)
             (List.length before + (width + List.length after)))
    with true by (symmetry; apply Nat.leb_le; lia).
  rewrite skipn_app, Nat.sub_diag, skipn_all, skipn_O, app_nil_l.
  rewrite firstn_app, length_le_split, Nat.sub_diag, firstn_O, app_nil_r.
  rewrite <- (length_le_split width value) at 1.
  rewrite firstn_all. now rewrite le_combine_split.
Qed.

(** The data-length field holds the byte length of the data modulo
    2^32, whatever the length. *)
Lemma addWavHeader_data_length_field (audioData : list byte) :
  exists header : list byte,
    addWavHeader audioData = Return (header ++ audioData) /\
    List.length header = 44%nat /\
    getUint32 (header ++ audioData) 40 =
      Return (Z.of_nat (List.length audioData) mod 2 ^ 32).
Proof.
  rewrite addWavHeader_bytes. eexists. split; [reflexivity |].
  split; [reflexivity |].
  set (n := Z.of_nat (List.length audioData)).
  pose proof (getUint_le_split 4 n
    ([Byte.x52; Byte.x49; Byte.x46; Byte.x46] ++ le_split 4 (36 + n) ++
     [Byte.x57; Byte.x41; Byte.x56; Byte.x45;
      Byte.x66; Byte.x6d; Byte.x74; Byte.x20] ++
     le_split 4 16 ++ le_split 2 1 ++ le_split 2 1 ++
     le_split 4 48000 ++ le_split 4 96000 ++
     le_split 2 2 ++ le_split 2 16 ++
     [Byte.x64; Byte.x61; Byte.x74; Byte.x61]) audioData) as G.
  change (Z.of_nat 4 * 8) with 32 in G.
  rewrite <- G. reflexivity.
Qed.

(** The framing step on its own.  A buffer that starts with the
    RIFF/WAVE header is left as it is.  Any other buffer (of less than
    2^32 bytes, the range of the length field) gets exactly 44 bytes in
    front and is itself unchanged behind them; in the result the 32-bit
    little-endian field at bytes 40-43 is the byte length of the
    original buffer, and the header describes PCM (format 1), one
    channel, 48000 Hz and 16 bits per sample, and is itself a valid
    RIFF/WAVE header. *)
Lemma processedData_wav_header :
  forall audioData : list byte,
    (Spec.valid_wav_header audioData ->
     processedData audioData = Return audioData) /\
    (~ Spec.valid_wav_header audioData ->
     Z.of_nat (List.length audioData) < 2 ^ 32 ->
     exists header : list byte,
       processedData audioData = Return (header ++ audioData) /\
       List.length header = 44%nat /\
       skipn 44 (header ++ audioData) = audioData /\
       getUint32 (header ++ audioData) 40 =
         Return (Z.of_nat (List.length audioData)) /\
       getUint16 (header ++ audioData) 20 = Return 1 /\
       getUint16 (header ++ audioData) 22 = Return 1 /\
       getUint32 (header ++ audioData) 24 = Return 48000 /\
       getUint16 (header ++ audioData) 34 = Return 16 /\
       Spec.valid_wav_header (header ++ audioData)).
Proof.
  intros audioData.
  destruct (processedData_cases audioData) as [[Hv Hp] | [Hv Hp]];
    (split; [intros H | intros H Hlen]); try contradiction; try exact Hp.
  rewrite Hp, addWavHeader_bytes.
  eexists. split; [reflexivity |].
  set (n := Z.of_nat (List.length audioData)) in *.
  split; [reflexivity |].
  split; [reflexivity |].
  split.
  { pose proof (getUint_le_split 4 n
      ([Byte.x52; Byte.x49; Byte.x46; Byte.x46] ++ le_split 4 (36 + n) ++
       [Byte.x57; Byte.x41; Byte.x56; Byte.x45;
        Byte.x66; Byte.x6d; Byte.x74; Byte.x20] ++
       le_split 4 16 ++ le_split 2 1 ++ le_split 2 1 ++
       le_split 4 48000 ++ le_split 4 96000 ++
       le_split 2 2 ++ le_split 2 16 ++
       [Byte.x64; Byte.x61; Byte.x74; Byte.x61]) audioData) as G.
    change (Z.of_nat 4 * 8) with 32 in G.
    rewrite Z.mod_small in G by (subst n; lia).
    rewrite <- G. reflexivity. }
  split; [reflexivity |].
  split; [reflexivity |].
  split; [reflexivity |].
  split; [reflexivity |].
  split; reflexivity.
Qed.

End WavFacts.

Section WavPlayerFacts.
Import Js DataView audioPlayer.
Local Open Scope Z_scope.

(** [processAudioData] returns normally and does one thing with the
    framed buffer: it appends it to the queue while audio is playing,
    and hands it to the playback routine of the platform otherwise;
    without audio elements (not on iOS) it logs an error and drops the
    buffer.  Nothing else of the player changes. *)
Lemma processAudioData_framed (audioData : list byte) (st : state) :
  exists framed : list byte,
    processedData audioData = Return framed /\
    processAudioData audioData st =
      (Return tt,
       if isIOS st
       then
         if isPlaying st
         then with_audioQueue st (audioQueue st ++ [framed])
         else with_playback st
                (playback st ++ [playAudioWithWebAudio framed])
       else
         if Nat.eqb (List.length (audioElements st)) 0
         then with_console_error st
                (console_error st ++
                 ["No audio elements created for playback"%string])
         else
           if existsb (fun audio =>
                         negb (dataset_available audio) &&
                         currentTime_positive audio &&
                         negb (paused audio) && negb (ended audio))
                      (audioElements st)
           then with_audioQueue st (audioQueue st ++ [framed])
           else with_playback st (playback st ++ [playAudioData framed])).
Proof.
  assert (Hex : exists framed, processedData audioData = Return framed).
  { destruct (processedData_cases audioData) as [[_ H] | [_ H]].
    - eauto.
    - rewrite H, addWavHeader_bytes. eauto. }
  destruct Hex as (framed & Hf). exists framed. split; [exact Hf |].
  unfold processAudioData, ebind, lift, modify. rewrite Hf. reflexivity.
Qed.

(** [processAudioData] queues or hands to playback exactly the framed
    buffer; nothing else of the player changes. *)
Lemma processAudioData_hands_over (audioData : list byte) (st : state) :
  exists framed : list byte,
    processedData audioData = Return framed /\
    (processAudioData audioData st =
       (Return tt, with_audioQueue st (audioQueue st ++ [framed])) \/
     processAudioData audioData st =
       (Return tt,
        with_playback st (playback st ++ [playAudioWithWebAudio framed])) \/
     processAudioData audioData st =
       (Return tt, with_playback st (playback st ++ [playAudioData framed])) \/
     processAudioData audioData st =
       (Return tt,
        with_console_error st
          (console_error st ++
           ["No audio elements created for playback"%string]))).
Proof.
  destruct (processAudioData_framed audioData st) as (framed & Hf & ->).
  exists framed. split; [exact Hf |].
  destruct (isIOS st).
  - destruct (isPlaying st); auto.
  - destruct (Nat.eqb (List.length (audioElements st)) 0); auto.
    destruct (existsb _ (audioElements st)); auto.
Qed.

(** C4.  [processAudioData], called with any buffer in any state of
    the player, returns normally, and the buffer [framed] that it
    queues (while audio is playing) or hands to the playback routine
    of the platform (otherwise) is the received buffer itself when
    that starts with the RIFF/WAVE header.  For any other buffer (of
    less than 2^32 bytes, the range of the length field) [framed] is
    the received buffer with exactly 44 bytes in front and unchanged
    behind them; in [framed] the 32-bit little-endian field at bytes
    40-43 is the byte length of the received buffer, and the header
    describes PCM (format 1), one channel, 48000 Hz and 16 bits per
    sample, and is itself a valid RIFF/WAVE header.  The one case in
    which the framed buffer goes nowhere is a page that is not on iOS
    and has no audio elements: an error is logged and the buffer is
    dropped. *)
Theorem processAudioData_wav_header :
  forall (audioData : list byte) (st : state),
  exists framed : list byte,
    processAudioData audioData st =
      (Return tt,
       if isIOS st
       then
         if isPlaying st
         then with_audioQueue st (audioQueue st ++ [framed])
         else with_playback st
                (playback st ++ [playAudioWithWebAudio framed])
       else
         if Nat.eqb (List.length (audioElements st)) 0
         then with_console_error st
                (console_error st ++
                 ["No audio elements created for playback"%string])
         else
           if existsb (fun audio =>
                         negb (dataset_available audio) &&
                         currentTime_positive audio &&
                         negb (paused audio) && negb (ended audio))
                      (audioElements st)
           then with_audioQueue st (audioQueue st ++ [framed])
           else with_playback st (playback st ++ [playAudioData framed])) /\
    processedData audioData = Return framed /\
    (Spec.valid_wav_header audioData -> framed = audioData) /\
    (~ Spec.valid_wav_header audioData ->
     Z.of_nat (List.length audioData) < 2 ^ 32 ->
     exists header : list byte,
       framed = header ++ audioData /\
       List.length header = 44%nat /\
       skipn 44 framed = audioData /\
       getUint32 framed 40 = Return (Z.of_nat (List.length audioData)) /\
       getUint16 framed 20 = Return 1 /\
       getUint16 framed 22 = Return 1 /\
       getUint32 framed 24 = Return 48000 /\
       getUint16 framed 34 = Return 16 /\
       Spec.valid_wav_header framed).
Proof.
  intros audioData st.
  destruct (processAudioData_framed audioData st) as (framed & Hf & Hrun).
  exists framed. split; [exact Hrun |]. split; [exact Hf |].
  destruct (processedData_wav_header audioData) as [Hvalid Hraw].
  split.
  - intros Hv. specialize (Hvalid Hv). congruence.
  - intros Hv Hlen.
    destruct (Hraw Hv Hlen)
      as (header & Hp & H1 & H2 & H3 & H4 & H5 & H6 & H7 & H8).
    assert (E : framed = header ++ audioData) by congruence.
    exists header. rewrite E.
    split; [reflexivity |].
    split; [exact H1 |]. split; [exact H2 |]. split; [exact H3 |].
    split; [exact H4 |]. split; [exact H5 |]. split; [exact H6 |].
    split; [exact H7 | exact H8].
Qed.

(** The theorem at three raw bytes that reach an iPhone while nothing
    is playing: the buffer handed to WebAudio is the 44-byte header
    followed by the three bytes, with the length field 3. *)
Lemma processAudioData_wav_header_witness :
  exists framed header : list byte,
    processAudioData [Byte.x01; Byte.x02; Byte.x03] Scenarios.idle_player =
      (Return tt,
       with_playback Scenarios.idle_player
         [playAudioWithWebAudio framed]) /\
    framed = header ++ [Byte.x01; Byte.x02; Byte.x03] /\
    List.length header = 44%nat /\
    getUint32 framed 40 = Return 3.
Proof.
  destruct (processAudioData_wav_header [Byte.x01; Byte.x02; Byte.x03]
              Scenarios.idle_player)
    as (framed & Hrun & _ & _ & Hraw).
  destruct Hraw as (header & H1 & H2 & _ & H4 & _).
  - intros [H _]. discriminate H.
  - reflexivity.
  - exists framed, header.
    split; [exact Hrun |]. split; [exact H1 |]. split; [exact H2 | exact H4].
Defined.

End WavPlayerFacts.

(** ** Fan-out from the bus to the browser *)

Section FanOutFacts.
Import WebSocket ros_interface.

Lemma forEach_fst {S : Type} (clients : list ws.client)
    (f : ws.client -> S -> ws.client * S) (g : ws.client -> ws.client)
    (s : S) :
  (forall c s', fst (f c s') = g c) ->
  fst (ws.forEach clients f s) = map g clients.
Proof.
  intros Hf. revert s.
  induction clients as [| c rest IH]; intros s; simpl; [reflexivity |].
  specialize (Hf c s). destruct (f c s) as [c' s'].
  specialize (IH s'). destruct (ws.forEach rest f s') as [rest' s''].
  simpl in *. now rewrite Hf, IH.
Qed.

Lemma send_is_sent_to (f : frame) (c : ws.client) :
  (if is_open (ws.readyState c) then ws.send c f else c) = Spec.sent_to f c.
Proof.
  unfold ws.send, Spec.sent_to.
  destruct c as [[] dl]; reflexivity.
Qed.

Lemma send_to_open_clients_fan_out (buffer : list byte)
    (clients : list ws.client) :
  fst (send_to_open_clients buffer clients) =
  Spec.fan_out (Binary buffer) clients.
Proof.
  unfold send_to_open_clients, Spec.fan_out.
  apply forEach_fst. intros c s'.
  rewrite <- send_is_sent_to.
  destruct (is_open (ws.readyState c)); reflexivity.
Qed.

Lemma on_mobile_sensor_tts_fan_out (text : string)
    (clients : list ws.client) :
  fst (on_mobile_sensor_tts text clients) = Spec.fan_out (Text text) clients.
Proof.
  unfold on_mobile_sensor_tts, Spec.fan_out.
  rewrite <- (forEach_fst clients
                (fun client (u : unit) =>
                   if is_open (ws.readyState client)
                   then (ws.send client (Text text), u)
                   else (client, u))
                (Spec.sent_to (Text text)) tt).
  - destruct (ws.forEach clients _ tt); reflexivity.
  - intros c s'. rewrite <- send_is_sent_to.
    destruct (is_open (ws.readyState c)); reflexivity.
Qed.

Lemma on_mobile_sensor_tts_wav_fan_out (data : list byte)
    (clients : list ws.client) :
  fst (on_mobile_sensor_tts_wav data clients) =
  Spec.fan_out (Binary data) clients.
Proof.
  unfold on_mobile_sensor_tts_wav, Buffer_from.
  rewrite <- send_to_open_clients_fan_out.
  destruct (send_to_open_clients data clients); reflexivity.
Qed.

Lemma on_mobile_sensor_wav_bytes_fan_out (data : list byte)
    (clients : list ws.client) :
  fst (on_mobile_sensor_wav_bytes data clients) =
  Spec.fan_out (Binary data) clients.
Proof.
  unfold on_mobile_sensor_wav_bytes, Buffer_from.
  rewrite <- send_to_open_clients_fan_out.
  destruct (send_to_open_clients data clients); reflexivity.
Qed.

(** A peer in open state has the message as the last thing delivered;
    a peer in any other state is untouched. *)
Lemma fan_out_peer (f : frame) (peers : list ws.client) (i : nat)
    (peer : ws.client) :
  nth_error peers i = Some peer ->
  nth_error (Spec.fan_out f peers) i =
    Some (if is_open (ws.readyState peer)
          then {| ws.readyState := OPEN;
                  ws.delivered := ws.delivered peer ++ [f] |}
          else peer).
Proof.
  intros H. unfold Spec.fan_out.
  rewrite nth_error_map, H. cbn [option_map]. f_equal.
  unfold Spec.sent_to. destruct (ws.readyState peer); reflexivity.
Qed.

(** C6.  A text message of the bus goes, as the literal payload, to
    every peer of the speech channel that is open at that moment, and a
    byte message of either audio topic goes likewise to every open peer
    of the audio channel; peers in another state are skipped and left
    as they are, and the two audio subscriptions do the same thing.  A
    peer that connects afterwards joins with only the greeting of its
    channel: it has nothing of that send. *)
Theorem bus_to_browser_fan_out :
  forall (text : string) (data : list byte) (peers : list ws.client),
    fst (on_mobile_sensor_tts text peers) = Spec.fan_out (Text text) peers /\
    fst (on_mobile_sensor_tts_wav data peers) =
      Spec.fan_out (Binary data) peers /\
    fst (on_mobile_sensor_wav_bytes data peers) =
      Spec.fan_out (Binary data) peers /\
    websocket_handlers.setupTTSHandlers_onconnection
      (fst (on_mobile_sensor_tts text peers)) =
      Spec.fan_out (Text text) peers ++
      [{| ws.readyState := OPEN;
          ws.delivered := [Text "TTS system ready"] |}] /\
    websocket_handlers.setupWavAudioHandlers_onconnection
      (fst (on_mobile_sensor_tts_wav data peers)) =
      Spec.fan_out (Binary data) peers ++
      [{| ws.readyState := OPEN;
          ws.delivered :=
            [Stringified
               (JObj [("status"%string, JStr "connected");
                      ("message"%string, JStr "Ready to receive audio data");
                      ("sessionState"%string, JStr "active")])] |}].
Proof.
  intros text data peers.
  rewrite on_mobile_sensor_tts_fan_out, on_mobile_sensor_tts_wav_fan_out,
    on_mobile_sensor_wav_bytes_fan_out.
  repeat split; reflexivity.
Qed.

(** C10.  For a byte message of either audio topic the server hands to
    every open peer the very bytes of the message, whether or not they
    start with a RIFF/WAVE header; the header test only picks the text
    of a log line.  The 44 bytes are added in the browser, right before
    playback: when these bytes arrive as a binary message,
    [processAudioData] queues (while audio is playing) or hands to the
    playback routine of the platform a buffer [framed] that is the
    message itself when it starts with the header, and the message
    behind 44 more bytes otherwise; the [message] handler of the
    player does just that in an active session and nothing at all in
    an inactive one. *)
Theorem wav_bytes_forwarded_verbatim :
  forall (data : list byte) (peers : list ws.client)
         (player : audioPlayer.state),
    fst (on_mobile_sensor_tts_wav data peers) =
      Spec.fan_out (Binary data) peers /\
    fst (on_mobile_sensor_wav_bytes data peers) =
      Spec.fan_out (Binary data) peers /\
    (forall (i : nat) (peer : ws.client),
       nth_error peers i = Some peer ->
       ws.readyState peer = OPEN ->
       nth_error (fst (on_mobile_sensor_wav_bytes data peers)) i =
         Some {| ws.readyState := OPEN;
                 ws.delivered := ws.delivered peer ++ [Binary data] |}) /\
    audioPlayer.ws_onmessage (Binary data) player =
      (if audioPlayer.isSessionActive player
       then audioPlayer.processAudioData data player
       else (Js.Return tt, player)) /\
    exists framed : list byte,
      audioPlayer.processedData data = Js.Return framed /\
      (Spec.valid_wav_header data -> framed = data) /\
      (~ Spec.valid_wav_header data ->
       List.length framed = (44 + List.length data)%nat /\
       skipn 44 framed = data) /\
      audioPlayer.processAudioData data player =
        (Js.Return tt,
       if audioPlayer.isIOS player
       then
         if audioPlayer.isPlaying player
         then audioPlayer.with_audioQueue player
                (audioPlayer.audioQueue player ++ [framed])
         else audioPlayer.with_playback player
                (audioPlayer.playback player ++
                 [audioPlayer.playAudioWithWebAudio framed])
       else
         if Nat.eqb (List.length (audioPlayer.audioElements player)) 0
         then audioPlayer.with_console_error player
                (audioPlayer.console_error player ++
                 ["No audio elements created for playback"%string])
         else
           if existsb (fun audio =>
                         negb (audioPlayer.dataset_available audio) &&
                         audioPlayer.currentTime_positive audio &&
                         negb (audioPlayer.paused audio) && negb (audioPlayer.ended audio))
                      (audioPlayer.audioElements player)
           then audioPlayer.with_audioQueue player
                (audioPlayer.audioQueue player ++ [framed])
           else audioPlayer.with_playback player
                  (audioPlayer.playback player ++
                   [audioPlayer.playAudioData framed])) /\
      (audioPlayer.isSessionActive player = true ->
       audioPlayer.ws_onmessage (Binary data) player =
         (Js.Return tt,
       if audioPlayer.isIOS player
       then
         if audioPlayer.isPlaying player
         then audioPlayer.with_audioQueue player
                (audioPlayer.audioQueue player ++ [framed])
         else audioPlayer.with_playback player
                (audioPlayer.playback player ++
                 [audioPlayer.playAudioWithWebAudio framed])
       else
         if Nat.eqb (List.length (audioPlayer.audioElements player)) 0
         then audioPlayer.with_console_error player
                (audioPlayer.console_error player ++
                 ["No audio elements created for playback"%string])
         else
           if existsb (fun audio =>
                         negb (audioPlayer.dataset_available audio) &&
                         audioPlayer.currentTime_positive audio &&
                         negb (audioPlayer.paused audio) && negb (audioPlayer.ended audio))
                      (audioPlayer.audioElements player)
           then audioPlayer.with_audioQueue player
                (audioPlayer.audioQueue player ++ [framed])
           else audioPlayer.with_playback player
                  (audioPlayer.playback player ++
                   [audioPlayer.playAudioData framed]))) /\
      (audioPlayer.isSessionActive player = false ->
       audioPlayer.ws_onmessage (Binary data) player =
         (Js.Return tt, player)).
Proof.
  intros data peers player.
  split; [apply on_mobile_sensor_tts_wav_fan_out |].
  split; [apply on_mobile_sensor_wav_bytes_fan_out |].
  split.
  { intros i peer Hi Hopen.
    rewrite on_mobile_sensor_wav_bytes_fan_out, (fan_out_peer _ _ _ Hi).
    rewrite Hopen. reflexivity. }
  assert (Hmsg : audioPlayer.ws_onmessage (Binary data) player =
                 (if audioPlayer.isSessionActive player
                  then audioPlayer.processAudioData data player
                  else (Js.Return tt, player))).
  { unfold audioPlayer.ws_onmessage.
    destruct (audioPlayer.isSessionActive player); reflexivity. }
  split; [exact Hmsg |].
  destruct (processAudioData_framed data player) as (framed & Hf & Hrun).
  exists framed. split; [exact Hf |].
  assert (Hshape :
            (Spec.valid_wav_header data -> framed = data) /\
            (~ Spec.valid_wav_header data ->
             List.length framed = (44 + List.length data)%nat /\
             skipn 44 framed = data)).
  { destruct (processedData_cases data) as [[Hv Hp] | [Hv Hp]].
    - split; [intros _; congruence | intros H; contradiction].
    - destruct (addWavHeader_data_length_field data)
        as (header & Ha & Hl & _).
      assert (E : framed = header ++ data) by congruence.
      split; [intros H; contradiction |].
      intros _. rewrite E. split.
      + rewrite length_app, Hl. reflexivity.
      + rewrite <- Hl, skipn_app, skipn_all, Nat.sub_diag. reflexivity. }
  destruct Hshape as [Hvalid Hraw].
  split; [exact Hvalid |]. split; [exact Hraw |].
  split; [exact Hrun |].
  split; intros Hact; rewrite Hmsg, Hact; [exact Hrun | reflexivity].
Qed.

End FanOutFacts.

(** ** Sends on a channel that is not open *)

Section SendFacts.
Import WebSocket Js.

Lemma sendSensorData_not_open (m : IMUSensorManager.t) (timestamp : R)
    (h : BrowserWebSocket.heap) (console : list string) :
  BrowserWebSocket.is_open_ref h (IMUSensorManager.ws_or_websocket m) =
    false ->
  IMUSensorManager.sendSensorData m timestamp (h, console) =
  (Return tt, (h, console)).
Proof.
  intros H. unfold IMUSensorManager.sendSensorData. cbv beta iota zeta.
  rewrite H, orb_true_r. reflexivity.
Qed.

Lemma sendGPSData_not_open (m : GPSSensorManager.t)
    (h : BrowserWebSocket.heap) (console : list string) :
  BrowserWebSocket.is_open_ref h (GPSSensorManager.ws m) = false ->
  GPSSensorManager.sendGPSData m (h, console) = (Return tt, (h, console)).
Proof.
  intros H. unfold GPSSensorManager.sendGPSData. cbv beta iota zeta.
  rewrite H, orb_true_r. reflexivity.
Qed.

Lemma assign_nth_error {A : Type} (l : list A) (i : nat) (a b : A) :
  nth_error l i = Some a -> nth_error (assign l i b) i = Some b.
Proof.
  revert i. induction l as [| x l IH]; intros [| i] H; simpl in *;
    try discriminate; [reflexivity | now apply IH].
Qed.

(** camera.js tests the socket before it awaits the encoding of the
    frame.  When the socket is closed in the meantime the send still
    returns normally and the frame is dropped, not transmitted. *)
Lemma processFrames_step_closed_meanwhile
    (i : nat) (w w' : BrowserWebSocket.socket) (timestamp : R)
    (frame : string) (width height : R)
    (after_await : BrowserWebSocket.heap -> BrowserWebSocket.heap)
    (h : BrowserWebSocket.heap) (console : list string) :
  nth_error h i = Some w ->
  BrowserWebSocket.readyState w = OPEN ->
  nth_error (after_await h) i = Some w' ->
  BrowserWebSocket.readyState w' = CLOSING \/
  BrowserWebSocket.readyState w' = CLOSED ->
  exists h' w'',
    CameraManager.processFrames_step (Some i) timestamp frame width
      height after_await (h, console) = (Return tt, (h', console)) /\
    nth_error h' i = Some w'' /\
    BrowserWebSocket.sent w'' = BrowserWebSocket.sent w'.
Proof.
  intros Hw Ho Hw' Hc.
  unfold CameraManager.processFrames_step. cbv beta iota zeta.
  unfold BrowserWebSocket.is_open_ref, BrowserWebSocket.send_ref,
    BrowserWebSocket.deref.
  rewrite Hw, Ho. cbn [is_open]. rewrite Hw'.
  unfold BrowserWebSocket.send.
  destruct Hc as [Hc | Hc]; rewrite Hc; cbn [bind];
    eexists; eexists; (split; [reflexivity |]);
    (split; [apply (assign_nth_error _ _ _ Hw') | reflexivity]).
Qed.

Lemma forEach_snd_count (clients : list ws.client) :
  Spec.none_open clients ->
  forall n : nat,
    snd (ws.forEach clients
           (fun client count =>
              if is_open (ws.readyState client)
              then (client, S count)
              else (client, count)) n) = n.
Proof.
  induction 1 as [| c rest Hc _ IH]; intros n; simpl; [reflexivity |].
  destruct (ws.readyState c); try (now elim Hc); simpl;
    specialize (IH n); destruct (ws.forEach rest _ n); exact IH.
Qed.

Lemma fan_out_none_open (f : frame) (peers : list ws.client) :
  Spec.none_open peers -> Spec.fan_out f peers = peers.
Proof.
  unfold Spec.fan_out.
  induction 1 as [| c rest Hc _ IH]; simpl; [reflexivity |].
  rewrite IH. f_equal. unfold Spec.sent_to.
  destruct (ws.readyState c); try reflexivity. now elim Hc.
Qed.

Lemma send_to_open_clients_none_open (buffer : list byte)
    (peers : list ws.client) :
  Spec.none_open peers ->
  ros_interface.send_to_open_clients buffer peers = (peers, O).
Proof.
  intros H.
  pose proof (send_to_open_clients_fan_out buffer peers) as Hf.
  rewrite (fan_out_none_open _ H) in Hf.
  assert (Hs : snd (ros_interface.send_to_open_clients buffer peers) = O).
  { unfold ros_interface.send_to_open_clients. clear Hf.
    generalize O.
    induction H as [| c rest Hc _ IH]; intros n; simpl; [reflexivity |].
    destruct (ws.readyState c) eqn:E; try (now elim Hc); simpl;
      specialize (IH n); destruct (ws.forEach rest _ n); exact IH. }
  destruct (ros_interface.send_to_open_clients buffer peers); simpl in *.
  now subst.
Qed.

(** C7.  A send on a channel whose socket is missing or not in open
    state does nothing.  On the producer side the IMU, GPS, camera,
    pose and speech senders return normally and leave every socket of
    the page as it was (nothing transmitted, nothing handed to the
    socket) and the console without a new error; a camera frame whose
    socket closes while the frame is encoded is dropped by the socket
    without an exception.  On the server side,
    a bus message for a channel none of whose peers is open (in
    particular a channel without peers) leaves every peer as it was and
    counts no delivery. *)
Theorem send_when_not_open_is_noop :
  (forall (m : IMUSensorManager.t) (timestamp : R)
          (h : BrowserWebSocket.heap) (console : list string),
     BrowserWebSocket.is_open_ref h (IMUSensorManager.ws_or_websocket m) =
       false ->
     IMUSensorManager.sendSensorData m timestamp (h, console) =
       (Return tt, (h, console))) /\
  (forall (m : GPSSensorManager.t) (h : BrowserWebSocket.heap)
          (console : list string),
     BrowserWebSocket.is_open_ref h (GPSSensorManager.ws m) = false ->
     GPSSensorManager.sendGPSData m (h, console) =
       (Return tt, (h, console))) /\
  (forall (r : BrowserWebSocket.ref) (timestamp : R) (frame : string)
          (width height : R) (after_await : BrowserWebSocket.heap ->
                                           BrowserWebSocket.heap)
          (video_ready has_size : bool)
          (h : BrowserWebSocket.heap) (console : list string),
     BrowserWebSocket.is_open_ref h r = false ->
     CameraManager.processFrames_step r timestamp frame width height
       after_await (h, console) = (Return tt, (h, console)) /\
     CameraManager.captureInterval_tick r video_ready has_size timestamp
       frame width height (h, console) = (Return tt, (h, console))) /\
  (forall (i : nat) (w w' : BrowserWebSocket.socket) (timestamp : R)
          (frame : string) (width height : R)
          (after_await : BrowserWebSocket.heap -> BrowserWebSocket.heap)
          (h : BrowserWebSocket.heap) (console : list string),
     nth_error h i = Some w ->
     BrowserWebSocket.readyState w = OPEN ->
     nth_error (after_await h) i = Some w' ->
     BrowserWebSocket.readyState w' = CLOSING \/
     BrowserWebSocket.readyState w' = CLOSED ->
     exists h' w'',
       CameraManager.processFrames_step (Some i) timestamp frame width
         height after_await (h, console) = (Return tt, (h', console)) /\
       nth_error h' i = Some w'' /\
       BrowserWebSocket.sent w'' = BrowserWebSocket.sent w') /\
  (forall (timestamp : R) (position : R * R * R)
          (orientation : R * R * R * R) (st : main.state),
     BrowserWebSocket.is_open_ref (main.heap st) (main.poseWs st) = false ->
     main.onXRFrame_send timestamp position orientation st = Return st) /\
  (forall (r : BrowserWebSocket.ref) (now : R) (prompt : string)
          (h : BrowserWebSocket.heap),
     BrowserWebSocket.is_open_ref h r = false ->
     SpeechRecognitionManager.send_prompt r now prompt h = Return h) /\
  (forall (text : string) (data : list byte) (peers : list ws.client),
     Spec.none_open peers ->
     fst (ros_interface.on_mobile_sensor_tts text peers) = peers /\
     ros_interface.activeClientCount peers = O /\
     ros_interface.send_to_open_clients data peers = (peers, O) /\
     ros_interface.on_mobile_sensor_tts_wav data peers = (peers, []) /\
     ros_interface.on_mobile_sensor_wav_bytes data peers = (peers, [])) /\
  (forall (text : string) (data : list byte),
     fst (ros_interface.on_mobile_sensor_tts text []) = [] /\
     ros_interface.on_mobile_sensor_tts_wav data [] = ([], []) /\
     ros_interface.on_mobile_sensor_wav_bytes data [] = ([], [])).
Proof.
  split; [exact sendSensorData_not_open |].
  split; [exact sendGPSData_not_open |].
  split.
  { intros r timestamp frame width height after_await video_ready has_size
           h console H.
    unfold CameraManager.processFrames_step,
      CameraManager.captureInterval_tick.
    cbv beta iota zeta. rewrite H. split; reflexivity. }
  split; [exact processFrames_step_closed_meanwhile |].
  split.
  { intros timestamp position orientation st H.
    unfold main.onXRFrame_send. rewrite H. reflexivity. }
  split.
  { intros r now prompt h H.
    unfold SpeechRecognitionManager.send_prompt. rewrite H. reflexivity. }
  split.
  { intros text data peers H.
    split; [rewrite on_mobile_sensor_tts_fan_out;
            apply (fan_out_none_open _ H) |].
    split; [apply (forEach_snd_count H) |].
    split; [apply (send_to_open_clients_none_open _ H) |].
    unfold ros_interface.on_mobile_sensor_tts_wav,
      ros_interface.on_mobile_sensor_wav_bytes, ros_interface.Buffer_from.
    rewrite (send_to_open_clients_none_open _ H). split; reflexivity. }
  intros text data. repeat split; reflexivity.
Qed.

(** The theorem at an IMU manager whose socket is closed and at a
    channel whose only peer is closing. *)
Lemma send_when_not_open_witness :
  IMUSensorManager.sendSensorData Samples.imu_manager 1000
    (Samples.closed_heap, []) = (Return tt, (Samples.closed_heap, [])) /\
  fst (ros_interface.on_mobile_sensor_tts "Hello" [Samples.closing_peer]) =
    [Samples.closing_peer] /\
  ros_interface.on_mobile_sensor_wav_bytes [Byte.x01] [Samples.closing_peer] =
    ([Samples.closing_peer], []).
Proof.
  destruct send_when_not_open_is_noop
    as (Himu & _ & _ & _ & _ & _ & Hsrv & _).
  split.
  - apply Himu. reflexivity.
  - assert (Hn : Spec.none_open [Samples.closing_peer]).
    { constructor; [discriminate | constructor]. }
    destruct (Hsrv "Hello"%string [Byte.x01] [Samples.closing_peer] Hn)
      as (H1 & _ & _ & _ & H5).
    split; assumption.
Defined.

End SendFacts.

Section FanOutWitness.
Import WebSocket.

(** The theorem at three raw bytes sent to an open and a closing peer,
    the open peer being an iPhone on which nothing is playing: the
    peer gets the three bytes, and its player hands 47 bytes to
    WebAudio, the last three of them being the message. *)
Lemma wav_bytes_forwarded_witness :
  nth_error
    (fst (ros_interface.on_mobile_sensor_wav_bytes
            [Byte.x01; Byte.x02; Byte.x03]
            [Samples.open_peer; Samples.closing_peer])) 0 =
    Some {| ws.readyState := OPEN;
            ws.delivered := [Binary [Byte.x01; Byte.x02; Byte.x03]] |} /\
  exists framed : list byte,
    audioPlayer.ws_onmessage (Binary [Byte.x01; Byte.x02; Byte.x03])
      Scenarios.idle_player =
      (Js.Return tt,
       audioPlayer.with_playback Scenarios.idle_player
         [audioPlayer.playAudioWithWebAudio framed]) /\
    List.length framed = 47%nat /\
    skipn 44 framed = [Byte.x01; Byte.x02; Byte.x03].
Proof.
  destruct (wav_bytes_forwarded_verbatim [Byte.x01; Byte.x02; Byte.x03]
              [Samples.open_peer; Samples.closing_peer]
              Scenarios.idle_player)
    as (_ & _ & Hpeer & _ & framed & _ & _ & Hraw & _ & Hactive & _).
  split.
  - apply (Hpeer 0%nat Samples.open_peer); reflexivity.
  - exists framed. split; [exact (Hactive eq_refl) |].
    apply Hraw. intros [H _]. discriminate H.
Defined.

End FanOutWitness.

(** ** Reconnection after a close *)

Section ReconnectFacts.
Import WebSocket.

Lemma main_onclose_timers (c : main.channel) (st : main.state) :
  main.timers (main.onclose c st) =
  main.timers st ++
  (if main.isSessionActive st then [(1000%Z, main.reconnect c)] else []).
Proof.
  destruct c; unfold main.onclose, main.poseWs_onclose,
    main.cameraWs_onclose, main.microphoneWs_onclose, main.imuWs_onclose,
    main.gpsWs_onclose, main.schedule_reconnect;
    cbv zeta;
    try destruct (main.window_imuSensorManager _);
    try destruct (main.window_gpsSensorManager _);
    cbn [main.updateConnectionStatus main.set_window_cameraWs
         main.set_managers main.isSessionActive main.timers];
    destruct (main.isSessionActive st);
    cbn [main.setTimeout main.timers]; try reflexivity;
    now rewrite app_nil_r.
Qed.

Lemma main_connect_heap (c : main.channel) (st : main.state) :
  main.heap (main.connect c st) = main.heap st ++ [BrowserWebSocket.fresh].
Proof.
  destruct c; unfold main.connect, main.connectPoseWebSocket,
    main.connectCameraWebSocket, main.connectMicrophoneWebSocket,
    main.connectIMUWebSocket, main.connectGPSWebSocket;
    cbv zeta;
    try destruct (main.window_imuSensorManager _);
    try destruct (main.window_gpsSensorManager _);
    reflexivity.
Qed.

(** C5 as stated fails on the wav-audio channel: with the session
    active and audio enabled, the close of its socket schedules the
    reconnect after 3000 ms, not 1000 ms. *)
Lemma wav_audio_reconnect_delay_counterexample :
  ~ (forall st : audioPlayer.state,
       audioPlayer.isSessionActive st = true ->
       audioPlayer.audioConfig_enabled st = true ->
       audioPlayer.timers (audioPlayer.ws_onclose st) =
         audioPlayer.timers st ++
         [(1000%Z, audioPlayer.Callback_connectWebSocket)]).
Proof.
  intros claim.
  specialize (claim Samples.audio_player eq_refl eq_refl).
  discriminate claim.
Qed.

(** C5, amended.  For each of the five sockets of the main script
    (pose, camera, microphone, IMU, GPS) a close while the session is
    active schedules exactly one reconnect, 1000 ms later, and none
    while it is inactive; when that timer fires after the sensor was
    disabled or the session ended it changes nothing, and otherwise it
    opens one new socket.  The speech socket schedules exactly one
    reconnect 1000 ms later, and the wav-audio socket exactly one 3000
    ms later, each when its own auto-reconnect flag is on and none when
    it is off; a wav-audio reconnect that fires while wav audio is
    disabled in the configuration changes nothing. *)
Theorem reconnect_after_close :
  (forall (c : main.channel) (st : main.state),
     (main.isSessionActive st = true ->
      main.timers (main.onclose c st) =
        main.timers st ++ [(1000%Z, main.reconnect c)]) /\
     (main.isSessionActive st = false ->
      main.timers (main.onclose c st) = main.timers st) /\
     (main.enabled (main.enabledSensors st) c = false \/
      main.isSessionActive st = false ->
      main.run (main.reconnect c) st = st) /\
     (main.enabled (main.enabledSensors st) c = true ->
      main.isSessionActive st = true ->
      main.run (main.reconnect c) st = main.connect c st /\
      main.heap (main.connect c st) =
        main.heap st ++ [BrowserWebSocket.fresh])) /\
  (forall st : TextToSpeech.t,
     TextToSpeech.timers (TextToSpeech.ws_onclose st) =
     TextToSpeech.timers st ++
     (if TextToSpeech.autoReconnect st
      then [(1000%Z, TextToSpeech.Callback_connectWebSocket)]
      else [])) /\
  (forall st : audioPlayer.state,
     audioPlayer.timers (audioPlayer.ws_onclose st) =
       audioPlayer.timers st ++
       (if audioPlayer.autoReconnect st
        then [(3000%Z, audioPlayer.Callback_connectWebSocket)]
        else []) /\
     (audioPlayer.audioConfig_enabled st = false \/
      audioPlayer.audioConfig_mode st <> "wav"%string ->
      audioPlayer.run audioPlayer.Callback_connectWebSocket st = st)).
Proof.
  split; [| split].
  - intros c st. split; [| split; [| split]].
    + intros H. rewrite main_onclose_timers, H. reflexivity.
    + intros H. rewrite main_onclose_timers, H. apply app_nil_r.
    + intros [H | H]; unfold main.run; rewrite H;
        [reflexivity | now rewrite andb_false_r].
    + intros He Ha. unfold main.run. rewrite He, Ha.
      split; [reflexivity | apply main_connect_heap].
  - intros st. unfold TextToSpeech.ws_onclose. cbn [TextToSpeech.timers].
    destruct (TextToSpeech.autoReconnect st);
      [reflexivity | now rewrite app_nil_r].
  - intros st. split.
    + unfold audioPlayer.ws_onclose. cbv zeta.
      cbn [audioPlayer.with_ui_status audioPlayer.autoReconnect
           audioPlayer.timers].
      destruct (audioPlayer.autoReconnect st);
        cbn [audioPlayer.with_timers audioPlayer.with_ui_status
             audioPlayer.timers];
        [reflexivity | now rewrite app_nil_r].
    + intros [H | H]; unfold audioPlayer.run, audioPlayer.connectWebSocket.
      * rewrite H. now rewrite orb_true_r.
      * apply String.eqb_neq in H. now rewrite H.
Qed.

(** The theorem at the camera socket of an active and of an ended
    session, and at the audio player. *)
Lemma reconnect_after_close_witness :
  main.timers (main.onclose main.camera (Samples.main_state true)) =
    [(1000%Z, main.reconnect main.camera)] /\
  main.run (main.reconnect main.camera) (Samples.main_state false) =
    Samples.main_state false /\
  main.heap (main.run (main.reconnect main.camera)
               (Samples.main_state true)) = [BrowserWebSocket.fresh] /\
  audioPlayer.timers (audioPlayer.ws_onclose Samples.audio_player) =
    [(3000%Z, audioPlayer.Callback_connectWebSocket)].
Proof.
  destruct reconnect_after_close as (Hmain & _ & Hwav).
  destruct (Hmain main.camera (Samples.main_state true))
    as (Hsched & _ & _ & Hfire).
  destruct (Hmain main.camera (Samples.main_state false))
    as (_ & _ & Hnoop & _).
  split; [apply Hsched; reflexivity |].
  split; [apply Hnoop; right; reflexivity |].
  split.
  - destruct (Hfire eq_refl eq_refl) as [Hrun Hheap].
    rewrite Hrun. exact Hheap.
  - apply (proj1 (Hwav Samples.audio_player)).
Defined.

(** What the amended statement leaves out: on the speech and wav-audio
    sockets a reconnect already scheduled is not cancelled by the end of
    the session.  After [disconnectWebSocket] the timer still opens a
    new socket, because neither callback looks at the session or at the
    auto-reconnect flag. *)
Lemma wav_audio_reconnect_fires_after_disconnect :
  audioPlayer.heap
    (audioPlayer.run audioPlayer.Callback_connectWebSocket
       (audioPlayer.disconnectWebSocket
          (audioPlayer.ws_onclose Samples.audio_player))) =
  Samples.closed_heap ++ [BrowserWebSocket.fresh].
Proof. reflexivity. Qed.

Lemma tts_reconnect_fires_after_disconnect :
  TextToSpeech.heap
    (TextToSpeech.run TextToSpeech.Callback_connectWebSocket
       (Some ("tts"%string, true)) true
       (TextToSpeech.disconnectWebSocket false
          (TextToSpeech.ws_onclose Samples.text_to_speech))) =
  Samples.closed_heap ++ [BrowserWebSocket.fresh].
Proof. reflexivity. Qed.

End ReconnectFacts.

(** ** Shutdown of the server process *)

Section ShutdownFacts.
Local Open Scope Z_scope.

Lemma race_with_timeout (p : Promise.promise) (now t : Z) :
  (now <= t)%Z ->
  exists t', Promise.await (Promise.race p (Some t)) now = Some t' /\
             now <= t' /\ t' <= t /\
             (forall a, p = Some a -> t' = Z.max now (Z.min a t)).
Proof.
  intros H. destruct p as [a |]; simpl.
  - eexists. split; [reflexivity |]. repeat split; try lia.
    intros a' [= <-]. reflexivity.
  - eexists. split; [reflexivity |]. repeat split; try lia.
    intros a' [=].
Qed.

(** Whatever the two steps do, also when the promise of a step is never
    resolved, the sequence reaches the exit within 3000 ms; [t1] is the
    time at which the second step is called. *)
Lemma shutdown_with_terminates
    (ros_step server_step : Z -> Promise.promise * Promise.timeline)
    (pubs : ros_interface.Publishers) (p : app.process) (now : Z) :
  exists (e : app.exited) (t1 : Z),
    app.shutdown_with ros_step server_step pubs p now = Some e /\
    now <= t1 /\ t1 <= app.exit_time e /\
    app.exit_time e <= now + 3000 /\
    app.exit_code e = 0 /\
    In (app.exit_time e,
        Logger.success "SHUTDOWN" "Application shutdown complete")
       (app.output e) /\
    (forall x, In x (snd (ros_step now)) -> fst x <= app.exit_time e ->
               In x (app.output e)) /\
    (forall x, In x (snd (server_step t1)) -> fst x <= app.exit_time e ->
               In x (app.output e)) /\
    (forall a, fst (ros_step now) = Some a ->
               t1 = Z.max now (Z.min a (now + 3000))) /\
    (forall a, fst (server_step t1) = Some a ->
               app.exit_time e = Z.max t1 (Z.min a (now + 3000))).
Proof.
  unfold app.shutdown_with.
  destruct (websocket_handlers.closeAllConnections (app.wsServers p))
    as [servers closing_log].
  destruct (ros_step now) as [ros_promise ros_log].
  unfold Promise.after.
  destruct (race_with_timeout ros_promise (now := now) (t := now + 3000))
    as (t1 & E1 & L1 & U1 & M1); [lia |].
  rewrite E1.
  destruct (server_step t1) as [server_promise server_log] eqn:Es.
  destruct (race_with_timeout server_promise (now := t1) (t := now + 3000))
    as (t2 & E2 & L2 & U2 & M2); [lia |].
  rewrite E2.
  eexists. exists t1. split; [reflexivity |].
  rewrite !Es.
  cbn [app.exit_time app.exit_code app.output snd fst].
  repeat split; try assumption.
  - rewrite !in_app_iff. do 4 right. now left.
  - intros x Hx Hle. rewrite !in_app_iff. right. right. left.
    apply filter_In. split; [apply in_or_app; now left |].
    now apply Z.leb_le.
  - intros x Hx Hle. rewrite !in_app_iff. right. right. left.
    apply filter_In. split; [apply in_or_app; now right |].
    now apply Z.leb_le.
Qed.

(** [closeAllConnections] leaves no client in open state: every open
    one has been told to close. *)
Lemma close_open_clients_none_open (clients : list ws.client) :
  Spec.none_open (websocket_handlers.close_open_clients clients).
Proof.
  unfold websocket_handlers.close_open_clients, Spec.none_open.
  rewrite (forEach_fst clients _
             (fun c => if WebSocket.is_open (ws.readyState c)
                       then ws.close c else c) tt).
  - apply Forall_forall. intros c Hc.
    apply in_map_iff in Hc. destruct Hc as (c0 & <- & _).
    destruct c0 as [[] dl]; cbn; discriminate.
  - intros c s'. destruct (WebSocket.is_open (ws.readyState c)); reflexivity.
Qed.

(** The ROS step resolves its promise at the time of the call, and logs
    the exception of [rclnodejs.shutdown()] when there is one. *)
Lemma rosInterface_shutdown_resolved (p : app.process) (t : Z) :
  fst (fst (app.rosInterface_shutdown p t)) = Some t /\
  (app.rclnodejs_isShutdown p = false ->
   app.rclnodejs_shutdown_throws p = true ->
   In (t, Logger.error "ROS" "Error during ROS2 shutdown")
      (snd (app.rosInterface_shutdown p t))).
Proof.
  unfold app.rosInterface_shutdown, ros_interface.shutdown.
  destruct (app.rclnodejs_isShutdown p), (app.rclnodejs_shutdown_throws p);
    cbn [negb fst snd]; (split; [reflexivity |]);
    intros H1 H2; try discriminate.
  right. now left.
Qed.

(** C9.  From any state of the process and whatever its collaborators
    do, [shutdown] reaches [process.exit(0)] at most 3000 ms after it
    started, having logged that the shutdown is complete, also when the
    [close] callback of the HTTPS server never fires (the exit then
    comes after 2000 ms).  Both awaited steps are raced against the
    3000 ms timer, so the bound holds for any two steps, even steps
    whose promise is never resolved.  A failure inside a step (an
    exception of the ROS shutdown, an exception of the server close) is
    logged and the sequence goes on to the same end. *)
Theorem shutdown_terminates_within_3_seconds :
  forall (p : app.process) (now : Z),
    (exists e : app.exited,
       app.shutdown p now = Some e /\
       app.exit_code e = 0 /\
       app.exit_time e <= now + 3000 /\
       In (app.exit_time e,
           Logger.success "SHUTDOWN" "Application shutdown complete")
          (app.output e) /\
       (app.rclnodejs_isShutdown p = false ->
        app.rclnodejs_shutdown_throws p = true ->
        In (now, Logger.error "ROS" "Error during ROS2 shutdown")
           (app.output e)) /\
       (forall srv, app.server p = Some srv ->
                    express_server.close_throws srv = true ->
        In (now, Logger.error "SERVER" "Exception stopping server")
           (app.output e)) /\
       (forall srv, app.server p = Some srv ->
                    express_server.close_throws srv = false ->
                    express_server.callback_after srv = None ->
        app.exit_time e = now + 2000)) /\
    (forall (ros_step server_step :
               Z -> Promise.promise * Promise.timeline)
            (pubs : ros_interface.Publishers),
       exists e : app.exited,
         app.shutdown_with ros_step server_step pubs p now = Some e /\
         app.exit_code e = 0 /\
         app.exit_time e <= now + 3000 /\
         In (app.exit_time e,
             Logger.success "SHUTDOWN" "Application shutdown complete")
            (app.output e)).
Proof.
  intros p now. split.
  - unfold app.shutdown.
    destruct (shutdown_with_terminates
                (fun t => (fst (fst (app.rosInterface_shutdown p t)),
                           snd (app.rosInterface_shutdown p t)))
                (fun t => express_server.stopServer t (app.server p))
                (ros_interface.publishers
                   (snd (fst (app.rosInterface_shutdown p now))))
                p now)
      as (e & t1 & He & L1 & L2 & U & Hc & Hdone & Hros & Hsrv & M1 & M2).
    cbn [fst snd] in Hros, Hsrv, M1, M2.
    destruct (rosInterface_shutdown_resolved p now) as [Hres Hthrow].
    assert (Ht1 : t1 = now) by (rewrite (M1 now Hres); lia).
    subst t1.
    exists e. split; [exact He |].
    split; [exact Hc |]. split; [exact U |]. split; [exact Hdone |].
    split; [| split].
    + intros H1 H2. apply Hros; [now apply Hthrow | exact L2].
    + intros srv Hs Ht. apply Hsrv; [| exact L2].
      rewrite Hs. unfold express_server.stopServer. rewrite Ht. now left.
    + intros srv Hs Ht Hcb.
      rewrite (M2 (now + 2000)); [lia |].
      rewrite Hs. unfold express_server.stopServer. rewrite Ht, Hcb.
      reflexivity.
  - intros ros_step server_step pubs.
    destruct (shutdown_with_terminates ros_step server_step pubs p now)
      as (e & t1 & He & _ & _ & U & Hc & Hdone & _).
    exists e. repeat split; assumption.
Qed.

(** The theorem at a process whose ROS shutdown throws and whose HTTPS
    server never calls back. *)
Lemma shutdown_terminates_witness :
  exists e : app.exited,
    app.shutdown Samples.stuck_process 0 = Some e /\
    app.exit_code e = 0 /\
    app.exit_time e = 2000 /\
    In (0, Logger.error "ROS" "Error during ROS2 shutdown") (app.output e) /\
    In (app.exit_time e,
        Logger.success "SHUTDOWN" "Application shutdown complete")
       (app.output e).
Proof.
  destruct (proj1 (shutdown_terminates_within_3_seconds
                     Samples.stuck_process 0))
    as (e & He & Hc & _ & Hdone & Hros & _ & Hstuck).
  exists e. split; [exact He |]. split; [exact Hc |].
  split; [apply (Hstuck _ eq_refl eq_refl eq_refl) |].
  split; [apply Hros; reflexivity | exact Hdone].
Defined.

End ShutdownFacts.

(** ** Orientation and time stamps *)

Section OrientationFacts.
Import Js ros_interface.
Local Open Scope R_scope.

(** [eulerToQuaternion] returns a rotation: whatever the three angles,
    the quaternion has norm 1. *)
Theorem eulerToQuaternion_unit_norm (roll pitch yaw : R) :
  let q := eulerToQuaternion roll pitch yaw in
  qx q * qx q + qy q * qy q + qz q * qz q + qw q * qw q = 1.
Proof.
  unfold eulerToQuaternion. cbv zeta. cbn [qx qy qz qw].
  set (a := roll * PI / 180 * 0.5).
  set (b := pitch * PI / 180 * 0.5).
  set (c := yaw * PI / 180 * 0.5).
  pose proof (sin2_cos2 a) as Ha. pose proof (sin2_cos2 b) as Hb.
  pose proof (sin2_cos2 c) as Hc. unfold Rsqr in Ha, Hb, Hc.
  transitivity ((sin a * sin a + cos a * cos a) *
                (sin b * sin b + cos b * cos b) *
                (sin c * sin c + cos c * cos c)); [ring |].
  rewrite Ha, Hb, Hc. ring.
Qed.

Lemma floor_bounds (x : R) : floor x <= x < floor x + 1.
Proof.
  unfold floor. destruct (base_Int_part x) as [H1 H2]. lra.
Qed.

Lemma trunc_nonneg (x : R) : 0 <= x -> trunc x = floor x.
Proof.
  intros H. unfold trunc. destruct (Rle_dec 0 x); [reflexivity | contradiction].
Qed.

Lemma floor_nonneg (x : R) : 0 <= x -> (0 <= Int_part x)%Z.
Proof.
  intros H. destruct (base_Int_part x) as [H1 H2].
  assert (H3 : -1 < IZR (Int_part x)) by lra.
  apply lt_IZR in H3. lia.
Qed.

(** The split of a millisecond reading into seconds and nanoseconds
    that every handler performs. *)
Lemma split_milliseconds (t : R) :
  0 <= t ->
  floor (t / 1000) * 1000 + rem t 1000 * 1000000 / 1000000 = t /\
  0 <= rem t 1000 * 1000000 < 1000000000 /\
  exists n : Z, floor (t / 1000) = IZR n /\ (0 <= n)%Z.
Proof.
  intros Ht.
  assert (Hq : 0 <= t / 1000) by (apply Rle_mult_inv_pos; lra).
  unfold rem. rewrite (trunc_nonneg Hq).
  pose proof (floor_bounds (t / 1000)) as [H1 H2].
  assert (Ht' : t = t / 1000 * 1000) by (field).
  split; [field |].
  split; [lra |].
  exists (Int_part (t / 1000)). split; [reflexivity |].
  now apply floor_nonneg.
Qed.

(** Two whole numbers of seconds that are less than one apart are
    equal. *)
Lemma whole_seconds_unique (n m : Z) (t : R) :
  IZR n * 1000 <= t < IZR n * 1000 + 1000 ->
  IZR m * 1000 <= t < IZR m * 1000 + 1000 ->
  n = m.
Proof.
  intros Hn Hm.
  assert (H1 : IZR n < IZR (m + 1)) by (rewrite plus_IZR; lra).
  assert (H2 : IZR m < IZR (n + 1)) by (rewrite plus_IZR; lra).
  apply lt_IZR in H1, H2. lia.
Qed.

(** The stamp a handler derives from the sample's own positive
    [timestamp] loses nothing: seconds and nanoseconds add up to the
    timestamp again, the seconds are a whole non-negative number and
    the nanoseconds stay below one second.  When the sample carries no
    usable timestamp (absent, null or 0) the handler reads the clock
    twice: the seconds are those of the first reading and the
    nanoseconds are the milliseconds within the second of the second
    reading.  Such a stamp is again well formed and less than one
    second away from the first reading.  For two readings in order and
    less than a second apart it is the second reading when both fall
    into the same second, and one second before the second reading
    (hence before both) when a second begins between them. *)
Theorem stamp_of_splits_milliseconds :
  forall (timestamp : jsval) (clock : R * R),
    let s := websocket_handlers.stamp_of timestamp clock in
    (forall t : R,
       timestamp = JNum t -> 0 < t ->
       sec s * 1000 + nanosec s / 1000000 = t /\
       0 <= nanosec s < 1000000000 /\
       exists n : Z, sec s = IZR n /\ (0 <= n)%Z) /\
    (truthy_num timestamp = None ->
     0 <= fst clock -> 0 <= snd clock ->
     (exists n : Z, sec s = IZR n /\ (0 <= n)%Z) /\
     0 <= nanosec s < 1000000000 /\
     sec s * 1000 <= fst clock < sec s * 1000 + 1000 /\
     (exists k : Z,
        snd clock = IZR k * 1000 + nanosec s / 1000000 /\ (0 <= k)%Z) /\
     Rabs (sec s * 1000 + nanosec s / 1000000 - fst clock) < 1000 /\
     (fst clock <= snd clock < sec s * 1000 + 1000 ->
      sec s * 1000 + nanosec s / 1000000 = snd clock) /\
     (snd clock < fst clock + 1000 -> sec s * 1000 + 1000 <= snd clock ->
      sec s * 1000 + nanosec s / 1000000 = snd clock - 1000)).
Proof.
  intros timestamp clock. unfold websocket_handlers.stamp_of. cbv zeta.
  cbn [sec nanosec]. split.
  - intros t -> Ht. rewrite truthy_num_nonzero by lra.
    apply split_milliseconds. lra.
  - intros Hf H1 H2. rewrite Hf.
    destruct clock as [t1 t2]. cbn [fst snd] in *.
    destruct (split_milliseconds H1) as (E1 & B1 & n1 & N1 & P1).
    destruct (split_milliseconds H2) as (E2 & B2 & n2 & N2 & P2).
    rewrite N1 in *. rewrite N2 in *.
    split; [now exists n1 |].
    split; [exact B2 |].
    split; [lra |].
    split; [exists n2; split; [lra | exact P2] |].
    split; [apply Rabs_def1; lra |].
    split.
    + intros Hsame.
      assert (E : n1 = n2) by (apply (@whole_seconds_unique n1 n2 t2); lra).
      subst n2. lra.
    + intros Hnear Hnext.
      assert (E : (n1 + 1)%Z = n2).
      { apply (@whole_seconds_unique (n1 + 1) n2 t2);
          rewrite ?plus_IZR; lra. }
      subst n2. rewrite plus_IZR in E2. lra.
Qed.

(** The theorem at a sample stamped 1500 ms, and at a sample without a
    time stamp handled while the clock goes from 1999 ms to 2000 ms:
    the stamp is 1000 ms. *)
Lemma stamp_of_splits_milliseconds_witness :
  (let s := websocket_handlers.stamp_of (JNum 1500) (0, 0) in
   sec s * 1000 + nanosec s / 1000000 = 1500) /\
  (let s := websocket_handlers.stamp_of JNull (1999, 2000) in
   sec s * 1000 + nanosec s / 1000000 = 2000 - 1000).
Proof.
  split.
  - apply (proj1 (stamp_of_splits_milliseconds (JNum 1500) (0, 0)) 1500);
      [reflexivity | lra].
  - cbv zeta.
    destruct (proj2 (stamp_of_splits_milliseconds JNull (1999, 2000))
                eq_refl)
      as ((n & Hn & Pn) & _ & Hs & _ & _ & _ & Hb); cbn [fst snd]; try lra.
    cbn [fst snd] in Hs, Hb. rewrite Hn in Hs, Hb |- *.
    assert (E : n = 1%Z) by (apply (@whole_seconds_unique n 1 1999); lra).
    subst n. apply Hb; lra.
Defined.

End OrientationFacts.

(** ** More on the framing of audio buffers *)

Section WavFramingFacts.
Import Js DataView audioPlayer.
Local Open Scope Z_scope.

Lemma addWavHeader_valid (audioData : list byte) :
  exists framed : list byte,
    addWavHeader audioData = Return framed /\
    Spec.valid_wav_header framed /\
    List.length framed = (44 + List.length audioData)%nat /\
    skipn 44 framed = audioData.
Proof.
  rewrite addWavHeader_bytes. eexists. split; [reflexivity |].
  split; [split; reflexivity |]. split; reflexivity.
Qed.

Lemma processedData_returns (audioData : list byte) :
  exists framed : list byte,
    processedData audioData = Return framed /\
    Spec.valid_wav_header framed.
Proof.
  destruct (processedData_cases audioData) as [[Hv Hp] | [Hv Hp]].
  - exists audioData. split; assumption.
  - destruct (addWavHeader_valid audioData) as (framed & Hf & Hvalid & _).
    exists framed. split; [now rewrite Hp | exact Hvalid].
Qed.

(** Framing is idempotent: a buffer that went through the framing of
    [processAudioData] once comes out of a second pass unchanged, so a
    header is never stacked on a header. *)
Theorem processedData_idempotent (audioData : list byte) :
  exists framed : list byte,
    processedData audioData = Return framed /\
    processedData framed = Return framed.
Proof.
  destruct (processedData_returns audioData) as (framed & Hf & Hvalid).
  exists framed. split; [exact Hf |].
  destruct (processedData_cases framed) as [[_ Hp] | [Hn _]];
    [exact Hp | contradiction].
Qed.

Lemma hasWavHeader_valid (buffer : list byte) :
  ros_interface.hasWavHeader buffer = true <-> Spec.valid_wav_header buffer.
Proof.
  unfold Spec.valid_wav_header, ros_interface.hasWavHeader.
  destruct buffer as [| b0 [| b1 [| b2 [| b3 [| b4 [| b5 [| b6 [| b7
    [| b8 [| b9 [| b10 [| b11 rest]]]]]]]]]]]];
    try (split; [intros H; discriminate H
                | intros [H1 H2]; simpl in H1, H2; discriminate]).
  cbn [List.length Nat.leb ros_interface.byte_is nth_error andb].
  split.
  - intros H. repeat (apply andb_prop in H; destruct H as [H ?]).
    repeat match goal with
           | E : Z.eqb (byte.unsigned ?b) _ = true |- _ =>
               apply Z.eqb_eq in E
           end.
    apply (byte.unsigned_inj b0 Byte.x52) in H.
    apply (byte.unsigned_inj b1 Byte.x49) in H6.
    apply (byte.unsigned_inj b2 Byte.x46) in H5.
    apply (byte.unsigned_inj b3 Byte.x46) in H4.
    apply (byte.unsigned_inj b8 Byte.x57) in H3.
    apply (byte.unsigned_inj b9 Byte.x41) in H2.
    apply (byte.unsigned_inj b10 Byte.x56) in H1.
    apply (byte.unsigned_inj b11 Byte.x45) in H0.
    subst. split; reflexivity.
  - intros [H1 H2]. cbn [firstn skipn] in H1, H2.
    injection H1 as -> -> -> ->. injection H2 as -> -> -> ->. reflexivity.
Qed.

(** The server and the browser look for the same header: the server's
    [hasWavHeader] test holds for a buffer exactly when the browser
    passes that buffer to playback unchanged, and fails exactly when the
    browser puts its 44 bytes in front. *)
Theorem hasWavHeader_iff_played_unchanged (buffer : list byte) :
  (ros_interface.hasWavHeader buffer = true <->
   processedData buffer = Return buffer) /\
  (ros_interface.hasWavHeader buffer = false <->
   exists header : list byte,
     List.length header = 44%nat /\
     processedData buffer = Return (header ++ buffer)).
Proof.
  assert (Hneq : forall header : list byte,
            List.length header = 44%nat -> header ++ buffer <> buffer).
  { intros header Hl E. apply (f_equal (@List.length byte)) in E.
    rewrite length_app in E. lia. }
  assert (Hadd : exists header : list byte,
            List.length header = 44%nat /\
            addWavHeader buffer = Return (header ++ buffer)).
  { rewrite addWavHeader_bytes. eexists. split; [| reflexivity]. reflexivity. }
  destruct Hadd as (header & Hl & Hadd).
  destruct (processedData_cases buffer) as [[Hv Hp] | [Hv Hp]].
  - apply hasWavHeader_valid in Hv. split.
    + split; [intros _; exact Hp | intros _; exact Hv].
    + split; [intros H; congruence |].
      intros (h & Hh & E). rewrite Hp in E. injection E as E.
      symmetry in E. now apply Hneq in E.
  - assert (Hf : ros_interface.hasWavHeader buffer = false).
    { destruct (ros_interface.hasWavHeader buffer) eqn:E; [| reflexivity].
      apply hasWavHeader_valid in E. contradiction. }
    split.
    + split; [intros H; congruence |].
      intros E. rewrite Hp, Hadd in E. injection E as E.
      now apply Hneq in E.
    + split; [| intros _; exact Hf].
      intros _. exists header. split; [exact Hl | now rewrite Hp].
Qed.

(** The header [addWavHeader] writes is consistent with itself: the
    RIFF chunk size (bytes 4-7) is the length of the whole file minus 8,
    the format chunk is 16 bytes long, and the byte rate (bytes 28-31)
    is the sample rate times the block alignment (bytes 32-33), which is
    channels times bytes per sample. *)
Theorem addWavHeader_fields_consistent (audioData : list byte) :
  36 + Z.of_nat (List.length audioData) < 2 ^ 32 ->
  exists wavBuffer : list byte,
    addWavHeader audioData = Return wavBuffer /\
    List.length wavBuffer = (44 + List.length audioData)%nat /\
    getUint32 wavBuffer 4 = Return (Z.of_nat (List.length wavBuffer) - 8) /\
    getUint32 wavBuffer 16 = Return 16 /\
    (exists channels rate byteRate blockAlign bits : Z,
       getUint16 wavBuffer 22 = Return channels /\
       getUint32 wavBuffer 24 = Return rate /\
       getUint32 wavBuffer 28 = Return byteRate /\
       getUint16 wavBuffer 32 = Return blockAlign /\
       getUint16 wavBuffer 34 = Return bits /\
       blockAlign = channels * (bits / 8) /\
       byteRate = rate * blockAlign) /\
    firstn 4 (skipn 12 wavBuffer) =
      [Byte.x66; Byte.x6d; Byte.x74; Byte.x20] /\
    firstn 4 (skipn 36 wavBuffer) =
      [Byte.x64; Byte.x61; Byte.x74; Byte.x61].
Proof.
  intros Hlen. rewrite addWavHeader_bytes. eexists.
  split; [reflexivity |].
  set (n := Z.of_nat (List.length audioData)) in *.
  assert (Hl : forall h : list byte, List.length h = 44%nat ->
               List.length (h ++ audioData) = (44 + List.length audioData)%nat).
  { intros h Hh. now rewrite length_app, Hh. }
  split; [apply Hl; reflexivity |].
  split.
  { rewrite Hl by reflexivity.
    pose proof (getUint_le_split 4 (36 + n)
      [Byte.x52; Byte.x49; Byte.x46; Byte.x46]
      (([Byte.x57; Byte.x41; Byte.x56; Byte.x45;
         Byte.x66; Byte.x6d; Byte.x74; Byte.x20] ++
        le_split 4 16 ++ le_split 2 1 ++ le_split 2 1 ++
        le_split 4 48000 ++ le_split 4 96000 ++
        le_split 2 2 ++ le_split 2 16 ++
        [Byte.x64; Byte.x61; Byte.x74; Byte.x61] ++
        le_split 4 n) ++ audioData)) as G.
    change (Z.of_nat 4 * 8) with 32 in G.
    rewrite Z.mod_small in G by (subst n; lia).
    replace (Z.of_nat (44 + List.length audioData) - 8) with (36 + n)
      by (subst n; lia).
    rewrite <- G. reflexivity. }
  split; [reflexivity |].
  split.
  { exists 1, 48000, 96000, 2, 16. repeat split; reflexivity. }
  split; reflexivity.
Qed.

Lemma addWavHeader_fields_consistent_witness :
  exists wavBuffer : list byte,
    addWavHeader [Byte.x01; Byte.x02; Byte.x03; Byte.x04] = Return wavBuffer /\
    List.length wavBuffer = 48%nat /\
    getUint32 wavBuffer 4 = Return 40.
Proof.
  destruct (@addWavHeader_fields_consistent
              [Byte.x01; Byte.x02; Byte.x03; Byte.x04])
    as (w & H1 & H2 & H3 & _).
  - reflexivity.
  - exists w. split; [exact H1 |]. split; [exact H2 |].
    rewrite H3, H2. reflexivity.
Defined.

End WavFramingFacts.

(** ** The message handlers as error boundaries *)

Section HandlerFacts.
Import Js Invariants.

Lemma relates_ret {S A : Type} (R : S -> S -> Prop) (a : A) :
  (forall s, R s s) -> relates R (ret a).
Proof. intros Hr s. apply Hr. Qed.

Lemma relates_lift {S A : Type} (R : S -> S -> Prop) (r : result A) :
  (forall s, R s s) -> relates R (lift r).
Proof. intros Hr s. apply Hr. Qed.

Lemma relates_ebind {S A B : Type} (R1 R2 R3 : S -> S -> Prop)
    (m : eff S A) (k : A -> eff S B) :
  (forall x y, R1 x y -> R3 x y) ->
  (forall x y z, R1 x y -> R2 y z -> R3 x z) ->
  relates R1 m -> (forall a, relates R2 (k a)) ->
  relates R3 (ebind m k).
Proof.
  intros Hincl Hcomp Hm Hk s. unfold ebind. specialize (Hm s).
  destruct (m s) as [[a | e] s']; cbn [snd] in *.
  - exact (Hcomp _ _ _ Hm (Hk a s')).
  - exact (Hincl _ _ Hm).
Qed.

Lemma relates_try_catch {S A : Type} (R1 R2 R3 : S -> S -> Prop)
    (m : eff S A) (handler : js_error -> eff S A) :
  (forall x y, R1 x y -> R3 x y) ->
  (forall x y z, R1 x y -> R2 y z -> R3 x z) ->
  relates R1 m -> (forall e, relates R2 (handler e)) ->
  relates R3 (try_catch m handler).
Proof.
  intros Hincl Hcomp Hm Hh s. unfold try_catch. specialize (Hm s).
  destruct (m s) as [[a | e] s']; cbn [snd] in *.
  - exact (Hincl _ _ Hm).
  - exact (Hcomp _ _ _ Hm (Hh e s')).
Qed.

Lemma returns_try_catch {S A : Type} (m : eff S A)
    (handler : js_error -> eff S A) :
  (forall e, returns (handler e)) -> returns (try_catch m handler).
Proof.
  intros Hh s. unfold try_catch.
  destruct (m s) as [[a | e] s']; [now exists a | apply Hh].
Qed.

Lemma returns_Logger_call (e : Logger.entry) :
  returns (websocket_handlers.Logger_call e).
Proof. intros s. now exists tt. Qed.

Lemma grown_refl (srv : websocket_handlers.server) : grown 0 srv srv.
Proof.
  split; [reflexivity |]. split.
  - exists []. now rewrite app_nil_r.
  - exists []. now rewrite app_nil_r.
Qed.

Lemma grown_weaken (n n' : nat) (x y : websocket_handlers.server) :
  n <= n' -> grown n x y -> grown n' x y.
Proof.
  intros Hn (Hp & (added & Hb & Hl) & Hlog).
  split; [exact Hp |]. split; [| exact Hlog].
  exists added. split; [exact Hb | lia].
Qed.

Lemma grown_trans (n k : nat) (x y z : websocket_handlers.server) :
  grown n x y -> grown k y z -> grown (n + k) x z.
Proof.
  intros (Hp1 & (a1 & Hb1 & Hl1) & (l1 & Hlog1))
         (Hp2 & (a2 & Hb2 & Hl2) & (l2 & Hlog2)).
  split; [congruence |]. split.
  - exists (a1 ++ a2). rewrite Hb2, Hb1, <- app_assoc, length_app.
    split; [reflexivity | lia].
  - exists (l1 ++ l2). now rewrite Hlog2, Hlog1, <- app_assoc.
Qed.

Lemma grown_ebind {A B : Type} (n k : nat)
    (m : eff websocket_handlers.server A)
    (f : A -> eff websocket_handlers.server B) :
  relates (grown n) m -> (forall a, relates (grown k) (f a)) ->
  relates (grown (n + k)) (ebind m f).
Proof.
  apply relates_ebind.
  - intros x y. apply grown_weaken. lia.
  - intros x y z. apply grown_trans.
Qed.

Lemma grown_try_catch {A : Type} (n k : nat)
    (m : eff websocket_handlers.server A)
    (handler : js_error -> eff websocket_handlers.server A) :
  relates (grown n) m -> (forall e, relates (grown k) (handler e)) ->
  relates (grown (n + k)) (try_catch m handler).
Proof.
  apply relates_try_catch.
  - intros x y. apply grown_weaken. lia.
  - intros x y z. apply grown_trans.
Qed.

Lemma grown_Logger_call (e : Logger.entry) :
  relates (grown 0) (websocket_handlers.Logger_call e).
Proof.
  intros srv. split; [reflexivity |]. split.
  - exists []. now rewrite app_nil_r.
  - now exists [e].
Qed.

Lemma grown_rosInterface_call {A : Type} (n : nat)
    (f : ros_interface.node -> result (A * ros_interface.node)) :
  (forall st a st', f st = Return (a, st') ->
     ros_interface.publishers st' = ros_interface.publishers st /\
     exists added, ros_interface.bus st' = ros_interface.bus st ++ added /\
                   List.length added <= n) ->
  relates (grown n) (websocket_handlers.rosInterface_call f).
Proof.
  intros Hf srv. unfold websocket_handlers.rosInterface_call.
  destruct (f (websocket_handlers.node srv)) as [[a st'] | e] eqn:E;
    cbn [snd].
  - destruct (Hf _ _ _ E) as (Hp & Hb).
    split; [exact Hp |]. split; [exact Hb |].
    exists []. now rewrite app_nil_r.
  - apply grown_weaken with (n := 0); [lia | apply grown_refl].
Qed.

Lemma idle_refl (srv : websocket_handlers.server) : idle srv srv.
Proof. intros _. reflexivity. Qed.

Lemma idle_trans (x y z : websocket_handlers.server) :
  idle x y -> idle y z -> idle x z.
Proof.
  intros H1 H2 Hx. specialize (H1 Hx). rewrite <- H1. apply H2.
  now rewrite H1.
Qed.

Lemma idle_ebind {A B : Type}
    (m : eff websocket_handlers.server A)
    (f : A -> eff websocket_handlers.server B) :
  relates idle m -> (forall a, relates idle (f a)) ->
  relates idle (ebind m f).
Proof. apply relates_ebind; [auto | apply idle_trans]. Qed.

Lemma idle_try_catch {A : Type}
    (m : eff websocket_handlers.server A)
    (handler : js_error -> eff websocket_handlers.server A) :
  relates idle m -> (forall e, relates idle (handler e)) ->
  relates idle (try_catch m handler).
Proof. apply relates_try_catch; [auto | apply idle_trans]. Qed.

Lemma idle_Logger_call (e : Logger.entry) :
  relates idle (websocket_handlers.Logger_call e).
Proof. intros srv _. reflexivity. Qed.

Lemma idle_rosInterface_call {A : Type}
    (f : ros_interface.node -> result (A * ros_interface.node)) :
  (forall st a st', ros_interface.publishers st = ros_interface.no_publishers ->
     f st = Return (a, st') -> st' = st) ->
  relates idle (websocket_handlers.rosInterface_call f).
Proof.
  intros Hf srv Hp. unfold websocket_handlers.rosInterface_call.
  destruct (f (websocket_handlers.node srv)) as [[a st'] | e] eqn:E;
    cbn [snd websocket_handlers.node]; [| reflexivity].
  exact (Hf _ _ _ Hp E).
Qed.

(** What each publishing function does to the node. *)
Lemma publishCameraData_grows (st : ros_interface.node)
    (imageBuffer : list byte) (width height : R)
    (timestamp : option ros_interface.Time) (now : R * R)
    (a : bool) (st' : ros_interface.node) :
  ros_interface.publishCameraData st imageBuffer width height timestamp now =
    (a, st') ->
  ros_interface.publishers st' = ros_interface.publishers st /\
  exists added, ros_interface.bus st' = ros_interface.bus st ++ added /\
                List.length added <= 2.
Proof.
  unfold ros_interface.publishCameraData.
  destruct (negb _ || negb _); intros E; injection E as <- <-.
  - split; [reflexivity |]. exists []. rewrite app_nil_r. split; [reflexivity | cbn; lia].
  - split; [reflexivity |]. cbn [ros_interface.publish ros_interface.bus].
    rewrite <- app_assoc. eexists. split; [reflexivity | cbn; lia].
Qed.

Lemma publishIMUData_grows (st : ros_interface.node)
    (imuData : ros_interface.ImuData)
    (timestamp : option ros_interface.Time) (now : R * R)
    (a : bool) (st' : ros_interface.node) :
  ros_interface.publishIMUData st imuData timestamp now = Return (a, st') ->
  ros_interface.publishers st' = ros_interface.publishers st /\
  exists added, ros_interface.bus st' = ros_interface.bus st ++ added /\
                List.length added <= 1.
Proof.
  unfold ros_interface.publishIMUData.
  destruct (negb _).
  - intros E; injection E as <- <-.
    split; [reflexivity |]. exists []. rewrite app_nil_r.
    split; [reflexivity | cbn; lia].
  - destruct (ros_interface.magnetometer imuData); [| discriminate].
    destruct (ros_interface.accelerometer imuData); [| discriminate].
    destruct (ros_interface.gyroscope imuData); [| discriminate].
    cbn [prop_of bind]. intros E; injection E as <- <-.
    split; [reflexivity |]. eexists. split; [reflexivity | cbn; lia].
Qed.

Lemma publishGPSData_grows (st : ros_interface.node)
    (gpsData : ros_interface.GpsData)
    (timestamp : option ros_interface.Time) (now : R * R)
    (a : bool) (st' : ros_interface.node) :
  ros_interface.publishGPSData st gpsData timestamp now = (a, st') ->
  ros_interface.publishers st' = ros_interface.publishers st /\
  exists added, ros_interface.bus st' = ros_interface.bus st ++ added /\
                List.length added <= 1.
Proof.
  unfold ros_interface.publishGPSData.
  destruct (negb _); intros E; injection E as <- <-.
  - split; [reflexivity |]. exists []. rewrite app_nil_r.
    split; [reflexivity | cbn; lia].
  - split; [reflexivity |]. eexists. split; [reflexivity | cbn; lia].
Qed.

Lemma relates_grown_weaken {A : Type} (n n' : nat)
    (m : eff websocket_handlers.server A) :
  n <= n' -> relates (grown n) m -> relates (grown n') m.
Proof. intros Hn Hm srv. exact (grown_weaken Hn (Hm srv)). Qed.

Lemma grown_ret {A : Type} (n : nat) (a : A) : relates (grown n) (ret a).
Proof.
  apply relates_grown_weaken with (n := 0); [lia |].
  apply relates_ret, grown_refl.
Qed.

Lemma grown_lift {A : Type} (n : nat) (r : result A) :
  relates (grown n) (lift r).
Proof.
  apply relates_grown_weaken with (n := 0); [lia |].
  apply relates_lift, grown_refl.
Qed.

Lemma grown_Logger_call_any (n : nat) (e : Logger.entry) :
  relates (grown n) (websocket_handlers.Logger_call e).
Proof.
  apply relates_grown_weaken with (n := 0); [lia |].
  apply grown_Logger_call.
Qed.

Lemma grown_then {A B : Type} (n : nat)
    (m : eff websocket_handlers.server A)
    (f : A -> eff websocket_handlers.server B) :
  relates (grown 0) m -> (forall a, relates (grown n) (f a)) ->
  relates (grown n) (ebind m f).
Proof.
  intros Hm Hf. change n with (0 + n). now apply grown_ebind.
Qed.

Lemma grown_caught {A : Type} (n : nat)
    (m : eff websocket_handlers.server A)
    (handler : js_error -> eff websocket_handlers.server A) :
  relates (grown n) m -> (forall e, relates (grown 0) (handler e)) ->
  relates (grown n) (try_catch m handler).
Proof.
  intros Hm Hh. apply relates_grown_weaken with (n := n + 0); [lia |].
  now apply grown_try_catch.
Qed.

Ltac grow_step :=
  first
    [ apply grown_Logger_call_any
    | apply grown_ret
    | apply grown_lift
    | apply grown_caught; [| intros ?]
    | apply grown_then; [| intros ?]
    | match goal with
      | |- relates _ (match ?x with _ => _ end) => destruct x
      end ].

Lemma setupCameraHandlers_grown (base64 : string -> list byte)
    (parsed : option websocket_handlers.CameraMessage) (now : R * R) :
  relates (grown 2)
    (websocket_handlers.setupCameraHandlers_onmessage base64 parsed now).
Proof.
  unfold websocket_handlers.setupCameraHandlers_onmessage.
  repeat grow_step.
  apply grown_rosInterface_call.
  intros st a' st' E. injection E as E.
  eapply publishCameraData_grows.
  rewrite (surjective_pairing (ros_interface.publishCameraData _ _ _ _ _ _)).
  now rewrite E.
Qed.

Lemma setupIMUHandlers_grown
    (parsed : option (option ros_interface.ImuData)) (now : R * R) :
  relates (grown 1)
    (websocket_handlers.setupIMUHandlers_onmessage parsed now).
Proof.
  unfold websocket_handlers.setupIMUHandlers_onmessage.
  repeat grow_step.
  apply grown_rosInterface_call.
  intros st a' st' E. exact (publishIMUData_grows _ _ _ _ E).
Qed.

Lemma setupGPSHandlers_grown
    (parsed : option (option ros_interface.GpsData)) (now : R * R) :
  relates (grown 1)
    (websocket_handlers.setupGPSHandlers_onmessage parsed now).
Proof.
  unfold websocket_handlers.setupGPSHandlers_onmessage.
  repeat grow_step.
  apply grown_rosInterface_call.
  intros st a' st' E. injection E as E.
  eapply publishGPSData_grows.
  rewrite (surjective_pairing (ros_interface.publishGPSData _ _ _ _)).
  now rewrite E.
Qed.

(** No input makes a message handler throw or lose anything.  Whatever
    arrives on the camera, IMU or GPS socket (text that is not JSON, a
    message with fields missing, or a good sample), the handler returns
    normally, the publishers are left as they were, everything
    published or logged before is still there, and at most two (camera)
    or one (IMU, GPS) messages are added to the bus. *)
Theorem message_handlers_contain_errors :
  forall (base64 : string -> list byte)
         (camera : option websocket_handlers.CameraMessage)
         (imu : option (option ros_interface.ImuData))
         (gps : option (option ros_interface.GpsData))
         (now : R * R) (srv : websocket_handlers.server),
    (fst (websocket_handlers.setupCameraHandlers_onmessage base64 camera
            now srv) = Return tt /\
     grown 2 srv
       (snd (websocket_handlers.setupCameraHandlers_onmessage base64 camera
               now srv))) /\
    (fst (websocket_handlers.setupIMUHandlers_onmessage imu now srv) =
       Return tt /\
     grown 1 srv
       (snd (websocket_handlers.setupIMUHandlers_onmessage imu now srv))) /\
    (fst (websocket_handlers.setupGPSHandlers_onmessage gps now srv) =
       Return tt /\
     grown 1 srv
       (snd (websocket_handlers.setupGPSHandlers_onmessage gps now srv))).
Proof.
  intros base64 camera imu gps now srv.
  assert (Hret : forall (m : eff websocket_handlers.server unit),
            returns m -> fst (m srv) = Return tt).
  { intros m Hm. destruct (Hm srv) as ([] & E). exact E. }
  split; [| split]; (split; [apply Hret |]).
  - apply returns_try_catch. intros e. apply returns_Logger_call.
  - apply setupCameraHandlers_grown.
  - apply returns_try_catch. intros e. apply returns_Logger_call.
  - apply setupIMUHandlers_grown.
  - apply returns_try_catch. intros e. apply returns_Logger_call.
  - apply setupGPSHandlers_grown.
Qed.

Ltac idle_step :=
  first
    [ apply idle_Logger_call
    | apply relates_ret; apply idle_refl
    | apply relates_lift; apply idle_refl
    | apply idle_try_catch; [| intros ?]
    | apply idle_ebind; [| intros ?]
    | match goal with
      | |- relates _ (match ?x with _ => _ end) => destruct x
      end ].

Lemma setupCameraHandlers_idle (base64 : string -> list byte)
    (parsed : option websocket_handlers.CameraMessage) (now : R * R) :
  relates idle
    (websocket_handlers.setupCameraHandlers_onmessage base64 parsed now).
Proof.
  unfold websocket_handlers.setupCameraHandlers_onmessage.
  repeat idle_step.
  apply idle_rosInterface_call.
  intros st a' st' Hp E. injection E as E.
  unfold ros_interface.publishCameraData in E. rewrite Hp in E.
  cbn in E. now injection E.
Qed.

Lemma setupIMUHandlers_idle
    (parsed : option (option ros_interface.ImuData)) (now : R * R) :
  relates idle (websocket_handlers.setupIMUHandlers_onmessage parsed now).
Proof.
  unfold websocket_handlers.setupIMUHandlers_onmessage.
  repeat idle_step.
  apply idle_rosInterface_call.
  intros st a' st' Hp E.
  unfold ros_interface.publishIMUData in E. rewrite Hp in E.
  cbn in E. now injection E.
Qed.

Lemma setupGPSHandlers_idle
    (parsed : option (option ros_interface.GpsData)) (now : R * R) :
  relates idle (websocket_handlers.setupGPSHandlers_onmessage parsed now).
Proof.
  unfold websocket_handlers.setupGPSHandlers_onmessage.
  repeat idle_step.
  apply idle_rosInterface_call.
  intros st a' st' Hp E. injection E as E.
  unfold ros_interface.publishGPSData in E. rewrite Hp in E.
  cbn in E. now injection E.
Qed.

(** Once [shutdown] has run on a live node, the publishers are gone
    while the sockets may still be open: a sample that arrives in that
    window is handled without error and publishes nothing, on each of
    the three channels, and what was published before stays. *)
Theorem samples_after_shutdown_publish_nothing :
  forall (now : Z) (rcl_throws : bool) (st : ros_interface.node),
    let st' := snd (fst (ros_interface.shutdown now false true rcl_throws st)) in
    ros_interface.publishers st' = ros_interface.no_publishers /\
    ros_interface.bus st' = ros_interface.bus st /\
    forall (base64 : string -> list byte)
           (camera : option websocket_handlers.CameraMessage)
           (imu : option (option ros_interface.ImuData))
           (gps : option (option ros_interface.GpsData))
           (clock : R * R) (log : list Logger.entry),
      let srv := {| websocket_handlers.node := st';
                    websocket_handlers.log := log |} in
      websocket_handlers.node
        (snd (websocket_handlers.setupCameraHandlers_onmessage base64 camera
                clock srv)) = st' /\
      websocket_handlers.node
        (snd (websocket_handlers.setupIMUHandlers_onmessage imu clock srv)) =
        st' /\
      websocket_handlers.node
        (snd (websocket_handlers.setupGPSHandlers_onmessage gps clock srv)) =
        st'.
Proof.
  intros now rcl_throws st st'.
  assert (Hp : ros_interface.publishers st' = ros_interface.no_publishers).
  { subst st'. unfold ros_interface.shutdown. cbn [negb].
    destruct rcl_throws; reflexivity. }
  split; [exact Hp |]. split.
  { subst st'. unfold ros_interface.shutdown. cbn [negb].
    destruct rcl_throws; reflexivity. }
  intros base64 camera imu gps clock log srv.
  split; [| split].
  - apply (setupCameraHandlers_idle base64 camera clock srv Hp).
  - apply (setupIMUHandlers_idle imu clock srv Hp).
  - apply (setupGPSHandlers_idle gps clock srv Hp).
Qed.

End HandlerFacts.

(** ** More on the fan-out to the browser *)

Section FanOutOrderFacts.
Import WebSocket ros_interface.

Lemma fan_out_accumulates (frames : list frame) (peers : list ws.client) :
  fold_left (fun clients f => Spec.fan_out f clients) frames peers =
  map (fun peer =>
         if is_open (ws.readyState peer)
         then {| ws.readyState := OPEN;
                 ws.delivered := ws.delivered peer ++ frames |}
         else peer) peers.
Proof.
  revert peers. induction frames as [| f rest IH]; intros peers.
  - cbn [fold_left]. rewrite <- (map_id peers) at 1.
    apply map_ext. intros [[] dl]; cbn; try reflexivity.
    now rewrite app_nil_r.
  - cbn [fold_left]. rewrite IH. unfold Spec.fan_out. rewrite map_map.
    apply map_ext. intros [[] dl]; cbn; try reflexivity.
    now rewrite <- app_assoc.
Qed.

Lemma fold_left_ext_fst {A B : Type} (f g : A -> B -> A) (l : list B)
    (a : A) :
  (forall x y, f x y = g x y) -> fold_left f l a = fold_left g l a.
Proof.
  intros H. revert a. induction l as [| b l IH]; intros a; cbn;
    [reflexivity |]. now rewrite H, IH.
Qed.

(** Messages of the bus reach every open browser in the order in which
    they were published, each exactly once, behind what that browser
    had received before; peers that are not open receive nothing, and no
    peer is added, dropped or changes state.  This holds for the text
    channel and for both audio topics, which share one channel. *)
Theorem bus_messages_arrive_in_order :
  forall (texts : list string) (buffers : list (list byte * bool))
         (peers : list ws.client),
    fold_left (fun clients text => fst (on_mobile_sensor_tts text clients))
      texts peers =
    map (fun peer =>
           if is_open (ws.readyState peer)
           then {| ws.readyState := OPEN;
                   ws.delivered := ws.delivered peer ++ map Text texts |}
           else peer) peers /\
    fold_left (fun clients (msg : list byte * bool) =>
                 if snd msg
                 then fst (on_mobile_sensor_tts_wav (fst msg) clients)
                 else fst (on_mobile_sensor_wav_bytes (fst msg) clients))
      buffers peers =
    map (fun peer =>
           if is_open (ws.readyState peer)
           then {| ws.readyState := OPEN;
                   ws.delivered :=
                     ws.delivered peer ++
                     map (fun msg => Binary (fst msg)) buffers |}
           else peer) peers.
Proof.
  intros texts buffers peers. split.
  - rewrite <- fan_out_accumulates.
    rewrite (fold_left_ext_fst _
               (fun clients text => Spec.fan_out (Text text) clients))
      by (intros; apply on_mobile_sensor_tts_fan_out).
    generalize peers. induction texts as [| t rest IH]; intros ps; cbn;
      [reflexivity | apply IH].
  - rewrite <- fan_out_accumulates.
    rewrite (fold_left_ext_fst _
               (fun clients (msg : list byte * bool) =>
                  Spec.fan_out (Binary (fst msg)) clients)).
    + generalize peers. induction buffers as [| t rest IH]; intros ps; cbn;
        [reflexivity | apply IH].
    + intros clients [data []]; cbn [fst snd].
      * apply on_mobile_sensor_tts_wav_fan_out.
      * apply on_mobile_sensor_wav_bytes_fan_out.
Qed.

Lemma forEach_count (clients : list ws.client) (n : nat) :
  snd (ws.forEach clients
         (fun client count =>
            if is_open (ws.readyState client)
            then (client, S count)
            else (client, count)) n) =
  n + List.length (filter (fun c => is_open (ws.readyState c)) clients).
Proof.
  revert n. induction clients as [| c rest IH]; intros n; cbn [ws.forEach].
  - cbn. lia.
  - destruct (is_open (ws.readyState c)) eqn:E; cbn [filter]; rewrite E.
    + specialize (IH (S n)). destruct (ws.forEach rest _ (S n)).
      cbn [snd] in *. rewrite IH. cbn. lia.
    + specialize (IH n). destruct (ws.forEach rest _ n).
      cbn [snd] in *. exact IH.
Qed.

Lemma send_to_open_clients_count (buffer : list byte)
    (clients : list ws.client) (n : nat) :
  snd (ws.forEach clients
         (fun client clientCount =>
            if is_open (ws.readyState client)
            then (ws.send client (Binary buffer), S clientCount)
            else (client, clientCount)) n) =
  n + List.length (filter (fun c => is_open (ws.readyState c)) clients).
Proof.
  revert n. induction clients as [| c rest IH]; intros n; cbn [ws.forEach].
  - cbn. lia.
  - destruct (is_open (ws.readyState c)) eqn:E; cbn [filter]; rewrite E.
    + specialize (IH (S n)). destruct (ws.forEach rest _ (S n)).
      cbn [snd] in *. rewrite IH. cbn. lia.
    + specialize (IH n). destruct (ws.forEach rest _ n).
      cbn [snd] in *. exact IH.
Qed.

Lemma filter_open_nil (peers : list ws.client) :
  filter (fun c => is_open (ws.readyState c)) peers = [] <->
  Spec.none_open peers.
Proof.
  unfold Spec.none_open. induction peers as [| c rest IH]; cbn.
  - split; [constructor | reflexivity].
  - destruct c as [[] dl]; cbn.
    + rewrite IH. split; intros H; [constructor; [discriminate | exact H]
                                   | now inversion H].
    + split; [discriminate | intros H; inversion H as [| ? ? Hc]; now elim Hc].
    + rewrite IH. split; intros H; [constructor; [discriminate | exact H]
                                   | now inversion H].
    + rewrite IH. split; intros H; [constructor; [discriminate | exact H]
                                   | now inversion H].
Qed.

(** The counters of the callbacks count the open peers: the client
    count logged by the text callback and the one kept by the audio
    loop are the number of peers in open state, and the audio callbacks
    write their "forwarded" line exactly when at least one peer was
    open. *)
Theorem forwarding_counts_open_peers :
  forall (data : list byte) (peers : list ws.client),
    let open := filter (fun c => is_open (ws.readyState c)) peers in
    activeClientCount peers = List.length open /\
    snd (send_to_open_clients data peers) = List.length open /\
    (snd (on_mobile_sensor_tts_wav data peers) = [] <->
     Spec.none_open peers) /\
    (snd (on_mobile_sensor_wav_bytes data peers) = [] <->
     Spec.none_open peers).
Proof.
  intros data peers open.
  assert (Hc : snd (send_to_open_clients data peers) = List.length open).
  { unfold send_to_open_clients. now rewrite send_to_open_clients_count. }
  split; [apply (forEach_count peers 0) |]. split; [exact Hc |].
  unfold on_mobile_sensor_tts_wav, on_mobile_sensor_wav_bytes, Buffer_from.
  destruct (send_to_open_clients data peers) as [clients count].
  cbn [snd] in *. subst count.
  rewrite <- filter_open_nil. fold open.
  destruct open as [| c rest]; cbn [List.length Nat.ltb Nat.leb snd].
  - split; split; reflexivity.
  - split; split; intros H; discriminate H.
Qed.

(** After [closeAllConnections] no client of any of the seven servers
    is open, nothing that was delivered is lost and no client is
    dropped, a second call changes nothing, and a message that the bus
    still delivers afterwards reaches no browser. *)
Theorem closeAllConnections_stops_delivery :
  forall (s : websocket_handlers.servers) (text : string)
         (data : list byte),
    let s' := fst (websocket_handlers.closeAllConnections s) in
    let all (x : websocket_handlers.servers) :=
      [websocket_handlers.pose x; websocket_handlers.camera_clients x;
       websocket_handlers.tts x; websocket_handlers.microphone x;
       websocket_handlers.wavAudio x; websocket_handlers.imu x;
       websocket_handlers.gps x] in
    Forall Spec.none_open (all s') /\
    map (map ws.delivered) (all s') = map (map ws.delivered) (all s) /\
    fst (websocket_handlers.closeAllConnections s') = s' /\
    fst (on_mobile_sensor_tts text (websocket_handlers.tts s')) =
      websocket_handlers.tts s' /\
    on_mobile_sensor_tts_wav data (websocket_handlers.wavAudio s') =
      (websocket_handlers.wavAudio s', []) /\
    on_mobile_sensor_wav_bytes data (websocket_handlers.wavAudio s') =
      (websocket_handlers.wavAudio s', []).
Proof.
  intros s text data s' all.
  assert (Hmap : forall clients,
            websocket_handlers.close_open_clients clients =
            map (fun c => if is_open (ws.readyState c)
                          then ws.close c else c) clients).
  { intros clients. unfold websocket_handlers.close_open_clients.
    apply forEach_fst. intros c u.
    destruct (is_open (ws.readyState c)); reflexivity. }
  assert (Hdel : forall clients,
            map ws.delivered (websocket_handlers.close_open_clients clients) =
            map ws.delivered clients).
  { intros clients. rewrite Hmap, map_map. apply map_ext.
    intros [[] dl]; reflexivity. }
  assert (Hidem : forall clients,
            Spec.none_open clients ->
            websocket_handlers.close_open_clients clients = clients).
  { intros clients H. rewrite Hmap. rewrite <- (map_id clients) at 2.
    apply map_ext_in. intros c Hc.
    unfold Spec.none_open in H. rewrite Forall_forall in H.
    specialize (H c Hc). destruct c as [[] dl]; cbn in *; congruence. }
  split.
  { subst all s'. cbn.
    repeat (constructor; [apply close_open_clients_none_open |]).
    constructor. }
  split.
  { subst all s'. cbn. now rewrite !Hdel. }
  split.
  { subst s'. cbn.
    now rewrite !(Hidem _ (close_open_clients_none_open _)). }
  assert (Htts : Spec.none_open (websocket_handlers.tts s'))
    by apply close_open_clients_none_open.
  assert (Hwav : Spec.none_open (websocket_handlers.wavAudio s'))
    by apply close_open_clients_none_open.
  split.
  { rewrite on_mobile_sensor_tts_fan_out. now apply fan_out_none_open. }
  unfold on_mobile_sensor_tts_wav, on_mobile_sensor_wav_bytes, Buffer_from.
  rewrite (send_to_open_clients_none_open _ Hwav). split; reflexivity.
Qed.

End FanOutOrderFacts.

(** ** Stopping the HTTPS server *)

Section StopServerFacts.
Local Open Scope Z_scope.

(** [stopServer] always resolves its promise, between the call and two
    seconds after it, whatever the HTTPS server does: no such server,
    an exception from [close], a callback with or without an error, a
    callback that comes too late or never.  Exactly one line is logged
    by the time the promise is resolved, at that very time.  One more
    line follows in one case only: the callback of [close] fires 2000
    ms after the call or later; the first line is then the warning of
    the timer, and the late callback still logs its own line when it
    fires. *)
Theorem stopServer_resolves_within_2_seconds :
  forall (now : Z) (server : option express_server.https_server),
    (forall srv d err,
       server = Some srv ->
       express_server.callback_after srv = Some (d, err) -> 0 <= d) ->
    exists (t : Z) (line : Logger.entry) (later : Promise.timeline),
      express_server.stopServer now server = (Some t, (t, line) :: later) /\
      now <= t <= now + 2000 /\
      (later = [] \/
       exists srv d err,
         server = Some srv /\
         express_server.close_throws srv = false /\
         express_server.callback_after srv = Some (d, err) /\
         2000 <= d /\
         t = now + 2000 /\
         line = Logger.warn "SERVER"
                  "Server close operation timed out, forcing resolution" /\
         later =
           [(now + d,
             if err
             then Logger.error "SERVER" "Error stopping server"
             else Logger.success "SERVER"
                    "HTTPS server closed successfully")]) /\
      (forall srv d err,
         server = Some srv ->
         express_server.close_throws srv = false ->
         express_server.callback_after srv = Some (d, err) ->
         2000 <= d -> later <> []).
Proof.
  intros now [srv |] Hd; unfold express_server.stopServer.
  - destruct (express_server.close_throws srv) eqn:Ec.
    + eexists _, _, _. split; [reflexivity |]. split; [lia |].
      split; [now left |]. intros srv' d err [= <-] Hc. congruence.
    + destruct (express_server.callback_after srv) as [[d err] |] eqn:E.
      * specialize (Hd srv d err eq_refl E). cbv zeta.
        destruct (Z.ltb_spec (now + d) (now + 2000)).
        -- eexists _, _, _. split; [reflexivity |]. split; [lia |].
           split; [now left |].
           intros srv' d' err' [= <-] _ E' Hlate.
           rewrite E in E'. injection E' as <- <-. lia.
        -- eexists _, _, _. split; [reflexivity |]. split; [lia |].
           split; [| intros; discriminate].
           right. exists srv, d, err.
           repeat (split; [first [reflexivity | assumption | lia] |]).
           reflexivity.
      * eexists _, _, _. split; [reflexivity |]. split; [lia |].
        split; [now left |]. intros srv' d err [= <-] _ E'. congruence.
  - eexists _, _, _. split; [reflexivity |]. split; [lia |].
    split; [now left |]. intros srv d err E. discriminate E.
Qed.

(** The theorem at a server whose callback fires, with an error, 2500 ms
    after the call: the warning at 2000 ms, the error line at 2500 ms. *)
Lemma stopServer_resolves_within_2_seconds_witness :
  express_server.stopServer 0
    (Some {| express_server.close_throws := false;
             express_server.callback_after := Some (2500, true) |}) =
    (Some 2000,
     [(2000, Logger.warn "SERVER"
               "Server close operation timed out, forcing resolution");
      (2500, Logger.error "SERVER" "Error stopping server")]).
Proof.
  destruct (@stopServer_resolves_within_2_seconds 0
              (Some {| express_server.close_throws := false;
                       express_server.callback_after := Some (2500, true) |}))
    as (t & line & later & E & _ & [Hn | Hl] & Hlate).
  - intros srv d err E1 E2. injection E1 as <-. cbn in E2.
    injection E2 as <- _. lia.
  - elim (Hlate _ 2500 true eq_refl eq_refl eq_refl); [lia | exact Hn].
  - destruct Hl as (srv & d & err & Hs & _ & Hc & _ & -> & -> & ->).
    injection Hs as <-. cbn in Hc. injection Hc as <- <-.
    exact E.
Defined.

End StopServerFacts.

(** ** The session of the main script *)

Section SessionFacts.
Import WebSocket main main_session.

Lemma onclose_frame (c : channel) (st : state) :
  isSessionActive (onclose c st) = isSessionActive st /\
  enabledSensors (onclose c st) = enabledSensors st /\
  heap (onclose c st) = heap st /\
  (forall c', socket_var c' (onclose c st) = socket_var c' st).
Proof.
  destruct st as [act sens p ca mi im gp wc wim wgm cs h t].
  destruct c, act, wim, wgm;
    (split; [reflexivity |]; split; [reflexivity |];
     split; [reflexivity |]; intros []; reflexivity).
Qed.

Lemma connect_frame (c : channel) (st : state) :
  isSessionActive (connect c st) = isSessionActive st /\
  enabledSensors (connect c st) = enabledSensors st /\
  timers (connect c st) = timers st /\
  heap (connect c st) = heap st ++ [BrowserWebSocket.fresh] /\
  (forall c', socket_var c' (connect c st) =
              if channel_eqb c' c then Some (List.length (heap st))
              else socket_var c' st).
Proof.
  destruct st as [act sens p ca mi im gp wc wim wgm cs h t].
  destruct c, wim, wgm;
    (split; [reflexivity |]; split; [reflexivity |];
     split; [reflexivity |]; split; [reflexivity |];
     intros []; reflexivity).
Qed.

Lemma step_inactive (e : event) (st : state) :
  isSessionActive st = false ->
  isSessionActive (step st e) = false /\
  heap (step st e) = heap st /\
  timers (step st e) = timers st /\
  (forall c, socket_var c (step st e) = socket_var c st).
Proof.
  intros Hi. destruct e as [c | [c]]; cbn [step].
  - destruct (onclose_frame c st) as (H1 & _ & H3 & H4).
    rewrite H1, H3, main_onclose_timers, Hi, app_nil_r. auto.
  - unfold run. rewrite Hi, andb_false_r. auto.
Qed.

Lemma steps_inactive (es : list event) (st : state) :
  isSessionActive st = false ->
  isSessionActive (steps es st) = false /\
  heap (steps es st) = heap st /\
  timers (steps es st) = timers st /\
  (forall c, socket_var c (steps es st) = socket_var c st).
Proof.
  revert st. induction es as [| e es IH]; intros st Hi; cbn.
  - auto.
  - destruct (step_inactive e st Hi) as (H1 & H2 & H3 & H4).
    destruct (IH _ H1) as (G1 & G2 & G3 & G4).
    fold (steps es (step st e)).
    rewrite G2, G3, H2, H3. repeat split; auto.
    intros c. now rewrite G4.
Qed.

Lemma onSessionEnded_inactive (synth_speaking audioContext : bool)
    (p : page) :
  isSessionActive (script (onSessionEnded synth_speaking audioContext p)) =
    false.
Proof.
  unfold onSessionEnded.
  destruct (isSessionActive (script p)) eqn:E; cbn [negb].
  - cbv zeta. cbn [script]. unfold stop_imu_manager.
    match goal with
    | |- context [match ?m with Some _ => _ | None => _ end] => destruct m
    end; reflexivity.
  - exact E.
Qed.

(** The end of a session is final for the sensor sockets.  After
    [onSessionEnded], whatever sockets of the main script close and
    whichever of its timers fire, in any order (reconnects that were
    already scheduled included), the script opens no socket and adds
    no timer, the session stays inactive and the socket variables keep
    their values. *)
Theorem ended_session_opens_nothing :
  forall (p : page) (synth_speaking audioContext : bool) (es : list event),
    let ended := script (onSessionEnded synth_speaking audioContext p) in
    isSessionActive (steps es ended) = false /\
    heap (steps es ended) = heap ended /\
    timers (steps es ended) = timers ended /\
    (forall c, socket_var c (steps es ended) = socket_var c ended).
Proof.
  intros p synth_speaking audioContext es ended.
  apply steps_inactive, onSessionEnded_inactive.
Qed.

Lemma assign_length {A : Type} (l : list A) (i : nat) (v : A) :
  List.length (Js.assign l i v) = List.length l.
Proof.
  revert i. induction l as [| a l IH]; intros [| i]; cbn; auto.
Qed.

Lemma assign_nth_error_other {A : Type} (l : list A) (i j : nat) (v : A) :
  i <> j -> nth_error (Js.assign l i v) j = nth_error l j.
Proof.
  revert i j. induction l as [| a l IH]; intros [| i] [| j] H; cbn;
    try reflexivity; [now elim H | apply IH; congruence].
Qed.

Lemma close_ref_length (h : BrowserWebSocket.heap)
    (r : BrowserWebSocket.ref) :
  List.length (BrowserWebSocket.close_ref h r) = List.length h.
Proof.
  unfold BrowserWebSocket.close_ref, BrowserWebSocket.store.
  destruct r as [i |]; [| reflexivity]. cbn [BrowserWebSocket.deref].
  destruct (nth_error h i); [apply assign_length | reflexivity].
Qed.











Lemma step_enabledSensors (e : event) (st : state) :
  enabledSensors (step st e) = enabledSensors st.
Proof.
  destruct e as [c | [c]]; cbn [step].
  - apply onclose_frame.
  - unfold run. destruct (_ && _); [apply connect_frame | reflexivity].
Qed.

Lemma step_disabled (c : channel) (e : event) (st : state) :
  enabled (enabledSensors st) c = false ->
  socket_var c (step st e) = socket_var c st.
Proof.
  intros Hd. destruct e as [c' | [c']]; cbn [step].
  - apply onclose_frame.
  - unfold run.
    destruct (enabled (enabledSensors st) c' && isSessionActive st) eqn:E;
      [| reflexivity].
    destruct (connect_frame c' st) as (_ & _ & _ & _ & Hv). rewrite Hv.
    destruct c, c'; cbn [channel_eqb]; try reflexivity;
      apply andb_prop in E; destruct E as [E _]; congruence.
Qed.

Lemma steps_disabled (c : channel) (es : list event) (st : state) :
  enabled (enabledSensors st) c = false ->
  socket_var c (steps es st) = socket_var c st /\
  enabledSensors (steps es st) = enabledSensors st.
Proof.
  revert st. induction es as [| e es IH]; intros st Hd; cbn; [auto |].
  fold (steps es (step st e)).
  destruct (IH (step st e)) as [H1 H2].
  - now rewrite step_enabledSensors.
  - rewrite H1, H2, step_enabledSensors. split; [| reflexivity].
    now apply step_disabled.
Qed.

(** Unticking the IMU box (on a phone) or the GPS box closes the socket
    of that sensor and no other, adds no timer and leaves the socket
    variables as they are; and from then on, whatever sockets close and
    whatever timers fire, that sensor is never connected again: the
    reconnect that the close of its socket schedules finds the sensor
    disabled. *)
Theorem unticking_a_sensor_disconnects_it_for_good :
  forall (isIOS isAndroid : bool) (st : state) (es : list event),
    (isIOS || isAndroid = true ->
     let off := imu_select_onchange false isIOS isAndroid st in
     enabled_imu (enabledSensors off) = false /\
     heap off = BrowserWebSocket.close_ref (heap st) (imuWs st) /\
     (forall c, socket_var c off = socket_var c st) /\
     timers off = timers st /\
     isSessionActive off = isSessionActive st /\
     imuWs (steps es off) = imuWs st) /\
    (let off := gps_select_onchange false st in
     enabled_gps (enabledSensors off) = false /\
     heap off = BrowserWebSocket.close_ref (heap st) (gpsWs st) /\
     (forall c, socket_var c off = socket_var c st) /\
     timers off = timers st /\
     isSessionActive off = isSessionActive st /\
     gpsWs (steps es off) = gpsWs st).
Proof.
  intros isIOS isAndroid st es. split.
  - intros Hmobile off.
    assert (H : enabled_imu (enabledSensors off) = false /\
                heap off = BrowserWebSocket.close_ref (heap st) (imuWs st) /\
                (forall c, socket_var c off = socket_var c st) /\
                timers off = timers st /\
                isSessionActive off = isSessionActive st).
    { subst off. unfold imu_select_onchange.
      replace (negb isIOS && negb isAndroid) with false
        by (destruct isIOS, isAndroid; cbn in *; congruence).
      destruct st as [act sens p ca mi im gp wc wim wgm cs h t].
      destruct im as [i |], wim; cbn;
        (split; [reflexivity |]; split; [reflexivity |];
         split; [intros []; reflexivity |]; split; reflexivity). }
    destruct H as (H1 & H2 & H3 & H4 & H5).
    repeat (split; [assumption |]).
    destruct (steps_disabled imu es off H1) as [Hs _].
    cbn [socket_var] in Hs. rewrite Hs. exact (H3 imu).
  - intros off.
    assert (H : enabled_gps (enabledSensors off) = false /\
                heap off = BrowserWebSocket.close_ref (heap st) (gpsWs st) /\
                (forall c, socket_var c off = socket_var c st) /\
                timers off = timers st /\
                isSessionActive off = isSessionActive st).
    { subst off. unfold gps_select_onchange.
      destruct st as [act sens p ca mi im gp wc wim wgm cs h t].
      destruct gp as [i |], wgm; cbn;
        (split; [reflexivity |]; split; [reflexivity |];
         split; [intros []; reflexivity |]; split; reflexivity). }
    destruct H as (H1 & H2 & H3 & H4 & H5).
    repeat (split; [assumption |]).
    destruct (steps_disabled gps es off H1) as [Hs _].
    cbn [socket_var] in Hs. rewrite Hs. exact (H3 gps).
Qed.

Lemma unticking_a_sensor_disconnects_it_for_good_witness :
  imuWs (steps [Closed imu; Fired (reconnect imu)]
           (imu_select_onchange false false true Scenarios.session)) =
    Some 1 /\
  heap (imu_select_onchange false false true Scenarios.session) =
    BrowserWebSocket.close_ref (heap Scenarios.session) (Some 1).
Proof.
  destruct (unticking_a_sensor_disconnects_it_for_good false true
              Scenarios.session [Closed imu; Fired (reconnect imu)])
    as [H _].
  destruct (H eq_refl) as (_ & H2 & _ & _ & _ & H6).
  split; [exact H6 | exact H2].
Defined.

Lemma close_and_retry_grows (c : channel) (n : nat) :
  forall st : state,
    isSessionActive st = true ->
    enabled (enabledSensors st) c = true ->
    heap (close_and_retry c n st) =
      heap st ++ repeat BrowserWebSocket.fresh n /\
    timers (close_and_retry c n st) =
      timers st ++ repeat (1000%Z, reconnect c) n /\
    isSessionActive (close_and_retry c n st) = true /\
    socket_var c (close_and_retry c n st) =
      match n with
      | O => socket_var c st
      | S k => Some (List.length (heap st) + k)
      end.
Proof.
  induction n as [| n IH]; intros st Hact Hen; cbn [close_and_retry].
  - cbn [repeat]. rewrite !app_nil_r. auto.
  - destruct (onclose_frame c st) as (O1 & O2 & O3 & O4).
    assert (Hrun : run (reconnect c) (onclose c st) =
                   connect c (onclose c st)).
    { unfold run. now rewrite O1, O2, Hen, Hact. }
    rewrite Hrun.
    destruct (connect_frame c (onclose c st)) as (C1 & C2 & C3 & C4 & C5).
    destruct (IH (connect c (onclose c st))) as (G1 & G2 & G3 & G4).
    + now rewrite C1, O1.
    + now rewrite C2, O2.
    + rewrite G1, G2, G3, G4, C3, C4, O3, main_onclose_timers, Hact.
      rewrite <- !app_assoc. cbn [app repeat].
      split; [reflexivity |]. split; [| split; [reflexivity |]].
      * reflexivity.
      * destruct n as [| k].
        -- rewrite C5. replace (channel_eqb c c) with true
             by (destruct c; reflexivity).
           rewrite O3. f_equal. lia.
        -- rewrite length_app. cbn [List.length]. f_equal. lia.
Qed.

(** While the session is active and the sensor enabled, a channel that
    keeps closing is reconnected every time: after [n] rounds of close
    and timer there are [n] new sockets and [n] timers, each one second
    long, the variable of the channel names the latest socket, and
    nothing ends the retrying. *)
Theorem reconnect_is_retried_without_limit :
  forall (c : channel) (n : nat) (st : state),
    isSessionActive st = true ->
    enabled (enabledSensors st) c = true ->
    heap (close_and_retry c n st) =
      heap st ++ repeat BrowserWebSocket.fresh n /\
    timers (close_and_retry c n st) =
      timers st ++ repeat (1000%Z, reconnect c) n /\
    isSessionActive (close_and_retry c n st) = true /\
    (0 < n ->
     socket_var c (close_and_retry c n st) =
       Some (List.length (heap st) + n - 1)).
Proof.
  intros c n st Hact Hen.
  destruct (close_and_retry_grows c n st Hact Hen) as (H1 & H2 & H3 & H4).
  repeat (split; [assumption |]).
  intros Hn. rewrite H4. destruct n as [| k]; [lia |]. f_equal. lia.
Qed.

Lemma reconnect_is_retried_without_limit_witness :
  heap (close_and_retry camera 3 Scenarios.session) =
    heap Scenarios.session ++ repeat BrowserWebSocket.fresh 3 /\
  socket_var camera (close_and_retry camera 3 Scenarios.session) = Some 5.
Proof.
  destruct (@reconnect_is_retried_without_limit camera 3 Scenarios.session
              eq_refl eq_refl) as (H1 & _ & _ & H4).
  split; [exact H1 |]. apply H4. lia.
Defined.

Lemma channel_eqb_eq (a b : channel) : channel_eqb a b = true <-> a = b.
Proof. destruct a, b; cbn; split; congruence. Qed.

Lemma connect_all_frame (cs : list channel) :
  forall st : state,
    NoDup cs ->
    let st' := fold_left (fun st c => connect c st) cs st in
    heap st' = heap st ++ repeat BrowserWebSocket.fresh (List.length cs) /\
    timers st' = timers st /\
    (forall c, ~ In c cs -> socket_var c st' = socket_var c st) /\
    (forall k c, nth_error cs k = Some c ->
                 socket_var c st' = Some (List.length (heap st) + k)).
Proof.
  induction cs as [| c0 cs IH]; intros st Hnd; cbn [fold_left].
  - cbn. rewrite app_nil_r. repeat split; auto.
    intros [| k] c E; discriminate E.
  - inversion Hnd as [| ? ? Hnotin Hnd']; subst.
    destruct (connect_frame c0 st) as (_ & _ & C3 & C4 & C5).
    destruct (IH (connect c0 st) Hnd') as (G1 & G2 & G3 & G4).
    cbv zeta in *. rewrite G1, G2, C3, C4, <- app_assoc.
    split; [reflexivity |]. split; [reflexivity |]. split.
    + intros c Hc. rewrite G3 by (intros H; apply Hc; now right).
      rewrite C5.
      destruct (channel_eqb c c0) eqn:E; [| reflexivity].
      apply channel_eqb_eq in E. elim Hc. now left.
    + intros [| k] c E; cbn [nth_error] in E.
      * injection E as <-. rewrite G3 by exact Hnotin. rewrite C5.
        replace (channel_eqb c0 c0) with true
          by (symmetry; now apply channel_eqb_eq).
        f_equal. lia.
      * rewrite (G4 _ _ E), C4, length_app. cbn [List.length]. f_equal. lia.
Qed.

Lemma connectWebSockets_unfolded (constructor_throws isIOS isAndroid : bool)
    (st : state) :
  connectWebSockets constructor_throws isIOS isAndroid st =
  if isSessionActive st
  then
    fold_left (fun st c => connect c st)
      (filter (fun c =>
                 match c with
                 | camera => enabled_camera (enabledSensors st) &&
                             negb constructor_throws
                 | imu => enabled_imu (enabledSensors st) &&
                          (isIOS || isAndroid)
                 | c => enabled (enabledSensors st) c
                 end)
         [pose; camera; microphone; imu; gps])
      (if enabled_camera (enabledSensors st) && constructor_throws
       then set_enabledSensors (set_camera false (enabledSensors st)) st
       else st)
  else st.
Proof.
  destruct st as [act sens p ca mi im gp wc wim wgm cs h t].
  destruct sens as [ec ep em ea ei eg].
  destruct act; [| reflexivity].
  destruct ec, ep, em, ei, eg, constructor_throws, isIOS, isAndroid,
    wim, wgm; cbn; reflexivity.
Qed.

(** [connectWebSockets] opens exactly one new socket for every sensor
    that is to be connected (enabled; for the camera, its manager could
    be created; for the IMU, the device is a phone), in the order pose,
    camera, microphone, IMU, GPS, and points the variable of that
    sensor to it.  It never closes or reuses a socket it already has:
    the old ones stay in the page as they are.  Outside a session it
    does nothing. *)
Theorem connectWebSockets_opens_a_socket_per_sensor :
  forall (constructor_throws isIOS isAndroid : bool) (st : state),
    let wanted (c : channel) :=
      isSessionActive st &&
      match c with
      | camera => enabled_camera (enabledSensors st) &&
                  negb constructor_throws
      | imu => enabled_imu (enabledSensors st) && (isIOS || isAndroid)
      | c => enabled (enabledSensors st) c
      end in
    let opened := filter wanted [pose; camera; microphone; imu; gps] in
    let st' := connectWebSockets constructor_throws isIOS isAndroid st in
    heap st' =
      heap st ++ repeat BrowserWebSocket.fresh (List.length opened) /\
    timers st' = timers st /\
    (forall c, wanted c = false -> socket_var c st' = socket_var c st) /\
    (forall c, wanted c = true ->
       exists k, nth_error opened k = Some c /\
                 socket_var c st' = Some (List.length (heap st) + k)).
Proof.
  intros constructor_throws isIOS isAndroid st wanted opened st'.
  subst st'. rewrite connectWebSockets_unfolded.
  destruct (isSessionActive st) eqn:Hact.
  - assert (Hop : opened =
              filter (fun c =>
                 match c with
                 | camera => enabled_camera (enabledSensors st) &&
                             negb constructor_throws
                 | imu => enabled_imu (enabledSensors st) &&
                          (isIOS || isAndroid)
                 | c => enabled (enabledSensors st) c
                 end) [pose; camera; microphone; imu; gps]).
    { subst opened wanted. apply filter_ext. intros c. reflexivity. }
    rewrite <- Hop.
    set (st1 := if enabled_camera (enabledSensors st) && constructor_throws
                then set_enabledSensors (set_camera false (enabledSensors st))
                       st
                else st).
    assert (H1 : heap st1 = heap st /\ timers st1 = timers st /\
                 forall c, socket_var c st1 = socket_var c st).
    { subst st1.
      destruct (enabled_camera (enabledSensors st) && constructor_throws);
        (split; [reflexivity |]; split; [reflexivity |];
         intros []; reflexivity). }
    destruct H1 as (Hh & Ht & Hv).
    assert (Hnd : NoDup opened).
    { subst opened. apply NoDup_filter.
      repeat (constructor; [cbn; intuition discriminate |]). constructor. }
    destruct (@connect_all_frame opened st1 Hnd) as (G1 & G2 & G3 & G4).
    cbv zeta in *. rewrite G1, G2, Hh, Ht.
    split; [reflexivity |]. split; [reflexivity |]. split.
    + intros c Hc. rewrite G3, Hv; [reflexivity |].
      subst opened. rewrite filter_In. intros [_ H]. congruence.
    + intros c Hc.
      assert (Hin : In c opened).
      { subst opened. apply filter_In. split; [| exact Hc].
        destruct c; cbn; auto 6. }
      destruct (In_nth_error _ _ Hin) as (k & Hk).
      exists k. split; [exact Hk |]. rewrite <- Hh. now apply G4.
  - assert (Hop : opened = []).
    { subst opened wanted. cbn. reflexivity. }
    rewrite Hop. cbn. rewrite app_nil_r.
    split; [reflexivity |]. split; [reflexivity |].
    split; [reflexivity |]. intros c Hc. subst wanted. cbn in Hc.
    discriminate Hc.
Qed.

End SessionFacts.

(** ** The audio player: queue, session and socket *)

Section AudioPlayerFacts.
Import Js WebSocket audioPlayer audioPlayer_api.

Lemma processedData_total (audioData : list byte) :
  exists framed : list byte, processedData audioData = Return framed.
Proof.
  destruct (processedData_cases audioData) as [[_ H] | [_ H]].
  - eauto.
  - rewrite H, addWavHeader_bytes. eauto.
Qed.

Lemma processAudioData_busy (audioData framed : list byte) (st : state) :
  processedData audioData = Return framed ->
  currentlyPlaying st = true ->
  processAudioData audioData st =
    (Return tt, with_audioQueue st (audioQueue st ++ [framed])).
Proof.
  intros Hf Hb. unfold processAudioData, ebind, lift, modify. rewrite Hf.
  unfold currentlyPlaying in Hb.
  destruct (isIOS st).
  - now rewrite Hb.
  - apply andb_prop in Hb. destruct Hb as [Hn He].
    apply negb_true_iff in Hn. now rewrite Hn, He.
Qed.

Lemma queue_while_busy (buffers : list (list byte)) :
  forall st : state,
    currentlyPlaying st = true ->
    exists framed : list (list byte),
      Forall2 (fun b f => processedData b = Return f) buffers framed /\
      fold_left (fun st b => snd (processAudioData b st)) buffers st =
        with_audioQueue st (audioQueue st ++ framed).
Proof.
  induction buffers as [| b rest IH]; intros st Hb; cbn [fold_left].
  - exists []. split; [constructor |]. rewrite app_nil_r.
    now destruct st.
  - destruct (processedData_total b) as (f & Hf).
    rewrite (processAudioData_busy _ st Hf Hb). cbn [snd].
    destruct (IH (with_audioQueue st (audioQueue st ++ [f]))) as (fs & H1 & H2).
    + exact Hb.
    + exists (f :: fs). split; [now constructor |].
      rewrite H2. cbn [with_audioQueue audioQueue]. now rewrite <- app_assoc.
Qed.

Lemma drain_queue (n : nat) :
  forall st : state,
    List.length (audioQueue st) = n ->
    audioQueue (Nat.iter n playNextInQueue st) = [] /\
    playback (Nat.iter n playNextInQueue st) =
      playback st ++ map playAudioData (audioQueue st) /\
    isPlaying (Nat.iter n playNextInQueue st) = isPlaying st.
Proof.
  induction n as [| n IH]; intros st Hl.
  - destruct (audioQueue st) eqn:E; [| discriminate Hl].
    cbn. rewrite E, app_nil_r. auto.
  - destruct (audioQueue st) as [| b rest] eqn:E; [discriminate Hl |].
    rewrite Nat.iter_succ_r.
    destruct (IH (playNextInQueue st)) as (H1 & H2 & H3).
    + unfold playNextInQueue. rewrite E. cbn. cbn in Hl. lia.
    + rewrite H1, H2, H3. unfold playNextInQueue. rewrite E. cbn.
      rewrite <- app_assoc. auto.
Qed.

(** Audio that arrives while the player is busy is queued behind what
    is already waiting, framed, and the queue is played first in, first
    out: as many "ended" events as there are buffers waiting hand them
    to playback in the order of arrival and empty the queue, and the
    next "ended" event finds nothing and marks the player idle. *)
Theorem queued_audio_is_played_in_arrival_order :
  forall (st : state) (buffers : list (list byte)),
    currentlyPlaying st = true ->
    exists framed : list (list byte),
      Forall2 (fun b f => processedData b = Return f) buffers framed /\
      let queued :=
        fold_left (fun st b => snd (processAudioData b st)) buffers st in
      audioQueue queued = audioQueue st ++ framed /\
      playback queued = playback st /\
      let drained :=
        Nat.iter (List.length (audioQueue queued)) playNextInQueue queued in
      audioQueue drained = [] /\
      playback drained =
        playback st ++ map playAudioData (audioQueue st ++ framed) /\
      playback (playNextInQueue drained) = playback drained /\
      isPlaying (playNextInQueue drained) = false.
Proof.
  intros st buffers Hb.
  destruct (queue_while_busy buffers st Hb) as (framed & HF & Hq).
  exists framed. split; [exact HF |]. cbv zeta. rewrite Hq.
  split; [reflexivity |]. split; [reflexivity |].
  destruct (drain_queue
              (with_audioQueue st (audioQueue st ++ framed)) eq_refl)
    as (H1 & H2 & H3).
  split; [exact H1 |]. split; [exact H2 |].
  assert (Hn : forall s, audioQueue s = [] ->
                 playNextInQueue s = with_isPlaying s false).
  { intros s E. unfold playNextInQueue. now rewrite E. }
  rewrite (Hn _ H1). split; reflexivity.
Qed.

Lemma queued_audio_is_played_in_arrival_order_witness :
  exists framed : list (list byte),
    Forall2 (fun b f => processedData b = Return f)
      [[Byte.x01]; [Byte.x02]] framed /\
    audioQueue
      (fold_left (fun st b => snd (processAudioData b st))
         [[Byte.x01]; [Byte.x02]] Scenarios.busy_player) =
      [[Byte.x0a]] ++ framed.
Proof.
  destruct (@queued_audio_is_played_in_arrival_order Scenarios.busy_player
              [[Byte.x01]; [Byte.x02]] eq_refl) as (framed & H1 & H2 & _).
  exists framed. split; [exact H1 | exact H2].
Defined.

Lemma connectWebSocket_frame (st : state) :
  autoReconnect (connectWebSocket st) = autoReconnect st /\
  timers (connectWebSocket st) = timers st /\
  playback (connectWebSocket st) = playback st /\
  isSessionActive (connectWebSocket st) = isSessionActive st.
Proof.
  unfold connectWebSocket.
  destruct (negb _ || negb _); [auto |].
  destruct (BrowserWebSocket.deref (heap st) (ws st)) as [[[] ? ?] |];
    cbn; auto.
Qed.

Lemma processAudioData_frame (audioData : list byte) (st : state) :
  fst (processAudioData audioData st) = Return tt /\
  autoReconnect (snd (processAudioData audioData st)) = autoReconnect st /\
  timers (snd (processAudioData audioData st)) = timers st /\
  isSessionActive (snd (processAudioData audioData st)) =
    isSessionActive st /\
  ws (snd (processAudioData audioData st)) = ws st /\
  heap (snd (processAudioData audioData st)) = heap st.
Proof.
  destruct (processAudioData_hands_over audioData st)
    as (framed & _ & [H | [H | [H | H]]]); rewrite H; cbn; auto 6.
Qed.

Lemma ws_onmessage_frame (data : frame) (st : state) :
  autoReconnect (snd (ws_onmessage data st)) = autoReconnect st /\
  timers (snd (ws_onmessage data st)) = timers st.
Proof.
  destruct data as [s | b | j]; cbn [ws_onmessage].
  - auto.
  - destruct (negb (isSessionActive st)); [auto |].
    destruct (processAudioData_frame b st) as (_ & H1 & H2 & _). auto.
  - destruct (sessionState_of j); cbn; auto.
Qed.

Lemma playNextInQueue_frame (st : state) :
  autoReconnect (playNextInQueue st) = autoReconnect st /\
  timers (playNextInQueue st) = timers st.
Proof. unfold playNextInQueue. destruct (audioQueue st); cbn; auto. Qed.

Lemma disconnectWebSocket_frame (st : state) :
  autoReconnect (disconnectWebSocket st) = false /\
  timers (disconnectWebSocket st) = timers st /\
  ws (disconnectWebSocket st) = None /\
  heap (disconnectWebSocket st) =
    BrowserWebSocket.close_ref (heap st) (ws st).
Proof.
  unfold disconnectWebSocket. cbv zeta.
  cbn [with_autoReconnect ws heap].
  destruct (ws st) eqn:E; cbn; auto.
Qed.

Lemma step_autoReconnect_off (e : event) (st : state) :
  autoReconnect st = false ->
  autoReconnect (step st e) = false /\ timers (step st e) = timers st.
Proof.
  intros Hoff. destruct e; cbn [step].
  - destruct (ws_onmessage_frame data st) as [H1 H2]. now rewrite H1, H2.
  - unfold ws_onclose. cbv zeta. cbn [with_ui_status autoReconnect].
    rewrite Hoff. cbn. auto.
  - destruct cb. cbn [run].
    destruct (connectWebSocket_frame st) as (H1 & H2 & _). now rewrite H1, H2.
  - cbn. auto.
  - unfold audioElement_onended. cbv zeta.
    destruct (nth_error (audioElements st) i);
      match goal with
      | |- context [playNextInQueue ?s] =>
          destruct (playNextInQueue_frame s) as [H1 H2]; rewrite H1, H2
      end; cbn; auto.
  - destruct (playNextInQueue_frame st) as [H1 H2]. now rewrite H1, H2.
  - unfold fetchConfig. destruct f as [| | mode enabled]; [auto | |]; cbv zeta.
    + destruct (_ && _); [| auto].
      match goal with
      | |- context [connectWebSocket ?s] =>
          destruct (connectWebSocket_frame s) as (H1 & H2 & _);
          rewrite H1, H2
      end.
      destruct (negb (isIOS st)); cbn; auto.
    + destruct (_ && _); [| cbn; auto].
      match goal with
      | |- context [connectWebSocket ?s] =>
          destruct (connectWebSocket_frame s) as (H1 & H2 & _);
          rewrite H1, H2
      end.
      destruct (negb _); cbn; auto.
  - unfold audio_select_onchange.
    destruct mode_is_wav as [[] |]; [| auto | auto].
    destruct checked; cbv zeta.
    + destruct (negb _); [| cbn; auto].
      match goal with
      | |- context [connectWebSocket ?s] =>
          destruct (connectWebSocket_frame s) as (H1 & H2 & _);
          rewrite H1, H2
      end. cbn. auto.
    + destruct (disconnectWebSocket_frame st) as (H1 & H2 & _).
      cbn [with_audioConfig autoReconnect timers]. auto.
  - destruct (connectWebSocket_frame st) as (H1 & H2 & _). now rewrite H1, H2.
  - destruct (disconnectWebSocket_frame st) as (H1 & H2 & _). auto.
  - unfold playAudio. destruct (_ && _ && _); [| auto].
    destruct (processAudioData_frame arrayBuffer st) as (H0 & H1 & H2 & _).
    destruct (processAudioData arrayBuffer st) as [[[] | e] st'];
      cbn [fst snd] in *; [rewrite H1, H2; auto | discriminate H0].
  - cbn. auto.
  - unfold setSessionActive. cbv zeta. destruct (negb active); [| cbn; auto].
    cbn [with_audioQueue with_isSessionActive isIOS].
    destruct (isIOS st); cbn; auto.
  - unfold stopAllAudio. cbv zeta.
    cbn [with_audioQueue with_isPlaying isIOS].
    destruct (isIOS st && audioContext); cbn; auto.
Qed.

(** [disconnectWebSocket] switches the automatic reconnect of the
    wav-audio socket off, and nothing in the file switches it on again:
    whatever happens afterwards (messages, closes, timers, playback
    events, a new configuration, the checkbox, any call of the public
    interface, a new connection included), a close of the socket never
    schedules a reconnect again. *)
Theorem wav_audio_reconnect_stays_off :
  forall (st : state) (es : list event),
    let off := disconnectWebSocket st in
    autoReconnect (steps es off) = false /\
    timers (steps es off) = timers st /\
    timers (ws_onclose (steps es off)) = timers st.
Proof.
  intros st es off.
  assert (H : forall s, autoReconnect s = false ->
            autoReconnect (steps es s) = false /\
            timers (steps es s) = timers s).
  { induction es as [| e es IH]; intros s Hs; cbn; [auto |].
    destruct (step_autoReconnect_off e s Hs) as [H1 H2].
    destruct (IH _ H1) as [G1 G2]. fold (steps es (step s e)).
    rewrite G1, G2, H2. auto. }
  destruct (disconnectWebSocket_frame st) as (D1 & D2 & _).
  destruct (H off D1) as [H1 H2]. fold off in D2.
  split; [exact H1 |]. split; [congruence |].
  unfold ws_onclose. cbv zeta. cbn [with_ui_status autoReconnect].
  rewrite H1. cbn. congruence.
Qed.

Lemma new_socket_deref (h : BrowserWebSocket.heap) :
  BrowserWebSocket.deref (h ++ [BrowserWebSocket.fresh])
    (Some (List.length h)) = Some BrowserWebSocket.fresh.
Proof.
  cbn [BrowserWebSocket.deref].
  rewrite nth_error_app2 by lia. now rewrite Nat.sub_diag.
Qed.

(** [connectWebSocket] never opens a second socket next to a live one:
    calling it twice in a row is the same as calling it once, and when
    the player already holds a socket that is connecting or open the
    call changes nothing at all. *)
Theorem connectWebSocket_is_idempotent :
  forall st : state,
    connectWebSocket (connectWebSocket st) = connectWebSocket st /\
    (forall w,
       BrowserWebSocket.deref (heap st) (ws st) = Some w ->
       BrowserWebSocket.readyState w = CONNECTING \/
       BrowserWebSocket.readyState w = OPEN ->
       connectWebSocket st = st).
Proof.
  intros st. split.
  - unfold connectWebSocket at 2.
    destruct (negb (String.eqb (audioConfig_mode st) "wav") ||
              negb (audioConfig_enabled st)) eqn:G.
    + unfold connectWebSocket. now rewrite G.
    + assert (Hnew :
        connectWebSocket
          (with_ws (with_ui_status st "connecting")
             (Some (List.length (heap st)))
             (heap st ++ [BrowserWebSocket.fresh])) =
        with_ws (with_ui_status st "connecting")
          (Some (List.length (heap st)))
          (heap st ++ [BrowserWebSocket.fresh])).
      { unfold connectWebSocket.
        cbn [with_ws with_ui_status audioConfig_mode audioConfig_enabled
             heap ws].
        rewrite G, new_socket_deref. reflexivity. }
      destruct (BrowserWebSocket.deref (heap st) (ws st))
        as [[[] sent discarded] |] eqn:D;
        try exact Hnew;
        unfold connectWebSocket; now rewrite G, D.
  - intros w D Hw. unfold connectWebSocket.
    destruct (negb _ || negb _); [reflexivity |]. rewrite D.
    destruct w as [[] sent discarded]; cbn in Hw; try reflexivity;
      destruct Hw as [Hw | Hw]; discriminate Hw.
Qed.

Lemma connectWebSocket_is_idempotent_witness :
  connectWebSocket Scenarios.busy_player = Scenarios.busy_player.
Proof.
  destruct (connectWebSocket_is_idempotent Scenarios.busy_player) as [_ H].
  apply (H Scenarios.open_socket); [reflexivity | now right].
Defined.

(** The greeting the server sends to a browser that joins the
    wav-audio channel is what switches the player on: before it,
    binary frames are dropped; the greeting sets the session flag; and
    from then on a binary frame goes to [processAudioData]. *)
Theorem server_greeting_activates_the_player :
  forall (peers : list ws.client) (st : state) (data : list byte),
    isSessionActive st = false ->
    exists (greeting : frame) (joined : ws.client),
      websocket_handlers.setupWavAudioHandlers_onconnection peers =
        peers ++ [joined] /\
      ws.delivered joined = [greeting] /\
      ws_onmessage (Binary data) st = (Return tt, st) /\
      let greeted := snd (ws_onmessage greeting st) in
      isSessionActive greeted = true /\
      greeted = with_isSessionActive st true /\
      ws_onmessage (Binary data) greeted = processAudioData data greeted.
Proof.
  intros peers st data Hoff.
  eexists _, _. split; [reflexivity |]. split; [reflexivity |].
  split; [cbn [ws_onmessage]; now rewrite Hoff |].
  cbv zeta. split; [reflexivity |]. split; [reflexivity |]. reflexivity.
Qed.

Lemma server_greeting_activates_the_player_witness :
  exists (greeting : frame) (joined : ws.client),
    websocket_handlers.setupWavAudioHandlers_onconnection [] = [joined] /\
    ws.delivered joined = [greeting] /\
    isSessionActive
      (snd (ws_onmessage greeting
              (with_isSessionActive Scenarios.busy_player false))) = true.
Proof.
  destruct (@server_greeting_activates_the_player []
              (with_isSessionActive Scenarios.busy_player false)
              [Byte.x01] eq_refl)
    as (greeting & joined & H1 & H2 & _ & H4 & _).
  exists greeting, joined. split; [exact H1 |]. split; [exact H2 | exact H4].
Defined.

Lemma step_inactive_player (e : event) (st : state) :
  match e with
  | Message (Stringified _) | Api_setSessionActive true => False
  | _ => True
  end ->
  isSessionActive st = false -> audioQueue st = [] ->
  isSessionActive (step st e) = false /\
  audioQueue (step st e) = [] /\
  playback (step st e) = playback st.
Proof.
  intros He Hoff Hq. destruct e; cbn [step].
  - destruct data as [s | b | j]; [| | contradiction]; cbn [ws_onmessage].
    + auto.
    + rewrite Hoff. cbn. auto.
  - unfold ws_onclose. cbv zeta. cbn [with_ui_status autoReconnect].
    destruct (autoReconnect st); cbn; auto.
  - destruct cb. cbn [run]. unfold connectWebSocket.
    destruct (negb _ || negb _); [auto |].
    destruct (BrowserWebSocket.deref (heap st) (ws st)) as [[[] ? ?] |];
      cbn; auto.
  - cbn. auto.
  - unfold audioElement_onended, playNextInQueue. cbv zeta.
    destruct (nth_error (audioElements st) i);
      cbn [with_audioElements audioQueue]; rewrite Hq; cbn; auto.
  - unfold playNextInQueue. rewrite Hq. cbn. auto.
  - unfold fetchConfig. destruct f as [| | mode enabled]; [auto | |]; cbv zeta.
    + destruct (_ && _); [| auto]. unfold connectWebSocket.
      destruct (negb _ || negb _); [destruct (negb (isIOS st)); cbn; auto |].
      destruct (negb (isIOS st)); cbn;
        destruct (BrowserWebSocket.deref (heap st) (ws st)) as [[[] ? ?] |];
        cbn; auto.
    + destruct (_ && _); [| cbn; auto]. unfold connectWebSocket.
      destruct (negb _ || negb _); [destruct (negb _); cbn; auto |].
      destruct (negb _); cbn;
        destruct (BrowserWebSocket.deref (heap st) (ws st)) as [[[] ? ?] |];
        cbn; auto.
  - unfold audio_select_onchange.
    destruct mode_is_wav as [[] |]; [| auto | auto].
    destruct checked; cbv zeta.
    + destruct (negb _); [| cbn; auto]. unfold connectWebSocket.
      destruct (negb _ || negb _); [cbn; auto |]. cbn.
      destruct (BrowserWebSocket.deref (heap st) (ws st)) as [[[] ? ?] |];
        cbn; auto.
    + unfold disconnectWebSocket. cbv zeta. cbn.
      destruct (ws st); cbn; auto.
  - unfold connectWebSocket.
    destruct (negb _ || negb _); [auto |].
    destruct (BrowserWebSocket.deref (heap st) (ws st)) as [[[] ? ?] |];
      cbn; auto.
  - unfold disconnectWebSocket. cbv zeta. cbn.
    destruct (ws st); cbn; auto.
  - unfold playAudio. rewrite Hoff, andb_false_r. cbn. auto.
  - cbn. auto.
  - destruct active; [contradiction |].
    unfold setSessionActive. cbv zeta. cbn.
    destruct (isIOS st); cbn; auto.
  - unfold stopAllAudio. cbv zeta. cbn.
    destruct (isIOS st && audioContext); cbn; auto.
Qed.

(** Once the session of the player has been set inactive, what was
    waiting in the queue is discarded and nothing is handed to playback
    any more: binary frames, calls of [playAudio], and "ended" events
    are all without effect on playback, until a message or a call
    activates the session again. *)
Theorem inactive_player_plays_nothing :
  forall (st : state) (es : list event),
    Forall (fun e =>
              match e with
              | Message (Stringified _) | Api_setSessionActive true => False
              | _ => True
              end) es ->
    let off := setSessionActive false st in
    playback (steps es off) = playback st /\
    audioQueue (steps es off) = [] /\
    isSessionActive (steps es off) = false.
Proof.
  intros st es Hes off.
  assert (H0 : isSessionActive off = false /\ audioQueue off = [] /\
               playback off = playback st).
  { subst off. unfold setSessionActive. cbv zeta. cbn.
    destruct (isIOS st); cbn; auto. }
  destruct H0 as (Hoff & Hq & Hp). rewrite <- Hp.
  clearbody off. clear Hp. revert off Hoff Hq.
  induction Hes as [| e es He _ IH]; intros off Hoff Hq; cbn; [auto |].
  destruct (step_inactive_player e off He Hoff Hq) as (H1 & H2 & H3).
  fold (steps es (step off e)).
  destruct (IH _ H1 H2) as (G1 & G2 & G3).
  rewrite G1, G2, G3, H3. auto.
Qed.

Lemma inactive_player_plays_nothing_witness :
  playback
    (steps [Message (Binary [Byte.x01]); Api_playAudio [Byte.x02];
            Source_ended]
       (setSessionActive false Scenarios.busy_player)) = [] /\
  audioQueue
    (steps [Message (Binary [Byte.x01]); Api_playAudio [Byte.x02];
            Source_ended]
       (setSessionActive false Scenarios.busy_player)) = [].
Proof.
  destruct (@inactive_player_plays_nothing Scenarios.busy_player
              [Message (Binary [Byte.x01]); Api_playAudio [Byte.x02];
               Source_ended]) as (H1 & H2 & _).
  - repeat constructor.
  - split; [exact H1 | exact H2].
Defined.

(** [disconnectWebSocket] does not cancel a reconnect that is already
    scheduled.  When that timer fires after the disconnect (the
    configuration still asking for the channel), a new socket is opened
    all the same, on the wav-audio channel and on the speech channel;
    on the speech channel this also switches the automatic reconnect
    back on. *)
Theorem pending_reconnect_survives_disconnect :
  (forall st : state,
     audioConfig_mode st = "wav"%string ->
     audioConfig_enabled st = true ->
     let st' := run Callback_connectWebSocket (disconnectWebSocket st) in
     heap st' =
       BrowserWebSocket.close_ref (heap st) (ws st) ++
       [BrowserWebSocket.fresh] /\
     ws st' = Some (List.length (heap st)) /\
     autoReconnect st' = false) /\
  (forall (fetched : option (string * bool))
          (voices_loaded synth_speaking : bool) (st : TextToSpeech.t),
     TextToSpeech.audioConfig_mode (TextToSpeech.fetchConfig fetched st) =
       "tts"%string ->
     TextToSpeech.audioConfig_enabled (TextToSpeech.fetchConfig fetched st) =
       true ->
     let st' :=
       TextToSpeech.run TextToSpeech.Callback_connectWebSocket fetched
         voices_loaded (TextToSpeech.disconnectWebSocket synth_speaking st) in
     TextToSpeech.heap st' =
       BrowserWebSocket.close_ref (TextToSpeech.heap st) (TextToSpeech.ws st)
       ++ [BrowserWebSocket.fresh] /\
     TextToSpeech.ws st' = Some (List.length (TextToSpeech.heap st)) /\
     TextToSpeech.autoReconnect st' = true).
Proof.
  split.
  - intros st Hm He st'. subst st'. cbn [run].
    destruct (disconnectWebSocket_frame st) as (_ & _ & Hw & Hh).
    unfold connectWebSocket.
    assert (Hmode : audioConfig_mode (disconnectWebSocket st) = "wav"%string /\
                    audioConfig_enabled (disconnectWebSocket st) = true).
    { unfold disconnectWebSocket. cbv zeta. cbn.
      destruct (ws st); cbn; auto. }
    destruct Hmode as [Hm' He']. rewrite Hm', He', Hw. cbn.
    rewrite Hh, close_ref_length.
    assert (Ha : autoReconnect (disconnectWebSocket st) = false)
      by apply disconnectWebSocket_frame.
    auto.
  - intros fetched voices_loaded synth_speaking st Hm He st'. subst st'.
    cbn [TextToSpeech.run]. unfold TextToSpeech.connectWebSocket.
    cbv zeta.
    assert (Hcfg :
      TextToSpeech.audioConfig_mode
        (TextToSpeech.fetchConfig fetched
           (TextToSpeech.disconnectWebSocket synth_speaking st)) =
        "tts"%string /\
      TextToSpeech.audioConfig_enabled
        (TextToSpeech.fetchConfig fetched
           (TextToSpeech.disconnectWebSocket synth_speaking st)) = true /\
      TextToSpeech.heap
        (TextToSpeech.fetchConfig fetched
           (TextToSpeech.disconnectWebSocket synth_speaking st)) =
        BrowserWebSocket.close_ref (TextToSpeech.heap st)
          (TextToSpeech.ws st)).
    { unfold TextToSpeech.fetchConfig in *.
      unfold TextToSpeech.disconnectWebSocket.
      destruct fetched as [[mode enabled] |], (TextToSpeech.ws st);
        cbn in *; auto. }
    destruct Hcfg as (H1 & H2 & H3). rewrite H1, H2. cbn.
    rewrite H3, close_ref_length. auto.
Qed.

Lemma pending_reconnect_survives_disconnect_witness :
  heap (run Callback_connectWebSocket
          (disconnectWebSocket (ws_onclose Samples.audio_player))) =
    Samples.closed_heap ++ [BrowserWebSocket.fresh] /\
  TextToSpeech.autoReconnect
    (TextToSpeech.run TextToSpeech.Callback_connectWebSocket None true
       (TextToSpeech.disconnectWebSocket false
          (TextToSpeech.ws_onclose Samples.text_to_speech))) = true.
Proof.
  destruct pending_reconnect_survives_disconnect as [Hwav Htts].
  split.
  - destruct (Hwav (ws_onclose Samples.audio_player) eq_refl eq_refl)
      as (H & _). exact H.
  - destruct (Htts None true false
                (TextToSpeech.ws_onclose Samples.text_to_speech)
                eq_refl eq_refl) as (_ & _ & H). exact H.
Defined.

End AudioPlayerFacts.

(** ** From the sensor of the phone to the bus *)

Section EndToEndFacts.
Import Js WebSocket.
Local Open Scope R_scope.

Lemma send_ref_open (h : BrowserWebSocket.heap) (i : nat)
    (w : BrowserWebSocket.socket) (f : frame) :
  nth_error h i = Some w ->
  BrowserWebSocket.readyState w = OPEN ->
  BrowserWebSocket.is_open_ref h (Some i) = true /\
  exists h',
    BrowserWebSocket.send_ref h (Some i) f = Return h' /\
    nth_error h' i =
      Some {| BrowserWebSocket.readyState := OPEN;
              BrowserWebSocket.sent := BrowserWebSocket.sent w ++ [f];
              BrowserWebSocket.discarded := BrowserWebSocket.discarded w |} /\
    (forall j, j <> i -> nth_error h' j = nth_error h j).
Proof.
  intros Hi Hw.
  unfold BrowserWebSocket.is_open_ref, BrowserWebSocket.send_ref,
    BrowserWebSocket.send, BrowserWebSocket.store.
  cbn [BrowserWebSocket.deref]. rewrite Hi, Hw. split; [reflexivity |].
  eexists. split; [reflexivity |]. split.
  - eapply assign_nth_error. exact Hi.
  - intros j Hj. apply assign_nth_error_other. congruence.
Qed.

(** An inertial sample end to end.  The two listeners store the
    readings of the events (a missing reading as 0); the next tick of
    the sampling interval sends them on the open socket; the server
    reads that message, finds every reading to be a number and
    publishes one message, with the stamp of the client's clock, the
    acceleration as sent, the angular velocity x, y, z taken from the
    rotation rates beta, alpha, gamma, and the yaw taken from the
    [alpha] angle of the orientation event (the compass heading that
    the client also sends is not used). *)
Theorem imu_sample_reaches_the_bus :
  forall (isAndroid : bool)
         (motion : IMUSensorListeners.DeviceMotionEvent)
         (orientation : IMUSensorListeners.DeviceOrientationEvent)
         (ax ay az ra rb rg : jsval)
         (m : IMUSensorManager.t) (i : nat) (w : BrowserWebSocket.socket)
         (timestamp : R) (h : BrowserWebSocket.heap) (console : list string)
         (now : R * R) (srv : websocket_handlers.server),
    IMUSensorManager.isActive m = true ->
    IMUSensorManager.ws_or_websocket m = Some i ->
    nth_error h i = Some w ->
    BrowserWebSocket.readyState w = OPEN ->
    IMUSensorListeners.acceleration motion = Some (ax, ay, az) ->
    IMUSensorListeners.rotationRate motion = Some (ra, rb, rg) ->
    ros_interface.imu
      (ros_interface.publishers (websocket_handlers.node srv)) = true ->
    let m' :=
      IMUSensorListeners.deviceorientation_listener orientation
        (IMUSensorListeners.devicemotion_listener isAndroid motion m) in
    let message := IMUSensorManager.payload m' timestamp in
    exists (h' : BrowserWebSocket.heap) (imuData : ros_interface.ImuData)
           (msg : ros_interface.Imu),
      IMUSensorManager.sendSensorData m' timestamp (h, console) =
        (Return tt, (h', console)) /\
      nth_error h' i =
        Some {| BrowserWebSocket.readyState := OPEN;
                BrowserWebSocket.sent :=
                  BrowserWebSocket.sent w ++ [Stringified message];
                BrowserWebSocket.discarded := BrowserWebSocket.discarded w |} /\
      JSON.imu message = Some imuData /\
      websocket_handlers.setupIMUHandlers_onmessage (Some (Some imuData)) now
        srv =
        (Return tt,
         {| websocket_handlers.node :=
              ros_interface.publish (websocket_handlers.node srv)
                (ros_interface.On_mobile_sensor_imu msg);
            websocket_handlers.log :=
              websocket_handlers.log srv ++
              [Logger.debug "IMU" "Accelerometer";
               Logger.debug "IMU" "Gyroscope"] |}) /\
      ros_interface.stamp (ros_interface.imu_header msg) =
        websocket_handlers.stamp_of (JNum timestamp) now /\
      ros_interface.linear_acceleration msg =
        {| ros_interface.x := or_default ax 0;
           ros_interface.y := or_default ay 0;
           ros_interface.z := or_default az 0 |} /\
      ros_interface.angular_velocity msg =
        {| ros_interface.x := or_default rb 0;
           ros_interface.y := or_default ra 0;
           ros_interface.z := or_default rg 0 |} /\
      ros_interface.orientation msg =
        ros_interface.eulerToQuaternion 0 0
          (or_default (IMUSensorListeners.alpha orientation) 0).
Proof.
  intros isAndroid motion orientation ax ay az ra rb rg m i w timestamp h
         console now srv Hact Hws Hi Hw Hacc Hrot Hpub m' message.
  destruct m as [act ws0 wsk sr iid accd gyrd magd].
  cbn [IMUSensorManager.isActive] in Hact. subst act.
  assert (Hm' : exists mx my hd,
            m' = {| IMUSensorManager.isActive := true;
                    IMUSensorManager.ws := ws0;
                    IMUSensorManager.websocket := wsk;
                    IMUSensorManager.sampleRate := sr;
                    IMUSensorManager.intervalId := iid;
                    IMUSensorManager.accelerometerData :=
                      (or_default ax 0, or_default ay 0, or_default az 0);
                    IMUSensorManager.gyroscopeData :=
                      (or_default ra 0, or_default rb 0, or_default rg 0);
                    IMUSensorManager.magnetometerData :=
                      (mx, my,
                       or_default (IMUSensorListeners.alpha orientation) 0,
                       hd) |}).
  { subst m'. unfold IMUSensorListeners.deviceorientation_listener,
      IMUSensorListeners.devicemotion_listener.
    cbn [IMUSensorManager.isActive negb]. rewrite Hacc, Hrot.
    cbn [IMUSensorListeners.with_accelerometerData
         IMUSensorListeners.with_gyroscopeData
         IMUSensorListeners.with_magnetometerData
         IMUSensorListeners.or_0 IMUSensorManager.isActive
         IMUSensorManager.ws IMUSensorManager.websocket
         IMUSensorManager.sampleRate IMUSensorManager.intervalId
         IMUSensorManager.accelerometerData IMUSensorManager.gyroscopeData
         negb].
    destruct (_ || _); eexists _, _, _; reflexivity. }
  destruct Hm' as (mx & my & hd & Hm'). clearbody m'. subst m'.
  destruct (@send_ref_open h i w (Stringified message) Hi Hw)
    as (Hopen & h' & Hsend & Hnth & _).
  exists h'. eexists. eexists.
  split.
  { unfold IMUSensorManager.sendSensorData.
    replace (IMUSensorManager.ws_or_websocket _) with (Some i)
      by (rewrite <- Hws; reflexivity).
    cbn [IMUSensorManager.isActive negb orb]. rewrite Hopen. cbn [negb].
    fold message. now rewrite Hsend. }
  split; [exact Hnth |].
  split; [reflexivity |].
  split.
  { unfold websocket_handlers.setupIMUHandlers_onmessage, try_catch, ebind,
      lift, websocket_handlers.Logger_call, modify,
      websocket_handlers.rosInterface_call, ros_interface.publishIMUData.
    cbn -[or_default ros_interface.eulerToQuaternion
          websocket_handlers.stamp_of ros_interface.stamp_or_now].
    rewrite Hpub.
    cbn -[or_default ros_interface.eulerToQuaternion
          websocket_handlers.stamp_of ros_interface.stamp_or_now].
    rewrite <- app_assoc. reflexivity. }
  cbn -[or_default ros_interface.eulerToQuaternion
        websocket_handlers.stamp_of].
  rewrite !or_default_zero. repeat split; reflexivity.
Qed.

Lemma imu_sample_reaches_the_bus_witness :
  exists (h' : BrowserWebSocket.heap) (imuData : ros_interface.ImuData)
         (msg : ros_interface.Imu),
    IMUSensorManager.sendSensorData
      (IMUSensorListeners.deviceorientation_listener
         Scenarios.orientation_event
         (IMUSensorListeners.devicemotion_listener false
            Scenarios.motion_event Samples.imu_manager))
      1000 (Scenarios.open_heap, []) = (Return tt, (h', [])) /\
    JSON.imu
      (IMUSensorManager.payload
         (IMUSensorListeners.deviceorientation_listener
            Scenarios.orientation_event
            (IMUSensorListeners.devicemotion_listener false
               Scenarios.motion_event Samples.imu_manager)) 1000) =
      Some imuData /\
    ros_interface.bus
      (websocket_handlers.node
         (snd (websocket_handlers.setupIMUHandlers_onmessage
                 (Some (Some imuData)) (0, 0) Scenarios.ready_server))) =
      [ros_interface.On_mobile_sensor_imu msg] /\
    ros_interface.angular_velocity msg =
      {| ros_interface.x := or_default (JNum 5) 0;
         ros_interface.y := or_default (JNum 4) 0;
         ros_interface.z := or_default (JNum 6) 0 |} /\
    ros_interface.orientation msg =
      ros_interface.eulerToQuaternion 0 0 (or_default (JNum 90) 0).
Proof.
  destruct (@imu_sample_reaches_the_bus false Scenarios.motion_event
              Scenarios.orientation_event (JNum 1) (JNum 2) JNull
              (JNum 4) (JNum 5) (JNum 6) Samples.imu_manager 0%nat
              Scenarios.open_socket 1000 Scenarios.open_heap [] (0, 0)
              Scenarios.ready_server eq_refl eq_refl eq_refl eq_refl
              eq_refl eq_refl eq_refl)
    as (h' & imuData & msg & H1 & _ & H3 & H4 & _ & _ & H7 & H8).
  exists h', imuData, msg.
  split; [exact H1 |]. split; [exact H3 |].
  split; [now rewrite H4 |]. split; [exact H7 | exact H8].
Defined.

Lemma or_default_or_0 (v : jsval) (d : R) :
  or_default (JNum (or_default v 0)) d = or_default v d.
Proof.
  unfold or_default at 1 3. unfold or_default.
  destruct v as [| | | r]; cbn [truthy_num];
    try (destruct (Req_dec_T 0 0) as [_ | N]; [reflexivity | now elim N]).
  destruct (Req_dec_T r 0) as [-> | N].
  - destruct (Req_dec_T 0 0) as [_ | N]; [reflexivity | now elim N].
  - destruct (Req_dec_T r 0) as [E | _]; [contradiction | reflexivity].
Qed.

(** A position fix end to end.  [handlePositionUpdate] stores the
    coordinates (a missing one as 0) and sends them at once on the open
    socket; the server reads that message, finds latitude, longitude
    and altitude to be numbers, and publishes one fix with them, with
    the time of the fix as stamp and with the variance of the position
    taken from the accuracy (1 when the platform gave none). *)
Theorem gps_fix_reaches_the_bus :
  forall (isIOS : bool) (position : GPSTracking.Position) (now : R)
         (m : GPSSensorManager.t) (i : nat) (w : BrowserWebSocket.socket)
         (h : BrowserWebSocket.heap) (console : list string)
         (clock : R * R) (srv : websocket_handlers.server),
    GPSSensorManager.isActive m = true ->
    GPSSensorManager.ws m = Some i ->
    nth_error h i = Some w ->
    BrowserWebSocket.readyState w = OPEN ->
    (isIOS = true ->
     Rabs (or_default (GPSTracking.position_timestamp position) now) <=
       8640000000000000) ->
    ros_interface.gps
      (ros_interface.publishers (websocket_handlers.node srv)) = true ->
    let c := GPSTracking.coords position in
    exists (m' : GPSSensorManager.t) (h' : BrowserWebSocket.heap)
           (gpsData : ros_interface.GpsData) (msg : ros_interface.NavSatFix),
      GPSTracking.handlePositionUpdate isIOS position now m (h, console) =
        (Return m', (h', console)) /\
      nth_error h' i =
        Some {| BrowserWebSocket.readyState := OPEN;
                BrowserWebSocket.sent :=
                  BrowserWebSocket.sent w ++
                  [Stringified (GPSSensorManager.payload m')];
                BrowserWebSocket.discarded := BrowserWebSocket.discarded w |} /\
      JSON.gps (GPSSensorManager.payload m') = Some gpsData /\
      fst (websocket_handlers.setupGPSHandlers_onmessage
             (Some (Some gpsData)) clock srv) = Return tt /\
      websocket_handlers.node
        (snd (websocket_handlers.setupGPSHandlers_onmessage
                (Some (Some gpsData)) clock srv)) =
        ros_interface.publish (websocket_handlers.node srv)
          (ros_interface.On_mobile_sensor_gps msg) /\
      ros_interface.stamp (ros_interface.fix_header msg) =
        websocket_handlers.stamp_of
          (JNum (or_default (GPSTracking.position_timestamp position) now))
          clock /\
      ros_interface.latitude msg =
        or_default (GPSTracking.coords_latitude c) 0 /\
      ros_interface.longitude msg =
        or_default (GPSTracking.coords_longitude c) 0 /\
      ros_interface.altitude msg =
        or_default (GPSTracking.coords_altitude c) 0 /\
      ros_interface.position_covariance msg =
        (let a := or_default (GPSTracking.coords_accuracy c) 1 in
         [a * a; 0; 0; 0; a * a; 0; 0; 0; a * a]).
Proof.
  intros isIOS position now m i w h console clock srv Hact Hws Hi Hw Hrange
         Hpub c.
  destruct m as [act ws0 wid gd]. cbn in Hact, Hws. subst act ws0.
  set (m' := {| GPSSensorManager.isActive := true;
                GPSSensorManager.ws := Some i;
                GPSSensorManager.watchId := wid;
                GPSSensorManager.gpsData :=
                  {| GPSSensorManager.latitude :=
                       or_default (GPSTracking.coords_latitude c) 0;
                     GPSSensorManager.longitude :=
                       or_default (GPSTracking.coords_longitude c) 0;
                     GPSSensorManager.altitude :=
                       or_default (GPSTracking.coords_altitude c) 0;
                     GPSSensorManager.accuracy :=
                       or_default (GPSTracking.coords_accuracy c) 0;
                     GPSSensorManager.heading :=
                       or_default (GPSTracking.coords_heading c) 0;
                     GPSSensorManager.speed :=
                       or_default (GPSTracking.coords_speed c) 0;
                     GPSSensorManager.timestamp :=
                       or_default (GPSTracking.position_timestamp position)
                         now |} |}).
  set (gpsData :=
         {| ros_interface.gps_latitude :=
              JNum (or_default (GPSTracking.coords_latitude c) 0);
            ros_interface.gps_longitude :=
              JNum (or_default (GPSTracking.coords_longitude c) 0);
            ros_interface.gps_altitude :=
              JNum (or_default (GPSTracking.coords_altitude c) 0);
            ros_interface.gps_accuracy :=
              JNum (or_default (GPSTracking.coords_accuracy c) 0);
            ros_interface.gps_heading :=
              JNum (or_default (GPSTracking.coords_heading c) 0);
            ros_interface.gps_speed :=
              JNum (or_default (GPSTracking.coords_speed c) 0);
            ros_interface.gps_timestamp :=
              JNum (or_default (GPSTracking.position_timestamp position)
                      now) |}).
  destruct (@send_ref_open h i w
              (Stringified (GPSSensorManager.payload m')) Hi Hw)
    as (Hopen & h' & Hsend & Hnth & _).
  exists m', h', gpsData. eexists.
  split.
  { unfold GPSTracking.handlePositionUpdate.
    cbn [GPSSensorManager.isActive GPSSensorManager.ws fst negb orb].
    rewrite Hopen. cbn [negb]. cbv zeta.
    assert (Hdate : (if isIOS
                     then GPSTracking.Date_toISOString
                            (or_default
                               (GPSTracking.position_timestamp position) now)
                     else Return tt) = Return tt).
    { destruct isIOS; [| reflexivity]. unfold GPSTracking.Date_toISOString.
      destruct (Rle_dec _ _) as [_ | N]; [reflexivity |].
      elim N. now apply Hrange. }
    rewrite Hdate. fold c. fold m'.
    unfold GPSSensorManager.sendGPSData.
    unfold m' in Hsend |- *.
    cbn [GPSSensorManager.isActive GPSSensorManager.ws
         GPSSensorManager.watchId negb orb].
    rewrite Hopen. cbn [negb]. now rewrite Hsend. }
  split; [exact Hnth |].
  split; [reflexivity |].
  assert (Hrun :
    websocket_handlers.setupGPSHandlers_onmessage (Some (Some gpsData))
      clock srv =
    (Return tt,
     {| websocket_handlers.node :=
          snd (ros_interface.publishGPSData (websocket_handlers.node srv)
                 gpsData
                 (Some (websocket_handlers.stamp_of
                          (ros_interface.gps_timestamp gpsData) clock))
                 clock);
        websocket_handlers.log :=
          websocket_handlers.log srv ++
          (if truthy (ros_interface.gps_accuracy gpsData)
           then [Logger.debug "GPS" "Location"; Logger.debug "GPS" "Accuracy"]
           else [Logger.debug "GPS" "Location"]) |})).
  { unfold websocket_handlers.setupGPSHandlers_onmessage, try_catch, ebind,
      lift, websocket_handlers.Logger_call, modify, ret,
      websocket_handlers.rosInterface_call, websocket_handlers.toFixed_optional.
    cbn [JSON_parse toFixed gpsData ros_interface.gps_latitude
         ros_interface.gps_longitude ros_interface.gps_altitude
         websocket_handlers.node websocket_handlers.log fst snd].
    destruct (truthy (ros_interface.gps_accuracy gpsData)) eqn:Et;
      cbn [toFixed gpsData ros_interface.gps_accuracy
           websocket_handlers.node websocket_handlers.log fst snd];
      rewrite (surjective_pairing (ros_interface.publishGPSData _ _ _ _));
      cbn [fst snd]; rewrite <- ?app_assoc; reflexivity. }
  rewrite Hrun. cbn [fst snd websocket_handlers.node].
  split; [reflexivity |].
  unfold ros_interface.publishGPSData. rewrite Hpub. cbn [negb snd].
  split; [reflexivity |].
  cbn -[or_default websocket_handlers.stamp_of].
  rewrite !or_default_zero, or_default_or_0.
  repeat split; reflexivity.
Qed.

Lemma gps_fix_reaches_the_bus_witness :
  exists (m' : GPSSensorManager.t) (h' : BrowserWebSocket.heap)
         (gpsData : ros_interface.GpsData) (msg : ros_interface.NavSatFix),
    GPSTracking.handlePositionUpdate true Scenarios.position 0
      Scenarios.gps_manager (Scenarios.open_heap, []) =
      (Return m', (h', [])) /\
    JSON.gps (GPSSensorManager.payload m') = Some gpsData /\
    websocket_handlers.node
      (snd (websocket_handlers.setupGPSHandlers_onmessage
              (Some (Some gpsData)) (0, 0) Scenarios.ready_server)) =
      ros_interface.publish Samples.ready_node
        (ros_interface.On_mobile_sensor_gps msg) /\
    ros_interface.altitude msg = or_default JNull 0.
Proof.
  destruct (@gps_fix_reaches_the_bus true Scenarios.position 0
              Scenarios.gps_manager 0%nat Scenarios.open_socket
              Scenarios.open_heap [] (0, 0) Scenarios.ready_server
              eq_refl eq_refl eq_refl eq_refl)
    as (m' & h' & gpsData & msg & H1 & _ & H3 & _ & H5 & _ & _ & _ & H9 & _).
  - intros _. cbn [Scenarios.position GPSTracking.position_timestamp].
    rewrite or_default_nonzero by lra.
    rewrite Rabs_pos_eq by lra. lra.
  - reflexivity.
  - exists m', h', gpsData, msg.
    split; [exact H1 |]. split; [exact H3 |]. split; [exact H5 | exact H9].
Defined.

(** An incomplete sample is dropped as a whole.  An inertial message
    without its accelerometer, gyroscope or magnetometer part publishes
    nothing.  A position message whose latitude, longitude or altitude
    is [null] or missing publishes nothing either and only logs the
    error: the handler formats these three fields before it calls the
    publisher, so the publisher's own default for a missing altitude is
    never reached from the socket. *)
Theorem incomplete_samples_are_dropped :
  (forall (imuData : ros_interface.ImuData) (clock : R * R)
          (srv : websocket_handlers.server),
     ros_interface.accelerometer imuData = None \/
     ros_interface.gyroscope imuData = None \/
     ros_interface.magnetometer imuData = None ->
     fst (websocket_handlers.setupIMUHandlers_onmessage
            (Some (Some imuData)) clock srv) = Return tt /\
     websocket_handlers.node
       (snd (websocket_handlers.setupIMUHandlers_onmessage
               (Some (Some imuData)) clock srv)) =
       websocket_handlers.node srv) /\
  (forall (gpsData : ros_interface.GpsData) (clock : R * R)
          (srv : websocket_handlers.server),
     let missing (v : jsval) := v = JNull \/ v = JUndefined in
     missing (ros_interface.gps_latitude gpsData) \/
     missing (ros_interface.gps_longitude gpsData) \/
     missing (ros_interface.gps_altitude gpsData) ->
     websocket_handlers.setupGPSHandlers_onmessage
       (Some (Some gpsData)) clock srv =
       (Return tt,
        {| websocket_handlers.node := websocket_handlers.node srv;
           websocket_handlers.log :=
             websocket_handlers.log srv ++
             [Logger.error "ROS" "Error processing GPS message"] |})).
Proof.
  split.
  - intros imuData clock srv H.
    unfold websocket_handlers.setupIMUHandlers_onmessage.
    unfold try_catch, ebind, lift, JSON_parse, websocket_handlers.Logger_call,
      modify.
    destruct (ros_interface.accelerometer imuData) as [acc |] eqn:Ha;
      cbn [prop_of]; [| auto].
    destruct (toFixed (ros_interface.acc_x acc)) as [[] |]; [| auto].
    destruct (toFixed (ros_interface.acc_y acc)) as [[] |]; [| auto].
    destruct (toFixed (ros_interface.acc_z acc)) as [[] |]; [| auto].
    destruct (ros_interface.gyroscope imuData) as [gyr |] eqn:Hg;
      cbn [prop_of]; [| auto].
    destruct (toFixed (ros_interface.alpha gyr)) as [[] |]; [| auto].
    destruct (toFixed (ros_interface.beta gyr)) as [[] |]; [| auto].
    destruct (toFixed (ros_interface.gamma gyr)) as [[] |]; [| auto].
    destruct H as [H | [H | H]]; try discriminate H.
    unfold websocket_handlers.rosInterface_call, ros_interface.publishIMUData.
    cbn [websocket_handlers.node snd].
    destruct (negb _); [auto |]. rewrite H. cbn [prop_of bind]. auto.
  - intros gpsData clock srv missing H.
    destruct gpsData as [lat lon alt acc hd sp ts].
    cbn [ros_interface.gps_latitude ros_interface.gps_longitude
         ros_interface.gps_altitude] in H.
    unfold websocket_handlers.setupGPSHandlers_onmessage, try_catch, ebind,
      lift, websocket_handlers.Logger_call, modify.
    cbn [JSON_parse ros_interface.gps_latitude ros_interface.gps_longitude
         ros_interface.gps_altitude].
    subst missing.
    destruct lat, lon, alt; cbn [toFixed snd fst]; try reflexivity;
      exfalso; intuition discriminate.
Qed.

Lemma incomplete_samples_are_dropped_witness :
  websocket_handlers.setupGPSHandlers_onmessage
    (Some (Some {| ros_interface.gps_latitude := JNum 48;
                   ros_interface.gps_longitude := JNum 2;
                   ros_interface.gps_altitude := JNull;
                   ros_interface.gps_accuracy := JNum 5;
                   ros_interface.gps_heading := JNull;
                   ros_interface.gps_speed := JNull;
                   ros_interface.gps_timestamp := JNum 1000 |}))
    (0, 0) Scenarios.ready_server =
    (Return tt,
     {| websocket_handlers.node := Samples.ready_node;
        websocket_handlers.log :=
          [Logger.error "ROS" "Error processing GPS message"] |}).
Proof.
  apply (proj2 incomplete_samples_are_dropped). right. right. now left.
Defined.

(** A camera frame end to end.  The camera manager sends the data URL
    of the frame with its size and time on the open socket; the server
    reads the message, strips the header of the data URL at the comma,
    decodes the rest and publishes the two camera messages, with the
    decoded bytes, the size that was sent (640 by 480 in place of a
    zero) and the time of the frame as stamp. *)
Theorem camera_frame_reaches_the_bus :
  forall (base64 : string -> list byte) (prefix b64 : string)
         (timestamp width height : R) (i : nat)
         (w w' : BrowserWebSocket.socket)
         (after_await : BrowserWebSocket.heap -> BrowserWebSocket.heap)
         (h : BrowserWebSocket.heap) (console : list string)
         (clock : R * R) (srv : websocket_handlers.server),
    (forall c, In c (list_ascii_of_string prefix) -> c <> ","%char) ->
    (forall c, In c (list_ascii_of_string b64) -> c <> ","%char) ->
    nth_error h i = Some w ->
    BrowserWebSocket.readyState w = OPEN ->
    nth_error (after_await h) i = Some w' ->
    BrowserWebSocket.readyState w' = OPEN ->
    ros_interface.compressed
      (ros_interface.publishers (websocket_handlers.node srv)) = true ->
    ros_interface.cameraInfo
      (ros_interface.publishers (websocket_handlers.node srv)) = true ->
    let dataUrl := (prefix ++ String ","%char b64)%string in
    let message := CameraManager.payload timestamp dataUrl width height in
    exists (h' : BrowserWebSocket.heap)
           (parsed : websocket_handlers.CameraMessage)
           (img : ros_interface.CompressedImage)
           (info : ros_interface.CameraInfo),
      CameraManager.processFrames_step (Some i) timestamp dataUrl width
        height after_await (h, console) = (Return tt, (h', console)) /\
      nth_error h' i =
        Some {| BrowserWebSocket.readyState := OPEN;
                BrowserWebSocket.sent :=
                  BrowserWebSocket.sent w' ++ [Stringified message];
                BrowserWebSocket.discarded :=
                  BrowserWebSocket.discarded w' |} /\
      JSON.camera message = Some parsed /\
      websocket_handlers.setupCameraHandlers_onmessage base64 (Some parsed)
        clock srv =
        (Return tt,
         {| websocket_handlers.node :=
              {| ros_interface.publishers :=
                   ros_interface.publishers (websocket_handlers.node srv);
                 ros_interface.bus :=
                   ros_interface.bus (websocket_handlers.node srv) ++
                   [ros_interface.On_camera_image_raw_compressed img;
                    ros_interface.On_camera_camera_info info] |};
            websocket_handlers.log := websocket_handlers.log srv |}) /\
      ros_interface.data img = ros_interface.Array_from (base64 b64) /\
      ros_interface.width info = or_default (JNum width) 640 /\
      ros_interface.height info = or_default (JNum height) 480 /\
      ros_interface.stamp (ros_interface.img_header img) =
        websocket_handlers.stamp_of (JNum timestamp) clock /\
      ros_interface.info_header info = ros_interface.img_header img.
Proof.
  intros base64 prefix b64 timestamp width height i w w' after_await h
         console clock srv Hp Hb Hi Hw Hi' Hw' Hc Hinfo dataUrl message.
  destruct (@send_ref_open h i w (Stringified message) Hi Hw)
    as (Hopen & _).
  destruct (@send_ref_open (after_await h) i w' (Stringified message) Hi' Hw')
    as (_ & h' & Hsend & Hnth & _).
  exists h',
    {| websocket_handlers.camera := Some dataUrl;
       websocket_handlers.cam_width := JNum width;
       websocket_handlers.cam_height := JNum height;
       websocket_handlers.cam_timestamp := JNum timestamp |}.
  eexists. eexists.
  split.
  { unfold CameraManager.processFrames_step. rewrite Hopen. cbv zeta.
    fold message. now rewrite Hsend. }
  split; [exact Hnth |].
  split; [reflexivity |].
  split.
  { unfold websocket_handlers.setupCameraHandlers_onmessage.
    unfold try_catch, ebind, lift, JSON_parse.
    cbn [websocket_handlers.camera websocket_handlers.cam_width
         websocket_handlers.cam_height websocket_handlers.cam_timestamp].
    assert (Hne : exists c s', dataUrl = String c s').
    { subst dataUrl. destruct prefix; simpl; eauto. }
    destruct Hne as (c & s' & Hs). rewrite Hs, <- Hs. subst dataUrl.
    rewrite (split_prefix prefix b64 Hp), (split_no_separator b64 Hb).
    cbn [nth_error websocket_handlers.Buffer_from_base64].
    unfold websocket_handlers.rosInterface_call,
      ros_interface.publishCameraData.
    rewrite Hc, Hinfo. cbn [negb orb snd fst websocket_handlers.node].
    unfold ros_interface.publish. cbn [ros_interface.publishers
                                       ros_interface.bus].
    rewrite <- app_assoc. reflexivity. }
  repeat split; reflexivity.
Qed.

Lemma camera_frame_reaches_the_bus_witness :
  exists (h' : BrowserWebSocket.heap)
         (img : ros_interface.CompressedImage)
         (info : ros_interface.CameraInfo),
    CameraManager.processFrames_step (Some 0%nat) 1000
      "data:image/jpeg;base64,/9j/4AAQ" 640 480 (fun heap => heap)
      (Scenarios.open_heap, []) = (Return tt, (h', [])) /\
    ros_interface.bus
      (websocket_handlers.node
         (snd (websocket_handlers.setupCameraHandlers_onmessage
                 (fun _ => [Byte.xff; Byte.xd8])
                 (JSON.camera
                    (CameraManager.payload 1000
                       "data:image/jpeg;base64,/9j/4AAQ" 640 480))
                 (0, 0) Scenarios.ready_server))) =
      [ros_interface.On_camera_image_raw_compressed img;
       ros_interface.On_camera_camera_info info] /\
    ros_interface.data img = [255%Z; 216%Z].
Proof.
  destruct (@camera_frame_reaches_the_bus (fun _ => [Byte.xff; Byte.xd8])
              "data:image/jpeg;base64" "/9j/4AAQ" 1000 640 480 0%nat
              Scenarios.open_socket Scenarios.open_socket (fun heap => heap)
              Scenarios.open_heap [] (0, 0) Scenarios.ready_server)
    as (h' & parsed & img & info & H1 & _ & H3 & H4 & H5 & _);
    try reflexivity.
  - intros c Hc. cbn in Hc.
    repeat (destruct Hc as [<- | Hc]; [discriminate |]). contradiction.
  - intros c Hc. cbn in Hc.
    repeat (destruct Hc as [<- | Hc]; [discriminate |]). contradiction.
  - exists h', img, info. split; [exact H1 |]. split.
    + cbv zeta in H3. cbn [append] in H3. rewrite H3, H4. reflexivity.
    + rewrite H5. reflexivity.
Defined.

End EndToEndFacts.

(** ** Drawing and pacing of camera frames *)

Section CameraFrameFacts.
Import CameraFrames.
Local Open Scope R_scope.

(** The picture is fitted into the canvas and centred: it keeps its
    aspect ratio, lies inside the canvas, touches two opposite edges of
    it, and the margins left and right, and above and below, are
    equal. *)
Theorem picture_is_fitted_and_centred :
  forall cw ch bw bh : R,
    0 < cw -> 0 < ch -> 0 < bw -> 0 < bh ->
    let '(x, y, width, height) := drawImage_arguments cw ch bw bh in
    width * bh = height * bw /\
    0 <= x /\ 0 <= y /\ x + width <= cw /\ y + height <= ch /\
    (width = cw \/ height = ch) /\
    cw - (x + width) = x /\ ch - (y + height) = y.
Proof.
  intros cw ch bw bh Hcw Hch Hbw Hbh. unfold drawImage_arguments. cbv zeta.
  set (scale := Rmin (cw / bw) (ch / bh)).
  assert (H1 : scale <= cw / bw) by apply Rmin_l.
  assert (H2 : scale <= ch / bh) by apply Rmin_r.
  assert (H3 : scale = cw / bw \/ scale = ch / bh).
  { unfold scale, Rmin. destruct (Rle_dec _ _); auto. }
  assert (Hw : bw * scale <= cw).
  { replace cw with (bw * (cw / bw)) by (field; lra).
    apply Rmult_le_compat_l; lra. }
  assert (Hh : bh * scale <= ch).
  { replace ch with (bh * (ch / bh)) by (field; lra).
    apply Rmult_le_compat_l; lra. }
  split; [ring |].
  split; [lra |]. split; [lra |]. split; [lra |]. split; [lra |].
  split.
  - destruct H3 as [-> | ->]; [left | right]; field; lra.
  - split; lra.
Qed.

Lemma picture_is_fitted_and_centred_witness :
  let '(x, y, width, height) := drawImage_arguments 640 480 1280 720 in
  width * 720 = height * 1280 /\
  0 <= x /\ 0 <= y /\ x + width <= 640 /\ y + height <= 480 /\
  (width = 640 \/ height = 480) /\
  640 - (x + width) = x /\ 480 - (y + height) = y.
Proof. apply (@picture_is_fitted_and_centred 640 480 1280 720); lra. Defined.

Lemma sent_frames_first (frameInterval : R) (frames : list (R * bool)) :
  forall lastSentTime first rest,
    sent_frames frameInterval lastSentTime frames = first :: rest ->
    frameInterval <= first - lastSentTime /\
    exists later,
      rest = sent_frames frameInterval first later /\
      (exists earlier can_send, frames = earlier ++ (first, can_send) :: later).
Proof.
  induction frames as [| [t ok] frames IH]; intros last first rest E;
    cbn [sent_frames] in E; [discriminate E |].
  destruct (Rlt_dec (t - last) frameInterval) as [Hlt | Hge].
  - destruct (IH _ _ _ E) as (H1 & later & H2 & earlier & cs & H3).
    split; [exact H1 |]. exists later. split; [exact H2 |].
    exists ((t, ok) :: earlier), cs. now rewrite H3.
  - destruct ok.
    + injection E as <- <-. split; [lra |]. exists frames.
      split; [reflexivity |]. now exists [], true.
    + destruct (IH _ _ _ E) as (H1 & later & H2 & earlier & cs & H3).
      split; [exact H1 |]. exists later. split; [exact H2 |].
      exists ((t, false) :: earlier), cs. now rewrite H3.
Qed.

(** The frames that are sent are paced by the clock reading taken when
    a frame comes in: the reading of the first frame sent is at least
    one interval after the start value of [lastSentTime], and the
    reading of every later one at least one interval after the reading
    of the frame sent before it, whatever frames come in and whichever
    of them cannot be sent.  This bounds the readings; the moments of
    sending follow the encoding and are not bounded by it. *)
Theorem sent_frames_are_read_an_interval_apart :
  forall (frameInterval lastSentTime : R) (frames : list (R * bool))
         (k : nat) (t : R),
    nth_error (sent_frames frameInterval lastSentTime frames) k = Some t ->
    frameInterval <=
      t - match k with
          | O => lastSentTime
          | S j => nth j (sent_frames frameInterval lastSentTime frames) 0
          end.
Proof.
  intros frameInterval lastSentTime frames k. revert lastSentTime frames.
  induction k as [| k IH]; intros last frames t E.
  - destruct (sent_frames frameInterval last frames) as [| first rest] eqn:Es;
      [discriminate E |].
    injection E as <-. now destruct (sent_frames_first _ _ _ Es).
  - destruct (sent_frames frameInterval last frames) as [| first rest] eqn:Es;
      [discriminate E |].
    destruct (sent_frames_first _ _ _ Es) as (_ & later & -> & _).
    cbn [nth_error] in E. specialize (IH _ _ _ E).
    destruct k as [| j]; cbn [nth]; exact IH.
Qed.

Lemma sent_frames_are_read_an_interval_apart_witness :
  100 <= 250 - nth 0 (sent_frames 100 0
                        [(50, true); (120, true); (180, true); (250, true)])
                 0.
Proof.
  apply (@sent_frames_are_read_an_interval_apart 100 0
           [(50, true); (120, true); (180, true); (250, true)] 1 250).
  cbn [sent_frames].
  repeat match goal with
         | |- context [Rlt_dec ?a ?b] =>
             destruct (Rlt_dec a b); try lra; cbn [sent_frames nth_error]
         end.
  reflexivity.
Defined.

End CameraFrameFacts.

(** ** The prompt of the speech channel *)

Section SpeechPromptFacts.
Import SpeechPrompt.

Variable toLowerCase : string -> string.

Lemma split_not_nil (sep : ascii) (s : string) : Js.split sep s <> [].
Proof.
  destruct s as [| c rest]; cbn; [discriminate |].
  destruct (Ascii.eqb c sep); [discriminate |].
  destruct (Js.split sep rest); discriminate.
Qed.

Lemma join_cons (sep s : string) (l : list string) :
  l <> [] -> join sep (s :: l) = (s ++ sep ++ join sep l)%string.
Proof. destruct l; [intros H; now elim H | reflexivity]. Qed.

Lemma join_split (sep : ascii) (s : string) :
  join (String sep EmptyString) (Js.split sep s) = s.
Proof.
  induction s as [| c rest IH]; cbn [Js.split]; [reflexivity |].
  pose proof (split_not_nil sep rest) as Hn.
  destruct (Ascii.eqb_spec c sep) as [-> | Hne].
  - rewrite join_cons by exact Hn. rewrite IH. reflexivity.
  - destruct (Js.split sep rest) as [| hd tl]; [now elim Hn |].
    destruct tl as [| hd2 tl].
    + cbn [join] in *. now rewrite IH.
    + rewrite join_cons by discriminate.
      rewrite join_cons in IH by discriminate.
      rewrite <- IH. reflexivity.
Qed.

Lemma findIndex_none {A : Type} (p : A -> bool) (l : list A) :
  (forall a, In a l -> p a = false) -> findIndex p l = None.
Proof.
  induction l as [| a l IH]; intros H; cbn; [reflexivity |].
  rewrite (H a) by now left. rewrite IH; [reflexivity |].
  intros b Hb. apply H. now right.
Qed.

Lemma findIndex_first {A : Type} (p : A -> bool) (before after : list A)
    (a : A) :
  (forall b, In b before -> p b = false) -> p a = true ->
  findIndex p (before ++ a :: after) = Some (List.length before).
Proof.
  induction before as [| b before IH]; intros H Ha; cbn.
  - now rewrite Ha.
  - rewrite (H b) by now left. rewrite IH; [reflexivity | | exact Ha].
    intros c Hc. apply H. now right.
Qed.

(** The prompt that is sent is what follows the first word of the
    transcript that is the keyword (compared in lower case), the words
    joined by single spaces again.  When no word of the transcript is
    the keyword (it may still occur inside a word, which is enough to
    start the timer), the whole transcript is sent, unchanged. *)
Theorem prompt_is_the_text_after_the_keyword :
  forall (keyword finalTranscripts : string),
    (forall (before after : list string) (word : string),
       Js.split " "%char finalTranscripts = before ++ word :: after ->
       (forall b, In b before -> toLowerCase b <> keyword) ->
       toLowerCase word = keyword ->
       prompt toLowerCase keyword finalTranscripts = join " " after) /\
    ((forall word, In word (Js.split " "%char finalTranscripts) ->
                   toLowerCase word <> keyword) ->
     prompt toLowerCase keyword finalTranscripts = finalTranscripts).
Proof.
  intros keyword finalTranscripts. split.
  - intros before after word Hs Hb Hw. unfold prompt. cbv zeta.
    rewrite Hs.
    rewrite (findIndex_first _ before after word).
    + unfold splice. rewrite Nat.add_1_r.
      change (word :: after) with ([word] ++ after).
      rewrite app_assoc.
      replace (S (List.length before)) with (List.length (before ++ [word]))
        by (rewrite length_app; cbn; lia).
      now rewrite skipn_app, skipn_all, Nat.sub_diag.
    + intros b Hin. apply String.eqb_neq. now apply Hb.
    + now apply String.eqb_eq.
  - intros Hn. unfold prompt. cbv zeta.
    rewrite findIndex_none.
    + unfold splice. cbn [skipn]. apply join_split.
    + intros w Hin. apply String.eqb_neq. now apply Hn.
Qed.

End SpeechPromptFacts.

Section SpeechChannelFacts.
Import Js WebSocket SpeechPrompt.
Local Open Scope R_scope.

Lemma prompt_is_the_text_after_the_keyword_witness :
  prompt (fun s => s) "robot" "hey robot go left" = "go left"%string /\
  prompt (fun s => s) "robot" "hey robot, go left" =
    "hey robot, go left"%string.
Proof.
  destruct (prompt_is_the_text_after_the_keyword (fun s => s) "robot"
              "hey robot go left") as [H1 _].
  destruct (prompt_is_the_text_after_the_keyword (fun s => s) "robot"
              "hey robot, go left") as [_ H2].
  split.
  - apply (H1 ["hey"%string] ["go"%string; "left"%string] "robot"%string).
    + reflexivity.
    + intros b [<- | []]. discriminate.
    + reflexivity.
  - apply H2. intros word Hin. cbn in Hin.
    repeat (destruct Hin as [<- | Hin]; [discriminate |]). contradiction.
Defined.

(** A prompt end to end.  The transcription timer sends the prompt on
    the open socket with the time of the phone; the server publishes it
    on the speech topic with exactly that stamp and logs the reception.
    An empty prompt (the keyword was the last word heard) is sent all
    the same and is dropped by the server without a trace: nothing is
    published and nothing is logged. *)
Theorem prompt_reaches_the_bus_unless_empty :
  forall (i : nat) (w : BrowserWebSocket.socket) (now : R) (text : string)
         (h : BrowserWebSocket.heap) (clock : R * R)
         (st : MicrophoneChannel.state),
    nth_error h i = Some w ->
    BrowserWebSocket.readyState w = OPEN ->
    ros_interface.microphone
      (ros_interface.publishers
         (websocket_handlers.node (MicrophoneChannel.server st))) = true ->
    exists (h' : BrowserWebSocket.heap) (message : json)
           (parsed : MicrophoneChannel.MicrophoneMessage),
      SpeechRecognitionManager.send_prompt (Some i) now text h = Return h' /\
      nth_error h' i =
        Some {| BrowserWebSocket.readyState := OPEN;
                BrowserWebSocket.sent :=
                  BrowserWebSocket.sent w ++ [Stringified message];
                BrowserWebSocket.discarded := BrowserWebSocket.discarded w |} /\
      MicrophoneChannel.read message = Some parsed /\
      MicrophoneChannel.setupMicrophoneHandlers_onmessage (Some parsed) clock
        st =
        (Return tt,
         match text with
         | EmptyString => st
         | _ =>
             {| MicrophoneChannel.server :=
                  {| websocket_handlers.node :=
                       websocket_handlers.node (MicrophoneChannel.server st);
                     websocket_handlers.log :=
                       websocket_handlers.log (MicrophoneChannel.server st) ++
                       [Logger.info "ROS" "Transcription received"] |};
                MicrophoneChannel.speech :=
                  MicrophoneChannel.speech st ++
                  [{| MicrophoneChannel.header :=
                        {| ros_interface.stamp :=
                             {| ros_interface.sec := floor (now / 1000);
                                ros_interface.nanosec :=
                                  rem now 1000 * 1000000 |};
                           ros_interface.frame_id := "microphone_frame" |};
                      MicrophoneChannel.data := text |}] |}
         end).
Proof.
  intros i w now text h clock st Hi Hw Hpub.
  set (message :=
         JObj [("header"%string,
                JObj [("stamp"%string,
                       JObj [("sec"%string,
                              SpeechRecognitionManager.num
                                (floor (now / 1000)));
                             ("nanosec"%string,
                              SpeechRecognitionManager.num
                                (rem now 1000 * 1000000))]);
                      ("frame_id"%string, JStr "microphone_frame")]);
               ("transcription"%string, JStr text)]).
  destruct (@send_ref_open h i w (Stringified message) Hi Hw)
    as (Hopen & h' & Hsend & Hnth & _).
  exists h', message,
    {| MicrophoneChannel.transcription := Some text;
       MicrophoneChannel.header_stamp :=
         Some {| ros_interface.sec := floor (now / 1000);
                 ros_interface.nanosec := rem now 1000 * 1000000 |} |}.
  split.
  { unfold SpeechRecognitionManager.send_prompt. rewrite Hopen.
    exact Hsend. }
  split; [exact Hnth |].
  split; [reflexivity |].
  unfold MicrophoneChannel.setupMicrophoneHandlers_onmessage.
  cbn [JSON_parse MicrophoneChannel.transcription
       MicrophoneChannel.header_stamp].
  destruct text as [| c rest]; [reflexivity |].
  unfold MicrophoneChannel.publishMicrophoneTranscription.
  cbn [MicrophoneChannel.Logger_call MicrophoneChannel.server
       websocket_handlers.node].
  rewrite Hpub. reflexivity.
Qed.

Lemma prompt_reaches_the_bus_unless_empty_witness :
  exists (h' : BrowserWebSocket.heap) (message : json)
         (parsed : MicrophoneChannel.MicrophoneMessage),
    SpeechRecognitionManager.send_prompt (Some 0%nat) 1500 "" Scenarios.open_heap =
      Return h' /\
    nth_error h' 0 =
      Some {| BrowserWebSocket.readyState := OPEN;
              BrowserWebSocket.sent := [Stringified message];
              BrowserWebSocket.discarded := [] |} /\
    MicrophoneChannel.read message = Some parsed /\
    MicrophoneChannel.setupMicrophoneHandlers_onmessage (Some parsed) (0, 0)
      {| MicrophoneChannel.server := Scenarios.ready_server;
         MicrophoneChannel.speech := [] |} =
      (Return tt,
       {| MicrophoneChannel.server := Scenarios.ready_server;
          MicrophoneChannel.speech := [] |}).
Proof.
  destruct (@prompt_reaches_the_bus_unless_empty 0%nat Scenarios.open_socket
              1500 "" Scenarios.open_heap (0, 0)
              {| MicrophoneChannel.server := Scenarios.ready_server;
                 MicrophoneChannel.speech := [] |}
              eq_refl eq_refl eq_refl)
    as (h' & message & parsed & H1 & H2 & H3 & H4).
  exists h', message, parsed. repeat split; assumption.
Defined.

End SpeechChannelFacts.
